(** * PBL4_Client: the scanning engine and the quarantine manager

    A shallow embedding of [cpp_extension/YaraScanner/YaraScanner.cpp] and
    [cpp_extension/QuarantineManager/QuarantineManager.cpp].  Member
    functions become functions on an explicit engine (or manager) state;
    what the operating system, SQLite, OpenSSL and YARA answer is passed in
    as data.  Machine integers are [Z] with their wrap-around written out,
    [double] is the primitive binary64 float, byte buffers are
    [list byte]. *)

From Stdlib Require Import ZArith String Ascii List Floats Strings.Byte.
From Stdlib Require DecimalString HexadecimalString.
From stdpp Require Import gmap strings list sorting.

Open Scope string_scope.
Open Scope list_scope.
Open Scope Z_scope.

(** ** Machine integers *)

Definition UINT64_MOD : Z := 2 ^ 64.

(** Arithmetic on [uint64_t] wraps modulo 2^64. *)
Definition wrap64 (z : Z) : Z := z mod UINT64_MOD.

Definition is_u64 (z : Z) : Prop := 0 <= z < UINT64_MOD.

Definition INT_MAX : Z := 2 ^ 31 - 1.
Definition INT_MIN : Z := - 2 ^ 31.

(** [static_cast<int>] of an integer value: reduction to the signed 32-bit
    range. *)
Definition static_cast_int (z : Z) : Z := (z + 2 ^ 31) mod 2 ^ 32 - 2 ^ 31.

(** ** Doubles *)

(** [static_cast<double>] of an integer: the nearest binary64 value. *)
Definition double_of_Z (z : Z) : float :=
  SF2Prim (binary_normalize prec emax z 0 false).

(** [static_cast<int>] of a double truncates toward zero.  Outside the range
    of [int] (and for NaN and infinities) C++ leaves the result undefined;
    the x86 conversion instruction answers [INT_MIN] there. *)
Definition int_of_double (f : float) : Z :=
  match Prim2SF f with
  | S754_zero _ => 0
  | S754_finite s m e =>
      let mag := if 0 <=? e then Z.pos m * 2 ^ e else Z.pos m / 2 ^ (- e) in
      let v := if s then - mag else mag in
      if (INT_MIN <=? v) && (v <=? INT_MAX) then v else INT_MIN
  | _ => INT_MIN
  end.

(** [std::min<double>(a, b)] is [(b < a) ? b : a]. *)
Definition std_min_double (a b : float) : float :=
  if PrimFloat.ltb b a then b else a.

(** ** Strings *)

(** [std::to_string] and [operator<<] on unsigned integers. *)
Definition to_string (z : Z) : string :=
  DecimalString.NilZero.string_of_uint (N.to_uint (Z.to_N z)).

(** [operator<<] under [std::hex]. *)
Definition to_hex_string (z : Z) : string :=
  HexadecimalString.NilZero.string_of_uint (N.to_hex_uint (Z.to_N z)).

(** [::tolower] in the C locale. *)
Definition tolower (c : ascii) : ascii :=
  let n := nat_of_ascii c in
  if (65 <=? n)%nat && (n <=? 90)%nat then ascii_of_nat (n + 32) else c.

Fixpoint string_map (f : ascii -> ascii) (s : string) : string :=
  match s with
  | EmptyString => EmptyString
  | String c rest => String (f c) (string_map f rest)
  end.

(** [s.find(keyword) != std::string::npos]. *)
Fixpoint string_contains (keyword s : string) : bool :=
  String.prefix keyword s ||
  match s with
  | EmptyString => false
  | String _ rest => string_contains keyword rest
  end.

(** [std::replace(s.begin(), s.end(), from, to)]. *)
Definition string_replace (from to : ascii) (s : string) : string :=
  string_map (fun c => if Ascii.eqb c from then to else c) s.

Fixpoint join_with (sep : string) (l : list string) : string :=
  match l with
  | [] => ""
  | [x] => x
  | x :: rest => x +:+ sep +:+ join_with sep rest
  end.

(** ** Results and callbacks ([YaraScanner.h]) *)

Record Result := {
  isMalware : bool;
  date : string;
  nameDesktop : string;
  severity : string;
  filename : string;
  filepath : string;
  desc : string;
  md5 : string;
  sha1 : string;
  sha256 : string;
  hash : string;
  hash_type : string;
  detection_source : string;
  malware_name : string;
  matched_rules_count : Z;
  matched_rules : list string
}.

(** What the clock and the environment variables answer during one call:
    [currentDateTime()], [getComputerName()], [Py_IsInitialized()]. *)
Record Host := {
  currentDateTime : string;
  getComputerName : string;
  Py_IsInitialized : bool
}.

(** A default-constructed [Result] with the four fields every emission
    site fills in first. *)
Definition base_result (h : Host) (is_malware : bool) (sev fname fpath : string)
  : Result :=
  {| isMalware := is_malware; date := currentDateTime h;
     nameDesktop := getComputerName h; severity := sev;
     filename := fname; filepath := fpath; desc := "";
     md5 := ""; sha1 := ""; sha256 := ""; hash := ""; hash_type := "";
     detection_source := ""; malware_name := "";
     matched_rules_count := 0; matched_rules := [] |}.

(** A [std::function<void(const Result&)>]: empty, the caller's sink, or the
    lambda of [process_queued_path] that wraps the sink in
    [call_callback_if_python_ready(cb, r, this)]. *)
Inductive ResultCallback :=
| NullCallback
| UserCallback (id : nat)
| GuardedCallback (id : nat).

Definition callback_is_set (cb : ResultCallback) : bool :=
  match cb with NullCallback => false | _ => true end.

Inductive MonitorState := Stopped | Starting | Running | Stopping.

Definition MonitorState_eqb (a b : MonitorState) : bool :=
  match a, b with
  | Stopped, Stopped | Starting, Starting
  | Running, Running | Stopping, Stopping => true
  | _, _ => false
  end.

(** ** The signature store *)

(** The four tables the engine reads.  [malware_name] is a nullable TEXT
    column.  A lookup whose statement fails answers like a missing row. *)
Record SigStore := {
  sig_md5 : gmap string (option string);
  sig_sha1 : gmap string (option string);
  sig_sha256 : gmap string (option string);
  whitelist : gset (string * string)
}.

Definition check_hash_whitelist (db : SigStore) (hex_hash type : string) : bool :=
  bool_decide ((hex_hash, type) ∈ whitelist db).

(** [check_hash_in_db]: [Some name] stands for [true] with
    [out_malware_name = name]. *)
Definition check_hash_in_db (db : SigStore) (hex_hash type : string)
  : option string :=
  let stmt :=
    if String.eqb type "MD5" then Some (sig_md5 db)
    else if String.eqb type "SHA1" then Some (sig_sha1 db)
    else if String.eqb type "SHA256" then Some (sig_sha256 db)
    else None in
  match stmt with
  | None => None
  | Some table =>
      match table !! hex_hash with
      | Some txt => Some (default "" txt)
      | None => None
      end
  end.

(** ** The engine state (private members of [class YaraScanner]) *)

Record YaraScanner := {
  rules : bool;                       (* rules != nullptr *)
  db : SigStore;
  initialized : bool;
  monitor_thread : bool;              (* joinable() *)
  monitor_worker_thread : bool;       (* joinable() *)
  monitor_state : MonitorState;
  monitoring : bool;
  callbacks_enabled : bool;
  realtime_callback : ResultCallback;
  total_count : Z;
  completed_count : Z;
  throttle_duty_cycle : float;
  throttle_max_sleep_ms : Z;
  full_scan_override : bool;
  path_queue : list string;
  last_event_time : gmap string Z
}.

Definition empty_store : SigStore :=
  {| sig_md5 := ∅; sig_sha1 := ∅; sig_sha256 := ∅; whitelist := ∅ |}.

(** [YaraScanner::YaraScanner() = default] with the member initialisers of
    the header. *)
Definition new_scanner : YaraScanner :=
  {| rules := false; db := empty_store; initialized := false;
     monitor_thread := false; monitor_worker_thread := false;
     monitor_state := Stopped; monitoring := false;
     callbacks_enabled := false; realtime_callback := NullCallback;
     total_count := 0; completed_count := 0;
     throttle_duty_cycle := 0.5%float; throttle_max_sleep_ms := 500;
     full_scan_override := false;
     path_queue := []; last_event_time := ∅ |}.

Definition with_counts (t c : Z) (s : YaraScanner) : YaraScanner :=
  {| rules := rules s; db := db s; initialized := initialized s;
     monitor_thread := monitor_thread s;
     monitor_worker_thread := monitor_worker_thread s;
     monitor_state := monitor_state s; monitoring := monitoring s;
     callbacks_enabled := callbacks_enabled s;
     realtime_callback := realtime_callback s;
     total_count := t; completed_count := c;
     throttle_duty_cycle := throttle_duty_cycle s;
     throttle_max_sleep_ms := throttle_max_sleep_ms s;
     full_scan_override := full_scan_override s;
     path_queue := path_queue s; last_event_time := last_event_time s |}.

(** [completed_count.fetch_add(1)]. *)
Definition completed_fetch_add (s : YaraScanner) : YaraScanner :=
  with_counts (total_count s) (wrap64 (completed_count s + 1)) s.

Definition with_throttle (duty : float) (max_sleep : Z) (s : YaraScanner)
  : YaraScanner :=
  {| rules := rules s; db := db s; initialized := initialized s;
     monitor_thread := monitor_thread s;
     monitor_worker_thread := monitor_worker_thread s;
     monitor_state := monitor_state s; monitoring := monitoring s;
     callbacks_enabled := callbacks_enabled s;
     realtime_callback := realtime_callback s;
     total_count := total_count s; completed_count := completed_count s;
     throttle_duty_cycle := duty; throttle_max_sleep_ms := max_sleep;
     full_scan_override := full_scan_override s;
     path_queue := path_queue s; last_event_time := last_event_time s |}.

Definition with_queue (q : list string) (m : gmap string Z) (s : YaraScanner)
  : YaraScanner :=
  {| rules := rules s; db := db s; initialized := initialized s;
     monitor_thread := monitor_thread s;
     monitor_worker_thread := monitor_worker_thread s;
     monitor_state := monitor_state s; monitoring := monitoring s;
     callbacks_enabled := callbacks_enabled s;
     realtime_callback := realtime_callback s;
     total_count := total_count s; completed_count := completed_count s;
     throttle_duty_cycle := throttle_duty_cycle s;
     throttle_max_sleep_ms := throttle_max_sleep_ms s;
     full_scan_override := full_scan_override s;
     path_queue := q; last_event_time := m |}.

(** The lifecycle members that [start_realtime] and [stop_realtime] write. *)
Definition with_monitor (watcher worker : bool) (st : MonitorState)
    (mon enabled : bool) (cb : ResultCallback) (s : YaraScanner) : YaraScanner :=
  {| rules := rules s; db := db s; initialized := initialized s;
     monitor_thread := watcher; monitor_worker_thread := worker;
     monitor_state := st; monitoring := mon;
     callbacks_enabled := enabled; realtime_callback := cb;
     total_count := total_count s; completed_count := completed_count s;
     throttle_duty_cycle := throttle_duty_cycle s;
     throttle_max_sleep_ms := throttle_max_sleep_ms s;
     full_scan_override := full_scan_override s;
     path_queue := path_queue s; last_event_time := last_event_time s |}.

Definition set_full_scan (enabled : bool) (s : YaraScanner) : YaraScanner :=
  {| rules := rules s; db := db s; initialized := initialized s;
     monitor_thread := monitor_thread s;
     monitor_worker_thread := monitor_worker_thread s;
     monitor_state := monitor_state s; monitoring := monitoring s;
     callbacks_enabled := callbacks_enabled s;
     realtime_callback := realtime_callback s;
     total_count := total_count s; completed_count := completed_count s;
     throttle_duty_cycle := throttle_duty_cycle s;
     throttle_max_sleep_ms := throttle_max_sleep_ms s;
     full_scan_override := enabled;
     path_queue := path_queue s; last_event_time := last_event_time s |}.

(** ** Progress *)

Definition get_progress_percent (s : YaraScanner) : Z :=
  let t := total_count s in
  let c := completed_count s in
  if t =? 0 then
    if c =? 0 then 0 else static_cast_int (Z.min 99 c)
  else
    let pct := wrap64 (c * 100) / t in
    let pct := if 100 <? pct then 100 else pct in
    static_cast_int pct.

Definition reset_progress (s : YaraScanner) : YaraScanner := with_counts 0 0 s.

(** ** Throttling *)

(** [throttle_after_work]: the milliseconds slept, [0] when the function
    returns without sleeping.  [work_dur] is the measured duration in ms. *)
Definition throttle_after_work (work_dur : Z) (duty_cycle : float)
    (max_sleep_ms min_work_ms_to_throttle : Z) : Z :=
  if work_dur <? min_work_ms_to_throttle then 0
  else if PrimFloat.leb duty_cycle 0 || PrimFloat.leb 1 duty_cycle then 0
  else
    let W := double_of_Z work_dur in
    let S := (W * (1 - duty_cycle) / duty_cycle)%float in
    let sleep_ms := int_of_double (std_min_double S (double_of_Z max_sleep_ms)) in
    if 0 <? sleep_ms then sleep_ms else 0.

Definition set_throttle_duty (duty : float) (s : YaraScanner) : YaraScanner :=
  if PrimFloat.leb duty 0 || PrimFloat.leb 1 duty
  then with_throttle 0%float (throttle_max_sleep_ms s) s
  else with_throttle duty (throttle_max_sleep_ms s) s.

Definition set_throttle_max_sleep_ms (max_sleep_ms : Z) (s : YaraScanner)
  : YaraScanner :=
  let max_sleep_ms := if max_sleep_ms <? 0 then 0 else max_sleep_ms in
  with_throttle (throttle_duty_cycle s) max_sleep_ms s.

Definition get_throttle_settings (s : YaraScanner) : float * Z :=
  (throttle_duty_cycle s, throttle_max_sleep_ms s).

(** ** What one scan observes and does *)

(** What the file system, the Authenticode check and the digest service
    answer for the path being scanned. *)
Record FileFacts := {
  fs_exists : bool;
  fs_is_regular_file : bool;
  fs_file_size : Z;                    (* fs::file_size as uint64_t *)
  fs_filename : string;                (* fs::path(p).filename().string() *)
  trusted_publisher : bool;            (* check_trusted_publisher_and_skip *)
  md5_opt : option string;             (* compute_all_hashes *)
  sha1_opt : option string;
  sha256_opt : option string;
  read_prefix_suffix : bool            (* success of the sampling read *)
}.

(** The messages YARA passes to the scan callback.  [identifier] of a rule
    may be a null pointer. *)
Inductive YrMessage :=
| CALLBACK_MSG_RULE_MATCHING (identifier : option string)
| CALLBACK_MSG_RULE_NOT_MATCHING
| CALLBACK_MSG_SCAN_FINISHED
| CALLBACK_MSG_OTHER.

(** One run of [yr_rules_scan_file] or [yr_rules_scan_mem]: the callback
    messages in order and the return code ([ERROR_SUCCESS] is 0). *)
Record YaraRun := {
  yr_messages : list YrMessage;
  yr_rc : Z
}.

Inductive ScanMode := FullFile | PrefixSuffix.

(** The observable steps of a scan, in program order. *)
Inductive Event :=
| EvTrustCheck
| EvHashes
| EvWhitelistQuery (hex_hash type : string)
| EvSigQuery (type hex_hash : string)
| EvYaraScan (mode : ScanMode)
| EvEmit (r : Result)
| EvSleep (ms : Z).

Record ScanContext := {
  ctx_callback : ResultCallback;
  ctx_filename : string;
  ctx_filepath : string;
  ctx_md5 : option string;
  ctx_sha1 : option string;
  ctx_sha256 : option string;
  ctx_matched_rules : list string
}.

Definition ctx_with_matches (ms : list string) (ctx : ScanContext) : ScanContext :=
  {| ctx_callback := ctx_callback ctx; ctx_filename := ctx_filename ctx;
     ctx_filepath := ctx_filepath ctx; ctx_md5 := ctx_md5 ctx;
     ctx_sha1 := ctx_sha1 ctx; ctx_sha256 := ctx_sha256 ctx;
     ctx_matched_rules := ms |}.

(** Calling a [ResultCallback].  The guarded lambda re-checks enablement and
    the interpreter before it reaches the sink.  An empty [std::function]
    delivers nothing: [call_callback_if_python_ready] returns before the
    call, and the one direct call, [callback(err)] in the content scan,
    throws (see [content_scan]). *)
Definition invoke_callback (h : Host) (s : YaraScanner) (cb : ResultCallback)
    (r : Result) : list Event :=
  match cb with
  | NullCallback => []
  | UserCallback _ => [EvEmit r]
  | GuardedCallback _ =>
      if negb (callbacks_enabled s) then []
      else if negb (Py_IsInitialized h) then []
      else [EvEmit r]
  end.

(** [owner] tells whether the caller passed [this]. *)
Definition call_callback_if_python_ready (h : Host) (s : YaraScanner)
    (cb : ResultCallback) (r : Result) (owner : bool) : list Event :=
  if negb (callback_is_set cb) then []
  else if owner && negb (callbacks_enabled s) then []
  else if negb (Py_IsInitialized h) then []
  else invoke_callback h s cb r.

(** The aggregated detection built on [CALLBACK_MSG_SCAN_FINISHED]. *)
Definition yara_result (h : Host) (ctx : ScanContext) (matches_copy : list string)
  : Result :=
  let count := Z.of_nat (length matches_copy) in
  {| isMalware := true; date := currentDateTime h;
     nameDesktop := getComputerName h; severity := "Warning";
     filename := ctx_filename ctx; filepath := ctx_filepath ctx;
     desc := "Matched by " +:+ to_string count +:+
             (if count =? 1 then " rule: " else " rules: ") +:+
             join_with ", " matches_copy;
     md5 := default "" (ctx_md5 ctx); sha1 := default "" (ctx_sha1 ctx);
     sha256 := default "" (ctx_sha256 ctx);
     hash := ""; hash_type := "";
     detection_source := "YARA"; malware_name := "";
     matched_rules_count := static_cast_int count;
     matched_rules := matches_copy |}.

Definition rule_match_callback (h : Host) (s : YaraScanner) (ctx : ScanContext)
    (message : YrMessage) : ScanContext * list Event :=
  match message with
  | CALLBACK_MSG_RULE_MATCHING identifier =>
      let id := default "unknown" identifier in
      (ctx_with_matches (ctx_matched_rules ctx ++ [id]) ctx, [])
  | CALLBACK_MSG_SCAN_FINISHED =>
      match ctx_matched_rules ctx with
      | [] => (ctx, [])
      | matches_copy =>
          (ctx_with_matches [] ctx,
           call_callback_if_python_ready h s (ctx_callback ctx)
             (yara_result h ctx matches_copy) false)
      end
  | _ => (ctx, [])
  end.

(** YARA drives the callback through the messages of one run. *)
Fixpoint yr_rules_scan (h : Host) (s : YaraScanner) (ctx : ScanContext)
    (messages : list YrMessage) : ScanContext * list Event :=
  match messages with
  | [] => (ctx, [])
  | m :: rest =>
      let '(ctx1, ev1) := rule_match_callback h s ctx m in
      let '(ctx2, ev2) := yr_rules_scan h s ctx1 rest in
      (ctx2, ev1 ++ ev2)
  end.

Definition MAX_FILE_SIZE_SKIP : Z := 500 * 1024 * 1024.
Definition PARTIAL_FILE_MIN : Z := 10 * 1024 * 1024.
Definition PARTIAL_FILE_MAX : Z := 500 * 1024 * 1024.

Definition excluded_keywords : list string :=
  [ "c:\programdata\pbl4_av_data";
    "\device\";
    "\windows\system32";
    "\windows\winsxs";
    "\$recycle.bin";
    "system volume information";
    "\appdata\local\temp";
    "node_modules";
    ".git";
    "all_rules.yarc";
    "full_hash.db";
    "PBL4_Client.exe" ].

(** The [return] statement a scan leaves through, or
    ([ExitBadFunctionCall]) the exception that leaves it. *)
Inductive ScanExit :=
| ExitUninitialized
| ExitExcluded
| ExitNotRegularFile
| ExitOversized
| ExitTrustedPublisher
| ExitWhitelisted
| ExitHashMatch
| ExitNoRules
| ExitYaraFull
| ExitReadFailed
| ExitYaraPartial
| ExitNoScan
| ExitBadFunctionCall.

Record Outcome := {
  out_scanner : YaraScanner;
  out_exit : ScanExit;
  out_events : list Event
}.

Definition notice_result (h : Host) (ff : FileFacts) (file_path text source : string)
  : Result :=
  {| isMalware := false; date := currentDateTime h;
     nameDesktop := getComputerName h; severity := "NOTICE";
     filename := fs_filename ff; filepath := file_path; desc := text;
     md5 := ""; sha1 := ""; sha256 := ""; hash := ""; hash_type := "";
     detection_source := source; malware_name := "";
     matched_rules_count := 0; matched_rules := [] |}.

Definition error_result (h : Host) (ff : FileFacts) (file_path text : string)
  : Result :=
  {| isMalware := false; date := currentDateTime h;
     nameDesktop := getComputerName h; severity := "ERROR";
     filename := fs_filename ff; filepath := file_path; desc := text;
     md5 := ""; sha1 := ""; sha256 := ""; hash := ""; hash_type := "";
     detection_source := ""; malware_name := "";
     matched_rules_count := 0; matched_rules := [] |}.

(** [r_base] once a signature lookup has hit. *)
Definition hash_result (h : Host) (ff : FileFacts) (file_path type hex name : string)
  : Result :=
  {| isMalware := true; date := currentDateTime h;
     nameDesktop := getComputerName h; severity := "High";
     filename := fs_filename ff; filepath := file_path;
     desc := "Matched " +:+ type +:+ " in DB";
     md5 := ""; sha1 := ""; sha256 := ""; hash := hex; hash_type := type;
     detection_source := "HASH"; malware_name := name;
     matched_rules_count := 0; matched_rules := [] |}.

(** The whitelist test: [||] evaluates left to right and stops at the first
    hit; a digest that is absent is not looked up. *)
Fixpoint whitelist_check (db : SigStore) (probes : list (option string * string))
  : bool * list Event :=
  match probes with
  | [] => (false, [])
  | (None, _) :: rest => whitelist_check db rest
  | (Some hex, type) :: rest =>
      if check_hash_whitelist db hex type
      then (true, [EvWhitelistQuery hex type])
      else let '(hit, ev) := whitelist_check db rest in
           (hit, EvWhitelistQuery hex type :: ev)
  end.

(** The three signature lookups: the first hit ends the sequence. *)
Fixpoint signature_check (db : SigStore) (probes : list (option string * string))
  : option (string * string * string) * list Event :=
  match probes with
  | [] => (None, [])
  | (None, _) :: rest => signature_check db rest
  | (Some hex, type) :: rest =>
      match check_hash_in_db db hex type with
      | Some name => (Some (type, hex, name), [EvSigQuery type hex])
      | None => let '(hit, ev) := signature_check db rest in
                (hit, EvSigQuery type hex :: ev)
      end
  end.

Definition new_context (callback : ResultCallback) (ff : FileFacts)
    (file_path : string) : ScanContext :=
  {| ctx_callback := callback; ctx_filename := fs_filename ff;
     ctx_filepath := file_path; ctx_md5 := md5_opt ff;
     ctx_sha1 := sha1_opt ff; ctx_sha256 := sha256_opt ff;
     ctx_matched_rules := [] |}.

(** Step 3 of [scan_file_internal]: the content scan chosen by size.
    After a failed read of the two segments the code calls [callback(err)]
    directly: an empty callback throws [std::bad_function_call], the
    [catch (...)] handler of the scan calls the empty callback again, and
    the second exception leaves [scan_file_internal]
    ([ExitBadFunctionCall]). *)
Definition content_scan (h : Host) (s : YaraScanner) (callback : ResultCallback)
    (file_path : string) (ff : FileFacts) (yara : YaraRun)
  : ScanExit * list Event :=
  let file_size := fs_file_size ff in
  if negb (rules s) then (ExitNoRules, [])
  else if file_size <=? PARTIAL_FILE_MIN then
    let '(_, ev) := yr_rules_scan h s (new_context callback ff file_path)
                      (yr_messages yara) in
    (ExitYaraFull,
     EvYaraScan FullFile :: ev ++
     (if negb (yr_rc yara =? 0)
      then call_callback_if_python_ready h s callback
             (error_result h ff file_path "YARA full-file scan failed") false
      else []))
  else if (PARTIAL_FILE_MIN <? file_size) && (file_size <=? PARTIAL_FILE_MAX) then
    if negb (read_prefix_suffix ff) then
      if callback_is_set callback then
        (ExitReadFailed,
         invoke_callback h s callback
           (error_result h ff file_path
              "Failed to read file segments for partial scan"))
      else (ExitBadFunctionCall, [])
    else
      let '(_, ev) := yr_rules_scan h s (new_context callback ff file_path)
                        (yr_messages yara) in
      (ExitYaraPartial,
       EvYaraScan PrefixSuffix :: ev ++
       (if negb (yr_rc yara =? 0)
        then call_callback_if_python_ready h s callback
               (error_result h ff file_path "YARA partial scan failed") false
        else []))
  else (ExitNoScan, []).

(** Steps 1 to 3 under [scan_mutex]: digests, whitelist, signatures,
    content scan. *)
Definition locked_scan (h : Host) (s : YaraScanner) (callback : ResultCallback)
    (file_path : string) (ff : FileFacts) (yara : YaraRun) : Outcome :=
  let '(white, ev_white) :=
    if negb (full_scan_override s)
    then whitelist_check (db s)
           [ (sha256_opt ff, "sha256"); (sha1_opt ff, "sha1"); (md5_opt ff, "md5") ]
    else (false, []) in
  if white then
    {| out_scanner := completed_fetch_add s; out_exit := ExitWhitelisted;
       out_events := EvHashes :: ev_white ++
         call_callback_if_python_ready h s callback
           (notice_result h ff file_path "Skipped: hash whitelisted" "WHITELIST")
           true |}
  else
    let '(hit, ev_sig) :=
      signature_check (db s)
        [ (sha256_opt ff, "SHA256"); (sha1_opt ff, "SHA1"); (md5_opt ff, "MD5") ] in
    match hit with
    | Some (type, hex, name) =>
        {| out_scanner := s; out_exit := ExitHashMatch;
           out_events := EvHashes :: ev_white ++ ev_sig ++
             call_callback_if_python_ready h s callback
               (hash_result h ff file_path type hex name) false |}
    | None =>
        let '(exit, ev_yara) := content_scan h s callback file_path ff yara in
        {| out_scanner := s; out_exit := exit;
           out_events := EvHashes :: ev_white ++ ev_sig ++ ev_yara |}
    end.

Definition scan_file_internal (h : Host) (s : YaraScanner)
    (callback : ResultCallback) (file_path : string) (ff : FileFacts)
    (yara : YaraRun) : Outcome :=
  if negb (initialized s) then
    {| out_scanner := s; out_exit := ExitUninitialized; out_events := [] |}
  else
    let path_str := string_map tolower file_path in
    if existsb (fun keyword => string_contains keyword path_str) excluded_keywords
    then {| out_scanner := completed_fetch_add s; out_exit := ExitExcluded;
            out_events := [] |}
    else if negb (fs_exists ff) || negb (fs_is_regular_file ff) then
      {| out_scanner := s; out_exit := ExitNotRegularFile; out_events := [] |}
    else
      let file_size := fs_file_size ff in
      let skip_by_size := (0 <? file_size) && (MAX_FILE_SIZE_SKIP <? file_size) in
      if skip_by_size && negb (full_scan_override s) then
        {| out_scanner := completed_fetch_add s; out_exit := ExitOversized;
           out_events :=
             if callback_is_set callback
             then call_callback_if_python_ready h s callback
                    (notice_result h ff file_path
                       "Skipped: file too large (>500MB)" "POLICY") true
             else [] |}
      else if negb (full_scan_override s) && trusted_publisher ff then
        {| out_scanner := completed_fetch_add s; out_exit := ExitTrustedPublisher;
           out_events := EvTrustCheck ::
             (if callback_is_set callback
              then call_callback_if_python_ready h s callback
                     (notice_result h ff file_path
                        "Skipped: trusted publisher signature" "POLICY") true
              else []) |}
      else
        let o := locked_scan h s callback file_path ff yara in
        {| out_scanner := out_scanner o; out_exit := out_exit o;
           out_events :=
             (if negb (full_scan_override s) then [EvTrustCheck] else [])
             ++ out_events o |}.

Definition emitted (events : list Event) : list Result :=
  omap (fun e => match e with EvEmit r => Some r | _ => None end) events.

Definition content_scans (events : list Event) : list ScanMode :=
  omap (fun e => match e with EvYaraScan m => Some m | _ => None end) events.

Definition sleeps (events : list Event) : list Z :=
  omap (fun e => match e with EvSleep ms => Some ms | _ => None end) events.

Definition signature_queries (events : list Event) : list string :=
  omap (fun e => match e with EvSigQuery type _ => Some type | _ => None end)
    events.


(** One regular file met by the directory walk of [scan_folder], with the
    milliseconds its scan took. *)
Record FolderEntry := {
  entry_path : string;
  entry_facts : FileFacts;
  entry_yara : YaraRun;
  entry_work_ms : Z
}.

(** Whether the scan left by an exception. *)
Definition exit_throws (e : ScanExit) : bool :=
  match e with ExitBadFunctionCall => true | _ => false end.

(** The scan loop of [scan_folder] over the regular files of the walk.  An
    exception out of the scan is caught by the loop, which then neither
    counts the file nor sleeps. *)
Fixpoint scan_entries (h : Host) (s : YaraScanner) (callback : ResultCallback)
    (entries : list FolderEntry) : YaraScanner * list Event :=
  match entries with
  | [] => (s, [])
  | e :: rest =>
      let o := scan_file_internal h s callback (entry_path e) (entry_facts e)
                 (entry_yara e) in
      if exit_throws (out_exit o) then
        let '(s2, ev) := scan_entries h (out_scanner o) callback rest in
        (s2, out_events o ++ ev)
      else
        let s1 := completed_fetch_add (out_scanner o) in
        let slept := throttle_after_work (entry_work_ms e) 0.5 500 2 in
        let '(s2, ev) := scan_entries h s1 callback rest in
        (s2, out_events o ++ (if 0 <? slept then [EvSleep slept] else []) ++ ev)
  end.

Definition scan_folder (h : Host) (s : YaraScanner) (callback : ResultCallback)
    (scan_path_exists : bool) (entries : list FolderEntry)
  : YaraScanner * list Event :=
  if negb (initialized s) then (s, [])
  else if negb scan_path_exists then (s, [])
  else scan_entries h (with_counts (wrap64 (Z.of_nat (length entries))) 0 s)
         callback entries.

(** ** The event queue *)

(** [now] is the reading of the steady clock, in ticks. *)
Definition enqueue_path_for_scan (path : string) (now : Z) (s : YaraScanner)
  : YaraScanner :=
  if String.eqb path "" then s
  else
    match last_event_time s !! path with
    | None =>
        with_queue (path_queue s ++ [path])
                   (<[path := now]> (last_event_time s)) s
    | Some _ =>
        let already_in_queue := existsb (String.eqb path) (path_queue s) in
        with_queue (if already_in_queue then path_queue s
                    else path_queue s ++ [path])
                   (<[path := now]> (last_event_time s)) s
    end.

(** [pop_queued_path]: [Some p] stands for [true] with [out_path = p]. *)
Definition pop_queued_path (s : YaraScanner) : option string * YaraScanner :=
  match path_queue s with
  | [] => (None, s)
  | front :: rest => (Some front, with_queue rest (last_event_time s) s)
  end.

(** What the watcher and worker threads do to the shared members while the
    caller runs: the watcher enqueues, the worker pops, and a scan the
    worker has in flight may count a completed file. *)
Inductive ThreadStep :=
| WatcherEnqueue (path : string) (now : Z)
| WorkerPop
| WorkerScanCounted.

Definition thread_step (s : YaraScanner) (st : ThreadStep) : YaraScanner :=
  match st with
  | WatcherEnqueue path now => enqueue_path_for_scan path now s
  | WorkerPop => snd (pop_queued_path s)
  | WorkerScanCounted => completed_fetch_add s
  end.

Definition run_threads (steps : list ThreadStep) (s : YaraScanner) : YaraScanner :=
  fold_left thread_step steps s.

Definition enqueue_all (events : list (string * Z)) (s : YaraScanner)
  : YaraScanner :=
  fold_left (fun acc ev => enqueue_path_for_scan (fst ev) (snd ev) acc) events s.

(** ** The monitor lifecycle *)

(** [spawn_worker] and [spawn_watcher] tell whether constructing the
    [std::thread] succeeded. *)
Definition start_realtime (spawn_worker spawn_watcher : bool)
    (callback : ResultCallback) (s : YaraScanner) : bool * YaraScanner :=
  if negb (MonitorState_eqb (monitor_state s) Stopped) then (false, s)
  else if negb spawn_worker then
    (false,
     with_monitor (monitor_thread s) (monitor_worker_thread s)
       Stopped false true callback s)
  else if negb spawn_watcher then
    (false, with_monitor (monitor_thread s) false Stopped false true callback s)
  else
    (true, with_monitor true true Running true true callback s).

(** [joined] is what the two threads still did before [join] returned. *)
Definition stop_realtime (joined : list ThreadStep) (s : YaraScanner)
  : YaraScanner :=
  if negb (MonitorState_eqb (monitor_state s) Running) then
    with_monitor (monitor_thread s) (monitor_worker_thread s)
      (monitor_state s) false (callbacks_enabled s) (realtime_callback s) s
  else
    let stopping :=
      with_monitor (monitor_thread s) (monitor_worker_thread s)
        Stopping false false NullCallback s in
    let after_join := run_threads joined stopping in
    let cleared := with_queue [] ∅ after_join in
    with_monitor false false Stopped (monitoring cleared)
      (callbacks_enabled cleared) (realtime_callback cleared) cleared.

(** ** SHA-256

    Both components hash through OpenSSL's [EVP_sha256]; this is the
    function of FIPS 180-4 on 32-bit words held in [Z]. *)

Module SHA256.

Definition mask32 : Z := 2 ^ 32 - 1.
Definition add32 (x y : Z) : Z := Z.land (x + y) mask32.
Definition rotr (n x : Z) : Z :=
  Z.lor (Z.shiftr x n) (Z.land (Z.shiftl x (32 - n)) mask32).
Definition shr (n x : Z) : Z := Z.shiftr x n.
Definition not32 (x : Z) : Z := Z.lxor x mask32.

Definition Ch (x y z : Z) : Z := Z.lxor (Z.land x y) (Z.land (not32 x) z).
Definition Maj (x y z : Z) : Z :=
  Z.lxor (Z.lxor (Z.land x y) (Z.land x z)) (Z.land y z).
Definition Sigma0 (x : Z) : Z := Z.lxor (Z.lxor (rotr 2 x) (rotr 13 x)) (rotr 22 x).
Definition Sigma1 (x : Z) : Z := Z.lxor (Z.lxor (rotr 6 x) (rotr 11 x)) (rotr 25 x).
Definition sigma0 (x : Z) : Z := Z.lxor (Z.lxor (rotr 7 x) (rotr 18 x)) (shr 3 x).
Definition sigma1 (x : Z) : Z := Z.lxor (Z.lxor (rotr 17 x) (rotr 19 x)) (shr 10 x).

(** The first 64 primes. *)
Definition primes : list Z :=
  [ 2; 3; 5; 7; 11; 13; 17; 19; 23; 29; 31; 37; 41; 43; 47; 53;
    59; 61; 67; 71; 73; 79; 83; 89; 97; 101; 103; 107; 109; 113; 127; 131;
    137; 139; 149; 151; 157; 163; 167; 173; 179; 181; 191; 193; 197; 199;
    211; 223; 227; 229; 233; 239; 241; 251; 257; 263; 269; 271; 277; 281;
    283; 293; 307; 311 ].

(** The integer cube root of [n < 2^108], bit by bit from the top. *)
Definition cube_root (n : Z) : Z :=
  fold_left (fun r k => let r' := r + 2 ^ Z.of_nat k in
                        if r' * r' * r' <=? n then r' else r)
            (rev (seq 0 36)) 0.

(** The round constants: the first 32 bits of the fractional parts of the
    cube roots of the primes. *)
Definition K : list Z :=
  Eval vm_compute in map (fun p => cube_root (p * 2 ^ 96) mod 2 ^ 32) primes.

(** The initial hash value: the same of the square roots of the first
    eight primes. *)
Definition H0 : list Z :=
  Eval vm_compute in map (fun p => Z.sqrt (p * 2 ^ 64) mod 2 ^ 32) (take 8 primes).

(** The big-endian bytes of [v], [n] of them. *)
Fixpoint be_bytes (n : nat) (v : Z) : list Z :=
  match n with
  | O => []
  | S n' => Z.land (Z.shiftr v (8 * Z.of_nat n')) 255 :: be_bytes n' v
  end.

Definition pad (msg : list Z) : list Z :=
  let len := Z.of_nat (length msg) in
  let zeros := Z.to_nat ((55 - len) mod 64) in
  msg ++ [128] ++ repeat 0 zeros ++ be_bytes 8 (8 * len).

Fixpoint be_words (n : nat) (bytes : list Z) : list Z :=
  match n, bytes with
  | S n', b0 :: b1 :: b2 :: b3 :: rest =>
      (((b0 * 256 + b1) * 256 + b2) * 256 + b3) :: be_words n' rest
  | _, _ => []
  end.

Definition schedule_step (W : list Z) (t : nat) : list Z :=
  let w (i : nat) := nth (t - i) W 0 in
  W ++ [add32 (add32 (add32 (sigma1 (w 2%nat)) (w 7%nat)) (sigma0 (w 15%nat)))
              (w 16%nat)].

Definition schedule (block_words : list Z) : list Z :=
  fold_left schedule_step (seq 16 48) block_words.

Definition round (st : list Z) (kw : Z * Z) : list Z :=
  match st with
  | [a; b; c; d; e; f; g; h] =>
      let T1 := add32 (add32 (add32 (add32 h (Sigma1 e)) (Ch e f g)) (fst kw))
                      (snd kw) in
      let T2 := add32 (Sigma0 a) (Maj a b c) in
      [add32 T1 T2; a; b; c; add32 d T1; e; f; g]
  | _ => st
  end.

Definition compress (Hs : list Z) (block : list Z) : list Z :=
  let W := schedule (be_words 16 block) in
  zip_with add32 Hs (fold_left round (zip K W) Hs).

Fixpoint blocks (n : nat) (bytes : list Z) : list (list Z) :=
  match n with
  | O => []
  | S n' => take 64 bytes :: blocks n' (drop 64 bytes)
  end.

Definition digest (msg : list Z) : list Z :=
  let padded := pad msg in
  let Hs := fold_left compress (blocks (length padded / 64) padded) H0 in
  concat (map (be_bytes 4) Hs).

End SHA256.

(** ** Bytes and hexadecimal *)

Definition byte_to_Z (b : byte) : Z := Z.of_N (Byte.to_N b).

Definition byte_of_Z (z : Z) : byte :=
  default x00 (Byte.of_N (Z.to_N (z mod 256))).

Definition hex_digit (d : Z) : ascii :=
  ascii_of_N (Z.to_N (if d <? 10 then 48 + d else 87 + d)).

(** [std::hex << std::setfill('0') << std::setw(2)] per digest byte. *)
Fixpoint bytes_to_hex (bytes : list Z) : string :=
  match bytes with
  | [] => ""
  | b :: rest =>
      String (hex_digit (b / 16)) (String (hex_digit (b mod 16)) (bytes_to_hex rest))
  end.

Definition sha256_hex (content : list byte) : string :=
  bytes_to_hex (SHA256.digest (map byte_to_Z content)).

(** ** The quarantine manager ([QuarantineManager.cpp]) *)

Module QuarantineManager.

Definition DEFAULT_XOR_KEY : list byte :=
  [xaa; x55; xc3; x7e; x9a; x1f; xb6; x4d].
Definition DEFAULT_QUARANTINE_FOLDER : string :=
  "C:/ProgramData/PBL4_AV_DATA/Quarantine".
Definition DEFAULT_QUARANTINE_FOLDER_LIMIT_BYTES : Z := 524288000.
Definition DEFAULT_SAFE_FREE_BYTES : Z := 104857600.

(** A row of [quarantine_files]. *)
Record Row := {
  id : Z;
  original_path : string;
  stored_filename : string;
  stored_path : string;
  stored_size : Z;
  quarantined_at : Z;          (* datetime('now'), as seconds *)
  original_hash : string;
  hash_type : string;
  deleted : bool;
  restored : bool
}.

(** The manager together with the disk and the database it works on.  The
    disk holds regular files, each under one path: a path that is no key of
    [files] does not exist.  Directories, other kinds of file and two
    spellings of one path are outside the model. *)
Record State := {
  quarantine_folder_ : string;
  db_handle_ : bool;                        (* db_handle_ != nullptr *)
  files : gmap string (list byte);          (* regular files by path *)
  db_info : gmap string string;
  quarantine_files : list Row
}.

(** What the operating system and SQLite answer during one call.  A
    statement that steps is taken to have been prepared. *)
Record Sys := {
  sqlite3_open_ok : bool;
  create_directories_ok : bool;
  space_available : Z;                      (* fs::space(...).available *)
  epoch_ms : Z;                             (* system_clock, milliseconds *)
  random_u64 : Z;                           (* std::mt19937_64 output *)
  insert_step_done : bool;                  (* INSERT: sqlite3_step == SQLITE_DONE *)
  delete_step_done : bool;                  (* DELETE: sqlite3_step == SQLITE_DONE *)
  update_step_done : bool;                  (* UPDATE: sqlite3_step == SQLITE_DONE *)
  datetime_now : Z;
  sqlite3_errmsg : string;
  exception_what : string;
  open_for_write_ok : string -> bool;       (* std::ofstream(path) opens *)
  write_limit : string -> option nat;       (* bytes that reach the disk; None: all *)
  remove_ok : string -> bool                (* fs::remove(path) does not throw *)
}.

Definition with_files (fs : gmap string (list byte)) (st : State) : State :=
  {| quarantine_folder_ := quarantine_folder_ st; db_handle_ := db_handle_ st;
     files := fs; db_info := db_info st;
     quarantine_files := quarantine_files st |}.

Definition with_rows (rows : list Row) (st : State) : State :=
  {| quarantine_folder_ := quarantine_folder_ st; db_handle_ := db_handle_ st;
     files := files st; db_info := db_info st; quarantine_files := rows |}.

Definition with_manager (folder : string) (handle : bool) (st : State) : State :=
  {| quarantine_folder_ := folder; db_handle_ := handle;
     files := files st; db_info := db_info st;
     quarantine_files := quarantine_files st |}.

(** *** Paths *)

Definition is_separator (c : ascii) : bool :=
  Ascii.eqb c "/"%char || Ascii.eqb c "\"%char.

(** The parent (when the path has a separator) and the last component. *)
Fixpoint split_path (p : string) : option string * string :=
  match p with
  | EmptyString => (None, EmptyString)
  | String c rest =>
      match split_path rest with
      | (Some parent, name) => (Some (String c parent), name)
      | (None, name) =>
          if is_separator c then (Some EmptyString, name)
          else (None, String c name)
      end
  end.

(** [fs::path(p).filename().string()]. *)
Definition path_filename (p : string) : string := snd (split_path p).

Definition ends_with_separator (p : string) : bool :=
  match split_path p with
  | (Some _, EmptyString) => true
  | _ => false
  end.

Definition has_parent_path (p : string) : bool :=
  match split_path p with (Some _, _) => true | _ => false end.

(** [fs::path(folder) / name], with [/] as the separator. *)
Definition path_join (folder name : string) : string :=
  if String.eqb folder "" then name
  else if ends_with_separator folder then folder +:+ name
  else folder +:+ "/" +:+ name.

(** *** Numbers in text *)

Definition digit_value (c : ascii) : option Z :=
  let n := Z.of_nat (nat_of_ascii c) in
  if (48 <=? n) && (n <=? 57) then Some (n - 48) else None.

Fixpoint parse_digits (s : string) (acc : option Z) : option Z :=
  match s with
  | EmptyString => acc
  | String c rest =>
      match digit_value c with
      | Some d => parse_digits rest (Some (10 * default 0 acc + d))
      | None => acc
      end
  end.

Fixpoint skip_spaces (s : string) : string :=
  match s with
  | String c rest =>
      if Ascii.eqb c " "%char || ((9 <=? nat_of_ascii c)%nat && (nat_of_ascii c <=? 13)%nat)
      then skip_spaces rest else s
  | EmptyString => s
  end.

(** [std::stoull]: [None] when it throws (no digits, or out of range). *)
Definition stoull (s : string) : option Z :=
  let s := skip_spaces s in
  let '(negative, body) :=
    match s with
    | String "-"%char rest => (true, rest)
    | String "+"%char rest => (false, rest)
    | _ => (false, s)
    end in
  match parse_digits body None with
  | None => None
  | Some v =>
      if UINT64_MOD <=? v then None
      else Some (if negative then wrap64 (- v) else v)
  end.

(** *** Helpers *)

Definition get_db_info_value (st : State) (key default_val : string) : string :=
  if negb (db_handle_ st) then default_val
  else default default_val (db_info st !! key).

Definition file_size_bytes (st : State) (path : string) : Z :=
  match files st !! path with
  | Some content => Z.of_nat (length content)
  | None => 0
  end.

Definition in_folder (folder path : string) : bool :=
  match split_path path with
  | (Some parent, _) =>
      String.eqb parent folder || String.eqb (parent +:+ "/") folder
  | (None, _) => false
  end.

Definition get_total_quarantine_bytes (st : State) : Z :=
  let val := get_db_info_value st "quarantine_total_size" "" in
  let from_info := if String.eqb val "" then None else stoull val in
  match from_info with
  | Some v => v
  | None =>
      map_fold (fun path content total =>
                  if in_folder (quarantine_folder_ st) path
                  then wrap64 (total + Z.of_nat (length content)) else total)
               0 (files st)
  end.

Definition xor_byte (b k : byte) : byte :=
  byte_of_Z (Z.lxor (byte_to_Z b) (byte_to_Z k)).

Fixpoint xor_stream (key : list byte) (kpos : nat) (content : list byte)
  : list byte :=
  match content with
  | [] => []
  | b :: rest =>
      xor_byte b (nth kpos key x00)
        :: xor_stream key ((kpos + 1) mod length key)%nat rest
  end.

(** [try { fs::remove(path); } catch (...) {}]: removing a path that does
    not exist is no error; when the removal throws the file stays. *)
Definition try_remove (sys : Sys) (path : string) (st : State) : State :=
  if remove_ok sys path then with_files (delete path (files st)) st else st.

(** [xor_transform_file]: [inr n] stands for [true] with
    [out_bytes_written = n], [inl e] for [false] with [out_error = e].  The
    destination is opened with [std::ios::trunc] after the source was
    opened and before the first read, so with [src = dst] nothing is left
    to read.  The writes are not tested: the function counts the bytes it
    read, whatever part of them reached the disk. *)
Definition xor_transform_file (sys : Sys) (src dst : string) (st : State)
  : (string + Z) * State :=
  match files st !! src with
  | None => (inl "Failed to open source file for XOR transform", st)
  | Some content =>
      if has_parent_path dst && negb (create_directories_ok sys) then
        (inl ("XOR transform failed: " +:+ exception_what sys), st)
      else if negb (open_for_write_ok sys dst) then
        (inl "Failed to open destination file for XOR transform", st)
      else
        let read := if String.eqb src dst then [] else content in
        let encoded := xor_stream DEFAULT_XOR_KEY 0 read in
        let stored :=
          match write_limit sys dst with
          | None => encoded
          | Some k => take k encoded
          end in
        (inr (wrap64 (Z.of_nat (length read))),
         with_files (<[dst := stored]> (files st)) st)
  end.

(** [compute_hash(path, out, "sha256", err)]: [None] when the file cannot
    be opened. *)
Definition compute_hash (st : State) (path : string) : option string :=
  sha256_hex <$> files st !! path.

Definition make_unique_stored_filename (sys : Sys) (original_path : string)
  : string :=
  let s := to_string (epoch_ms sys) +:+ "_" +:+ to_hex_string (random_u64 sys)
           +:+ "_" +:+ path_filename original_path in
  string_replace "/" "_" (string_replace "\" "_" (string_replace ":" "_" s)).

Definition next_id (rows : list Row) : Z :=
  1 + fold_right (fun r m => Z.max (id r) m) 0 rows.

(** [insert_quarantine_record]: the flag is the function's result. *)
Definition insert_quarantine_record (sys : Sys) (stored_name original_full_path : string)
    (size : Z) (hash : string) (st : State) : bool * State :=
  if negb (db_handle_ st) then (false, st)
  else if negb (insert_step_done sys) then (false, st)
  else
    (true,
     with_rows (quarantine_files st ++
                [ {| id := next_id (quarantine_files st);
                     original_path := original_full_path;
                     stored_filename := stored_name;
                     stored_path := quarantine_folder_ st;
                     stored_size := size;
                     quarantined_at := datetime_now sys;
                     original_hash := hash;
                     hash_type := "sha256";
                     deleted := false;
                     restored := false |} ]) st).

(** [remove_quarantine_record_by_id]: [record_id] is an [int].  The stored
    file is removed first (a removal that throws is noted and passed over),
    then the row is deleted; the result is whether the DELETE stepped. *)
Definition remove_quarantine_record_by_id (sys : Sys) (record_id : Z)
    (st : State) : bool * State :=
  if negb (db_handle_ st) then (false, st)
  else
    match List.find (fun r => id r =? record_id) (quarantine_files st) with
    | None => (false, st)
    | Some r =>
        let fp := path_join (stored_path r) (stored_filename r) in
        let st := try_remove sys fp st in
        if delete_step_done sys then
          (true,
           with_rows (List.filter (fun r' => negb (id r' =? record_id))
                        (quarantine_files st)) st)
        else (false, st)
    end.

(** [ORDER BY quarantined_at ASC], as an insertion sort that keeps rows of
    equal time in table order (SQLite promises no order among them; a
    property that holds here for rows of equal time must not depend on
    it). *)
Fixpoint insert_by_age (r : Row) (sorted : list Row) : list Row :=
  match sorted with
  | [] => [r]
  | x :: rest =>
      if quarantined_at r <=? quarantined_at x then r :: sorted
      else x :: insert_by_age r rest
  end.

Definition oldest_first (rows : list Row) : list Row :=
  fold_right insert_by_age [] rows.

(** The selection loop of the pruner: rows are taken until the running sum
    reaches [needed_bytes]. *)
Fixpoint collect_victims (needed_bytes freed : Z) (rows : list Row)
  : list Row * Z :=
  match rows with
  | [] => ([], freed)
  | r :: rest =>
      let freed' := wrap64 (freed + wrap64 (stored_size r)) in
      if needed_bytes <=? freed' then ([r], freed')
      else let '(more, total) := collect_victims needed_bytes freed' rest in
           (r :: more, total)
  end.

(** [prune_quarantine_if_needed]: result, [out_freed_bytes], new state.
    The ids are read with [sqlite3_column_int]; a removal that fails is
    noted in the details and the result stays [true]. *)
Definition prune_quarantine_if_needed (sys : Sys) (needed_bytes : Z)
    (st : State) : bool * Z * State :=
  if needed_bytes =? 0 then (true, 0, st)
  else if negb (db_handle_ st) then (false, 0, st)
  else
    let candidates :=
      oldest_first (List.filter (fun r => negb (deleted r)) (quarantine_files st)) in
    let '(victims, freed) := collect_victims needed_bytes 0 candidates in
    if freed <? needed_bytes then (false, freed, st)
    else
      (true, freed,
       fold_left
         (fun acc r =>
            snd (remove_quarantine_record_by_id sys (static_cast_int (id r)) acc))
         victims st).

(** *** [quarantine] *)

Definition quarantine (sys : Sys) (file_path : string) (st : State)
  : string * State :=
  if negb (db_handle_ st || sqlite3_open_ok sys) then
    ("ERROR: Cannot open DB: Failed to open DB: " +:+ sqlite3_errmsg sys, st)
  else
    let st := with_manager (quarantine_folder_ st) true st in
    let folder := get_db_info_value st "quarantine_folder_path"
                    (quarantine_folder_ st) in
    let st := if String.eqb folder "" then st else with_manager folder true st in
    let folder_limit :=
      default DEFAULT_QUARANTINE_FOLDER_LIMIT_BYTES
        (stoull (get_db_info_value st "quarantine_folder_limit_bytes"
                   (to_string DEFAULT_QUARANTINE_FOLDER_LIMIT_BYTES))) in
    let safe_free :=
      default DEFAULT_SAFE_FREE_BYTES
        (stoull (get_db_info_value st "quarantine_safe_free_bytes"
                   (to_string DEFAULT_SAFE_FREE_BYTES))) in
    if negb (create_directories_ok sys) then
      ("ERROR: Failed to ensure quarantine folder exists: " +:+ exception_what sys,
       st)
    else
      let free_bytes := space_available sys in
      let orig_size := file_size_bytes st file_path in
      if (orig_size =? 0) && negb (bool_decide (is_Some (files st !! file_path)))
      then ("ERROR: File not found: " +:+ file_path, st)
      else if free_bytes <? safe_free then
        if remove_ok sys file_path then
          ("EMERGENCY_DELETED: free_bytes(" +:+ to_string free_bytes
             +:+ ") < safe_threshold(" +:+ to_string safe_free
             +:+ "), deleted " +:+ file_path,
           with_files (delete file_path (files st)) st)
        else
          ("ERROR: failed to delete file in emergency: " +:+ exception_what sys,
           st)
      else
        let current_quarantine_total := get_total_quarantine_bytes st in
        let stored_size := orig_size in
        if folder_limit <? wrap64 (current_quarantine_total + stored_size) then
          let needed :=
            wrap64 (wrap64 (current_quarantine_total + stored_size) - folder_limit) in
          let '(pr_ok, freed, st) := prune_quarantine_if_needed sys needed st in
          if negb pr_ok then
            ("ERROR: Unable to make room in quarantine: "
               +:+ (if negb (db_handle_ st) then "DB not open"
                    else "Not enough reclaimable space in quarantine to satisfy request"),
             st)
          else
            let stored_name := make_unique_stored_filename sys file_path in
            let dest := path_join (quarantine_folder_ st) stored_name in
            match xor_transform_file sys file_path dest st with
            | (inl xerr, st) =>
                ("ERROR: Failed to move file to quarantine: " +:+ xerr, st)
            | (inr bytes_written, st) =>
                let hash := default "" (compute_hash st dest) in
                let '(ok, st) :=
                  insert_quarantine_record sys stored_name file_path
                    bytes_written hash st in
                let st := try_remove sys file_path st in
                ("PRUNED_AND_QUARANTINED: freed=" +:+ to_string freed
                   +:+ " bytes; stored_as=" +:+ dest, st)
            end
        else
          let stored_name := make_unique_stored_filename sys file_path in
          let dest := path_join (quarantine_folder_ st) stored_name in
          match xor_transform_file sys file_path dest st with
          | (inl xerr, st) =>
              ("ERROR: Failed to move file to quarantine: " +:+ xerr, st)
          | (inr bytes_written, st) =>
              let hash := default "" (compute_hash st dest) in
              let '(ok, st) :=
                insert_quarantine_record sys stored_name file_path
                  bytes_written hash st in
              let st := try_remove sys file_path st in
              if ok then ("QUARANTINED: stored_as=" +:+ dest, st)
              else
                ("ERROR: Failed to record quarantine in DB: " +:+ sqlite3_errmsg sys,
                 try_remove sys dest st)
          end.

(** *** [whitelist] and [restore] *)

(** The tables and columns that only [whitelist] and [restore] write: the
    [whitelist(hash, hash_type, note)] table, keyed by its primary key, and
    the [restored_at] / [restored_path] columns of [quarantine_files], kept
    by row id. *)
Record Ledger := {
  whitelist_table : gmap (string * string) string;
  restore_marks : gmap Z (Z * string)
}.

Definition empty_ledger : Ledger :=
  {| whitelist_table := ∅; restore_marks := ∅ |}.

(** [insert_whitelist_db]: INSERT OR REPLACE; the flag is the result. *)
Definition insert_whitelist_db (sys : Sys) (hash type note : string) (st : State)
    (lg : Ledger) : bool * Ledger :=
  if negb (db_handle_ st) then (false, lg)
  else if negb (insert_step_done sys) then (false, lg)
  else (true,
        {| whitelist_table := <[(hash, type) := note]> (whitelist_table lg);
           restore_marks := restore_marks lg |}).

Definition whitelist (sys : Sys) (file_path : string) (st : State) (lg : Ledger)
  : string * State * Ledger :=
  if negb (db_handle_ st || sqlite3_open_ok sys) then
    ("ERROR: Open DB failed: Failed to open DB: " +:+ sqlite3_errmsg sys, st, lg)
  else
    let st := with_manager (quarantine_folder_ st) true st in
    match compute_hash st file_path with
    | None => ("ERROR: File not found: " +:+ file_path, st, lg)
    | Some hash =>
        match insert_whitelist_db sys hash "sha256" file_path st lg with
        | (false, lg) =>
            ("ERROR: Failed to insert whitelist: DB insert whitelist failed: "
               +:+ sqlite3_errmsg sys, st, lg)
        | (true, lg) => ("WHITELISTED: sha256=" +:+ hash, st, lg)
        end
    end.

(** The row [restore] selects: the first whose stored name, or stored path
    joined with [/] and the stored name, is the argument.  Its id is read
    with [sqlite3_column_int], and the UPDATE that marks it goes by that
    [int]; its result is not tested. *)
Definition find_stored (search_name stored_name_or_path : string)
    (rows : list Row) : option Row :=
  List.find (fun r => String.eqb (stored_filename r) search_name
                      || String.eqb (stored_path r +:+ "/" +:+ stored_filename r)
                                    stored_name_or_path) rows.

Definition mark_restored (record_id : Z) (r : Row) : Row :=
  if id r =? record_id then
    {| id := id r; original_path := original_path r;
       stored_filename := stored_filename r; stored_path := stored_path r;
       stored_size := stored_size r; quarantined_at := quarantined_at r;
       original_hash := original_hash r; hash_type := hash_type r;
       deleted := deleted r; restored := true |}
  else r.

Definition restore (sys : Sys) (stored_name_or_path : string) (st : State)
    (lg : Ledger) : string * State * Ledger :=
  if negb (db_handle_ st || sqlite3_open_ok sys) then
    ("ERROR: Open DB failed: Failed to open DB: " +:+ sqlite3_errmsg sys, st, lg)
  else
    let st := with_manager (quarantine_folder_ st) true st in
    let search_name := path_filename stored_name_or_path in
    match find_stored search_name stored_name_or_path (quarantine_files st) with
    | None =>
        ("ERROR: Quarantined file not found: " +:+ stored_name_or_path, st, lg)
    | Some row =>
        let record_id := static_cast_int (id row) in
        let src := path_join (stored_path row) (stored_filename row) in
        if negb (bool_decide (is_Some (files st !! src))) then
          ("ERROR: Quarantined file missing on disk: " +:+ src, st, lg)
        else
          let dest := original_path row in
          if has_parent_path dest && negb (create_directories_ok sys) then
            ("ERROR: Failed to create destination directories: "
               +:+ exception_what sys, st, lg)
          else
            match xor_transform_file sys src dest st with
            | (inl xerr, st) =>
                ("ERROR: Failed to decode and restore file: " +:+ xerr, st, lg)
            | (inr written, st) =>
                let hash := default "" (compute_hash st dest) in
                let lg :=
                  match compute_hash st dest with
                  | Some h => snd (insert_whitelist_db sys h "sha256" dest st lg)
                  | None => lg
                  end in
                let updated :=
                  update_step_done sys
                  && existsb (fun r => id r =? record_id) (quarantine_files st) in
                let st :=
                  if updated
                  then with_rows (map (mark_restored record_id)
                                    (quarantine_files st)) st
                  else st in
                let lg :=
                  if updated
                  then {| whitelist_table := whitelist_table lg;
                          restore_marks :=
                            <[record_id := (datetime_now sys, dest)]>
                              (restore_marks lg) |}
                  else lg in
                let msg :=
                  "RESTORED: " +:+ dest
                    +:+ (if String.eqb hash "" then "" else " sha256=" +:+ hash) in
                if remove_ok sys src
                then (msg, with_files (delete src (files st)) st, lg)
                else (msg +:+ " WARNING: Failed to remove quarantined file: "
                          +:+ exception_what sys, st, lg)
            end
    end.

(** The free-space threshold [quarantine] reads from [db_info]. *)
Definition configured_safe_free (st : State) : Z :=
  default DEFAULT_SAFE_FREE_BYTES
    (stoull (default (to_string DEFAULT_SAFE_FREE_BYTES)
               (db_info st !! "quarantine_safe_free_bytes"))).

(** The folder [quarantine] stores into: the [db_info] value when there is
    a non-empty one. *)
Definition configured_folder (st : State) : string :=
  let folder := default (quarantine_folder_ st)
                  (db_info st !! "quarantine_folder_path") in
  if String.eqb folder "" then quarantine_folder_ st else folder.

(** The file system takes a whole file at [path]: the parent can be
    created, the file opens for writing and every byte reaches the disk. *)
Definition stores_fully (sys : Sys) (path : string) : bool :=
  (negb (has_parent_path path) || create_directories_ok sys)
  && open_for_write_ok sys path
  && match write_limit sys path with None => true | Some _ => false end.

Definition has_separator (s : string) : bool :=
  existsb (fun c => is_separator c || Ascii.eqb c ":"%char)
    (list_ascii_of_string s).

End QuarantineManager.

(** ** Reading a scan *)

(** Whether a result handed to [cb] reaches the caller's sink. *)
Definition sink_ready (h : Host) (s : YaraScanner) (cb : ResultCallback) : bool :=
  match cb with
  | NullCallback => false
  | UserCallback _ => Py_IsInitialized h
  | GuardedCallback _ => Py_IsInitialized h && callbacks_enabled s
  end.

(** The signature precedence in the words of the specification: SHA-256
    first, then SHA-1, then MD5; the answer is the matched type, the matched
    hash and the malware name of the store. *)
Definition first_signature_hit (db : SigStore) (ff : FileFacts)
  : option (string * string * string) :=
  let look (digest : option string) (type : string) :=
    match digest with
    | Some hex =>
        match check_hash_in_db db hex type with
        | Some name => Some (type, hex, name)
        | None => None
        end
    | None => None
    end in
  match look (sha256_opt ff) "SHA256" with
  | Some hit => Some hit
  | None =>
      match look (sha1_opt ff) "SHA1" with
      | Some hit => Some hit
      | None => look (md5_opt ff) "MD5"
      end
  end.

(** The rule identifiers a message stream reports, in order. *)
Definition matched_identifiers (messages : list YrMessage) : list string :=
  omap (fun m => match m with
                 | CALLBACK_MSG_RULE_MATCHING identifier =>
                     Some (default "unknown" identifier)
                 | _ => None
                 end) messages.

Definition is_scan_finished (m : YrMessage) : bool :=
  match m with CALLBACK_MSG_SCAN_FINISHED => true | _ => false end.

(** A run that completed: return code 0 and a stream that ends with its
    only [CALLBACK_MSG_SCAN_FINISHED]. *)
Definition completed_run (yara : YaraRun) (body : list YrMessage) : Prop :=
  yr_rc yara = 0 /\
  yr_messages yara = body ++ [CALLBACK_MSG_SCAN_FINISHED] /\
  forallb (fun m => negb (is_scan_finished m)) body = true.

(** The description the specification gives for [ids]. *)
Definition spec_description (ids : list string) : string :=
  "Matched " +:+ to_string (Z.of_nat (length ids)) +:+
  (if Z.of_nat (length ids) =? 1 then " rule: " else " rules: ") +:+
  join_with ", " ids.

(** The queue invariants of the data model. *)
Definition queue_unique (s : YaraScanner) : Prop :=
  forall p : string, (count_occ string_dec (path_queue s) p <= 1)%nat.

Definition queue_in_map (s : YaraScanner) : Prop :=
  Forall (fun p => is_Some (last_event_time s !! p)) (path_queue s).

(** The events of the policy gate that full-scan mode is meant to skip:
    the publisher check and the whitelist lookups. *)
Definition gate_event (e : Event) : bool :=
  match e with
  | EvTrustCheck | EvWhitelistQuery _ _ => true
  | _ => false
  end.

Definition gate_checks (events : list Event) : list Event :=
  List.filter gate_event events.

Definition is_sleep (e : Event) : bool :=
  match e with EvSleep _ => true | _ => false end.

(** The sleep [scan_folder] inserts after one entry. *)
Definition entry_sleep (e : FolderEntry) : option Z :=
  let slept := throttle_after_work (entry_work_ms e) 0.5 500 2 in
  if 0 <? slept then Some slept else None.

(** Whether the lowercased path contains one of the excluded keywords. *)
Definition path_excluded (file_path : string) : bool :=
  existsb (fun keyword => string_contains keyword (string_map tolower file_path))
    excluded_keywords.

(** The two invariants in the form the induction carries. *)
Definition queue_ok (s : YaraScanner) : Prop :=
  NoDup (path_queue s) /\
  Forall (fun p => is_Some (last_event_time s !! p)) (path_queue s).

(** ** Concrete inputs *)

Definition host0 : Host :=
  {| currentDateTime := "2025-01-01 12:00:00"; getComputerName := "LAB-PC";
     Py_IsInitialized := true |}.

Definition empty_md5 : string := "d41d8cd98f00b204e9800998ecf8427e".
Definition empty_sha1 : string := "da39a3ee5e6b4b0d3255bfef95601890afd80709".
Definition empty_sha256 : string :=
  "e3b0c44298fc1c149afbf4c8996fb92427ae41e4649b934ca495991b7852b855".

Definition store0 : SigStore :=
  {| sig_md5 := {[ empty_md5 := Some "Test.MD5" ]};
     sig_sha1 := {[ empty_sha1 := Some "Test.SHA1" ]};
     sig_sha256 := {[ empty_sha256 := Some "Test.EICAR" ]};
     whitelist := ∅ |}.

(** An initialised engine with rules loaded and [store0] opened. *)
Definition engine0 : YaraScanner :=
  {| rules := true; db := store0; initialized := true;
     monitor_thread := false; monitor_worker_thread := false;
     monitor_state := Stopped; monitoring := false;
     callbacks_enabled := false; realtime_callback := NullCallback;
     total_count := 0; completed_count := 0;
     throttle_duty_cycle := 0.5%float; throttle_max_sleep_ms := 500;
     full_scan_override := false;
     path_queue := []; last_event_time := ∅ |}.

Definition engine_clean : YaraScanner :=
  {| rules := true; db := empty_store; initialized := true;
     monitor_thread := false; monitor_worker_thread := false;
     monitor_state := Stopped; monitoring := false;
     callbacks_enabled := false; realtime_callback := NullCallback;
     total_count := 0; completed_count := 0;
     throttle_duty_cycle := 0.5%float; throttle_max_sleep_ms := 500;
     full_scan_override := false;
     path_queue := []; last_event_time := ∅ |}.

(** A running monitor with two paths pending. *)
Definition engine_running : YaraScanner :=
  enqueue_path_for_scan "C:\in\b.exe" 7
    (enqueue_path_for_scan "C:\in\a.exe" 5
       (snd (start_realtime true true (UserCallback 1) engine0))).

Definition empty_file : FileFacts :=
  {| fs_exists := true; fs_is_regular_file := true; fs_file_size := 0;
     fs_filename := "eicar.com"; trusted_publisher := false;
     md5_opt := Some empty_md5; sha1_opt := Some empty_sha1;
     sha256_opt := Some empty_sha256; read_prefix_suffix := true |}.

(** The same file once it has been removed: the path no longer exists. *)
Definition missing_file : FileFacts :=
  {| fs_exists := false; fs_is_regular_file := false; fs_file_size := 0;
     fs_filename := "eicar.com"; trusted_publisher := false;
     md5_opt := Some empty_md5; sha1_opt := Some empty_sha1;
     sha256_opt := Some empty_sha256; read_prefix_suffix := true |}.

(** A 100 MiB file. *)
Definition large_file : FileFacts :=
  {| fs_exists := true; fs_is_regular_file := true;
     fs_file_size := 100 * 1024 * 1024;
     fs_filename := "big.bin"; trusted_publisher := false;
     md5_opt := Some "0f"; sha1_opt := Some "1e"; sha256_opt := Some "2d";
     read_prefix_suffix := true |}.

Definition no_match_run : YaraRun :=
  {| yr_messages := [CALLBACK_MSG_RULE_NOT_MATCHING; CALLBACK_MSG_SCAN_FINISHED];
     yr_rc := 0 |}.

Definition two_rule_body : list YrMessage :=
  [ CALLBACK_MSG_RULE_MATCHING (Some "R1");
    CALLBACK_MSG_RULE_NOT_MATCHING;
    CALLBACK_MSG_RULE_MATCHING (Some "R2") ].

Definition two_rule_run : YaraRun :=
  {| yr_messages := two_rule_body ++ [CALLBACK_MSG_SCAN_FINISHED]; yr_rc := 0 |}.

(** The engine after [set_throttle_duty(0.25)] and
    [set_throttle_max_sleep_ms(1000)]. *)
Definition engine_throttled : YaraScanner :=
  set_throttle_max_sleep_ms 1000 (set_throttle_duty 0.25 engine_clean).

Definition slow_entry : FolderEntry :=
  {| entry_path := "C:\data\big.bin"; entry_facts := large_file;
     entry_yara := no_match_run; entry_work_ms := 100 |}.

Definition sys0 (insert_ok : bool) : QuarantineManager.Sys :=
  {| QuarantineManager.sqlite3_open_ok := true;
     QuarantineManager.create_directories_ok := true;
     QuarantineManager.space_available := 1000000000;
     QuarantineManager.epoch_ms := 1700000000000;
     QuarantineManager.random_u64 := 48879;
     QuarantineManager.insert_step_done := insert_ok;
     QuarantineManager.delete_step_done := true;
     QuarantineManager.update_step_done := true;
     QuarantineManager.datetime_now := 20;
     QuarantineManager.sqlite3_errmsg := "disk I/O error";
     QuarantineManager.exception_what := "";
     QuarantineManager.open_for_write_ok := fun _ => true;
     QuarantineManager.write_limit := fun _ => None;
     QuarantineManager.remove_ok := fun _ => true |}.

Definition old_row : QuarantineManager.Row :=
  {| QuarantineManager.id := 1;
     QuarantineManager.original_path := "/home/u/old.bin";
     QuarantineManager.stored_filename := "old";
     QuarantineManager.stored_path := "/q";
     QuarantineManager.stored_size := 4;
     QuarantineManager.quarantined_at := 10;
     QuarantineManager.original_hash := "";
     QuarantineManager.hash_type := "sha256";
     QuarantineManager.deleted := false;
     QuarantineManager.restored := false |}.

(** A store with room: nothing quarantined yet, default limits. *)
Definition store_with_room : QuarantineManager.State :=
  {| QuarantineManager.quarantine_folder_ := "/q";
     QuarantineManager.db_handle_ := false;
     QuarantineManager.files := {[ "/home/u/evil.bin" := ["a"%byte] ]};
     QuarantineManager.db_info := ∅;
     QuarantineManager.quarantine_files := [] |}.

(** A store at its limit of 4 bytes, holding one old 4-byte entry. *)
Definition store_full : QuarantineManager.State :=
  {| QuarantineManager.quarantine_folder_ := "/q";
     QuarantineManager.db_handle_ := false;
     QuarantineManager.files :=
       {[ "/home/u/evil.bin" := ["a"%byte]; "/q/old" := [x01; x02; x03; x04] ]};
     QuarantineManager.db_info := {[ "quarantine_folder_limit_bytes" := "4" ]};
     QuarantineManager.quarantine_files := [old_row] |}.

Definition stored_as : string := "/q/1700000000000_beef_evil.bin".

(** ** Sampling, stability check and polling *)

Definition PARTIAL_PREFIX_SIZE : Z := 4 * 1024 * 1024.
Definition PARTIAL_SUFFIX_SIZE : Z := 1 * 1024 * 1024.

(** [read_prefix_suffix] on a file that opens and holds [content] (with
    [fs::file_size] agreeing with it): [out_prefix] and [out_suffix]. *)
Definition read_prefix_suffix_segments (content : list byte)
  : list byte * list byte :=
  let size := Z.of_nat (length content) in
  let prefix_to_read := Z.min PARTIAL_PREFIX_SIZE size in
  let suffix_to_read :=
    if prefix_to_read <? size
    then Z.min PARTIAL_SUFFIX_SIZE (size - prefix_to_read) else 0 in
  let out_prefix :=
    if 0 <? prefix_to_read then take (Z.to_nat prefix_to_read) content else [] in
  let out_suffix :=
    if 0 <? suffix_to_read
    then take (Z.to_nat suffix_to_read)
           (drop (Z.to_nat (size - suffix_to_read)) content)
    else [] in
  (out_prefix, out_suffix).

Definition UINT64_MAX : Z := UINT64_MOD - 1.
Definition MAX_STABLE_RETRIES : nat := 5.
Definition STABLE_WAIT_MS : Z := 150.

(** How the stability loop of [process_queued_path] ends, with the number
    of 150 ms waits it made. *)
Inductive StableCheck :=
| FileDisappeared (waits : nat)
| FileStable (size : Z) (waits : nat)
| FileUnstable (waits : nat).

(** [reads i] is what attempt [i] observes: [None] when the path is no
    longer a regular file, else the size ([UINT64_MAX] when it cannot be
    read).  [fuel] counts the attempts left. *)
Fixpoint stable_check_loop (fuel i : nat) (last_size : Z)
    (reads : nat -> option Z) : StableCheck :=
  match fuel with
  | O => FileUnstable i
  | S fuel' =>
      match reads i with
      | None => FileDisappeared i
      | Some sz =>
          if (0 <? i)%nat && negb (sz =? UINT64_MAX) && (sz =? last_size)
          then FileStable last_size i
          else stable_check_loop fuel' (S i) sz reads
      end
  end.

Definition stable_check (reads : nat -> option Z) : StableCheck :=
  stable_check_loop MAX_STABLE_RETRIES 0 0 reads.

Definition stable_waits (r : StableCheck) : nat :=
  match r with
  | FileDisappeared w | FileStable _ w | FileUnstable w => w
  end.

(** The lambda that wraps a stored callback before a realtime scan. *)
Definition guarded (cb : ResultCallback) : ResultCallback :=
  match cb with
  | UserCallback id => GuardedCallback id
  | other => other
  end.

Record QueuedOutcome := {
  queued_waits : nat;
  queued_scan : option Outcome
}.

(** [first_look] is the initial exists / regular-file test. *)
Definition process_queued_path (h : Host) (s : YaraScanner) (path : string)
    (first_look : bool) (reads : nat -> option Z) (ff : FileFacts)
    (yara : YaraRun) : QueuedOutcome :=
  if negb (callback_is_set (realtime_callback s)) then
    {| queued_waits := 0; queued_scan := None |}
  else if negb first_look then {| queued_waits := 0; queued_scan := None |}
  else
    match stable_check reads with
    | FileDisappeared w => {| queued_waits := w; queued_scan := None |}
    | FileStable _ w | FileUnstable w =>
        {| queued_waits := w;
           queued_scan :=
             Some (scan_file_internal h s (guarded (realtime_callback s))
                     path ff yara) |}
    end.

(** One regular file of the directory walk of [monitor_loop]: the snapshot
    is updated and, with a callback stored, a scan is requested: with the
    callback itself for a new file, with the guarded lambda for a modified
    one. *)
Definition poll_entry (cb : ResultCallback)
    (acc : gmap string Z * list (string * ResultCallback))
    (entry : string * Z) : gmap string Z * list (string * ResultCallback) :=
  let '(seen, scans) := acc in
  let '(p, mtime) := entry in
  match seen !! p with
  | None =>
      (<[p := mtime]> seen,
       if callback_is_set cb then scans ++ [(p, cb)] else scans)
  | Some old =>
      if mtime =? old then (seen, scans)
      else (<[p := mtime]> seen,
            if callback_is_set cb then scans ++ [(p, guarded cb)] else scans)
  end.

(** One period of the polling loop: the walk over [listing] (regular files
    with their modification times), then the removal of the snapshot
    entries whose path no longer exists. *)
Definition poll_iteration (cb : ResultCallback) (listing : list (string * Z))
    (still_exists : string -> bool) (seen : gmap string Z)
  : gmap string Z * list (string * ResultCallback) :=
  let '(seen1, scans) := fold_left (poll_entry cb) listing (seen, []) in
  (filter (fun kv => still_exists (fst kv) = true) seen1, scans).

(** The allow-list test at the end of [windows_is_trusted_publisher], on
    the signer's display name. *)
Definition trusted_substrings : list string :=
  [ "microsoft"; "google"; "apple"; "intel"; "amazon" ].

Definition signer_trusted (signer_name : string) : bool :=
  let lowered := string_map tolower signer_name in
  existsb (fun s => negb (String.eqb s "") && string_contains s lowered)
    trusted_substrings.

(** [get_progress_counts]: both counters clamped to [INT32_MAX]. *)
Definition get_progress_counts (s : YaraScanner) : Z * Z :=
  let clamp (v : Z) := if INT_MAX <? v then INT_MAX else static_cast_int v in
  (clamp (completed_count s), clamp (total_count s)).

(** ** Calls on the monitor *)

(** What can happen to a monitor between two observations: a call of
    [start_realtime], a call of [stop_realtime], or activity of its threads,
    which exist only while it runs. *)
Inductive LifecycleCall :=
| CallStart (spawn_worker spawn_watcher : bool) (callback : ResultCallback)
| CallStop (joined : list ThreadStep)
| Background (steps : list ThreadStep).

Definition lifecycle_call (s : YaraScanner) (c : LifecycleCall) : YaraScanner :=
  match c with
  | CallStart spawn_worker spawn_watcher callback =>
      snd (start_realtime spawn_worker spawn_watcher callback s)
  | CallStop joined => stop_realtime joined s
  | Background steps =>
      if MonitorState_eqb (monitor_state s) Running then run_threads steps s
      else s
  end.

(** What holds of a monitor between calls. *)
Definition lifecycle_ok (s : YaraScanner) : Prop :=
  (monitor_state s = Stopped \/ monitor_state s = Running) /\
  (monitoring s = true <-> monitor_state s = Running) /\
  (monitor_thread s = true <-> monitor_state s = Running) /\
  (monitor_worker_thread s = true <-> monitor_state s = Running) /\
  (monitor_state s = Running -> callbacks_enabled s = true) /\
  (monitor_state s = Stopped -> path_queue s = [] /\ last_event_time s = ∅).

(** ** Reading queues and exits *)

(** The exits that count the file as completed. *)
Definition skip_exit (e : ScanExit) : bool :=
  match e with
  | ExitExcluded | ExitOversized | ExitTrustedPublisher | ExitWhitelisted => true
  | _ => false
  end.

(** The paths of [l] in the order of their first occurrence. *)
Definition first_occurrences (l : list string) : list string :=
  reverse (remove_dups (reverse l)).

(** The time of the last event for [p]. *)
Definition last_time_of (p : string) (events : list (string * Z)) : option Z :=
  last (omap (fun ev => if String.eqb (fst ev) p then Some (snd ev) else None)
          events).

Definition nonempty_paths (events : list (string * Z)) : list string :=
  List.filter (fun p => negb (String.eqb p "")) (map fst events).

Definition is_lower_hex (c : ascii) : bool :=
  let n := nat_of_ascii c in
  ((48 <=? n) && (n <=? 57) || (97 <=? n) && (n <=? 102))%nat.

Definition is_upper (c : ascii) : bool :=
  let n := nat_of_ascii c in ((65 <=? n) && (n <=? 90))%nat.

(** A quarantine row is at least as old as another. *)
Definition older (a b : QuarantineManager.Row) : Prop :=
  QuarantineManager.quarantined_at a <= QuarantineManager.quarantined_at b.

(** ** More concrete inputs *)

(** A 600 MiB file. *)
Definition huge_file : FileFacts :=
  {| fs_exists := true; fs_is_regular_file := true;
     fs_file_size := 600 * 1024 * 1024;
     fs_filename := "image.iso"; trusted_publisher := false;
     md5_opt := Some "0f"; sha1_opt := Some "1e"; sha256_opt := Some "2d";
     read_prefix_suffix := true |}.

(** A file whose size is 10 at every look, and one that grows by one byte
    between looks. *)
Definition steady_reads (i : nat) : option Z := Some 10.
Definition growing_reads (i : nat) : option Z := Some (Z.of_nat i).

(** A 100 MiB file whose segments cannot be read, as an entry of a folder
    walk. *)
Definition unreadable_entry : FolderEntry :=
  {| entry_path := "C:\data\locked.bin";
     entry_facts :=
       {| fs_exists := true; fs_is_regular_file := true;
          fs_file_size := 100 * 1024 * 1024;
          fs_filename := "locked.bin"; trusted_publisher := false;
          md5_opt := None; sha1_opt := None; sha256_opt := None;
          read_prefix_suffix := false |};
     entry_yara := no_match_run; entry_work_ms := 100 |}.

(** The answers of [sys0 true], except that every [fs::remove] throws (a
    file that is open elsewhere, a directory without write permission). *)
Definition sys_locked : QuarantineManager.Sys :=
  {| QuarantineManager.sqlite3_open_ok := true;
     QuarantineManager.create_directories_ok := true;
     QuarantineManager.space_available := 1000000000;
     QuarantineManager.epoch_ms := 1700000000000;
     QuarantineManager.random_u64 := 48879;
     QuarantineManager.insert_step_done := true;
     QuarantineManager.delete_step_done := true;
     QuarantineManager.update_step_done := true;
     QuarantineManager.datetime_now := 20;
     QuarantineManager.sqlite3_errmsg := "";
     QuarantineManager.exception_what := "Permission denied";
     QuarantineManager.open_for_write_ok := fun _ => true;
     QuarantineManager.write_limit := fun _ => None;
     QuarantineManager.remove_ok := fun _ => false |}.

(** The store of [store0] with the SHA-1 of the empty file whitelisted,
    and an engine on it. *)
Definition store_whitelisting : SigStore :=
  {| sig_md5 := sig_md5 store0; sig_sha1 := sig_sha1 store0;
     sig_sha256 := sig_sha256 store0;
     whitelist := {[ (empty_sha1, "sha1") ]} |}.

Definition engine_whitelisting : YaraScanner :=
  {| rules := true; db := store_whitelisting; initialized := true;
     monitor_thread := false; monitor_worker_thread := false;
     monitor_state := Stopped; monitoring := false;
     callbacks_enabled := false; realtime_callback := NullCallback;
     total_count := 0; completed_count := 0;
     throttle_duty_cycle := 0.5%float; throttle_max_sleep_ms := 500;
     full_scan_override := false;
     path_queue := []; last_event_time := ∅ |}.

(** * Properties *)

(** ** Integers and progress *)

Lemma static_cast_int_id (z : Z) :
  INT_MIN <= z <= INT_MAX -> static_cast_int z = z.
Proof.
  unfold INT_MIN, INT_MAX, static_cast_int. intros Hz.
  rewrite Z.mod_small; lia.
Qed.

Lemma wrap64_id (z : Z) : is_u64 z -> wrap64 z = z.
Proof. unfold is_u64, wrap64. intros Hz. now apply Z.mod_small. Qed.

(** While [100 * completed] still fits in 64 bits the percentage is the
    clamped quotient. *)
Lemma get_progress_percent_no_wrap (s : YaraScanner) :
  0 < total_count s -> 0 <= completed_count s ->
  completed_count s * 100 < UINT64_MOD ->
  get_progress_percent s
  = Z.min 100 (100 * completed_count s / total_count s).
Proof.
  intros Ht Hc Hfit. unfold get_progress_percent.
  destruct (Z.eqb_spec (total_count s) 0) as [E | _]; [lia |].
  rewrite wrap64_id by (unfold is_u64; lia).
  replace (100 * completed_count s) with (completed_count s * 100) by lia.
  assert (0 <= completed_count s * 100 / total_count s)
    by (apply Z.div_pos; lia).
  destruct (Z.ltb_spec 100 (completed_count s * 100 / total_count s)).
  - rewrite Z.min_l by lia. reflexivity.
  - rewrite Z.min_r by lia.
    apply static_cast_int_id. unfold INT_MIN, INT_MAX. lia.
Qed.

Lemma get_progress_percent_unknown_total (s : YaraScanner) :
  total_count s = 0 -> 0 <= completed_count s ->
  get_progress_percent s
  = if completed_count s =? 0 then 0 else Z.min (completed_count s) 99.
Proof.
  intros Ht Hc. unfold get_progress_percent. rewrite Ht. simpl.
  destruct (Z.eqb_spec (completed_count s) 0); [reflexivity |].
  rewrite Z.min_comm. apply static_cast_int_id. unfold INT_MIN, INT_MAX. lia.
Qed.

(** The counter after [k] completed files since it was last reset: the
    code only stores 0 into [completed_count] or adds 1 to it. *)
Lemma completed_count_after (k : nat) (t : Z) (s : YaraScanner) :
  Z.of_nat k < UINT64_MOD ->
  completed_count (Nat.iter k completed_fetch_add (with_counts t 0 s))
  = Z.of_nat k.
Proof.
  induction k as [| k IH]; intros Hk; [reflexivity |].
  rewrite Nat.iter_succ. unfold completed_fetch_add at 1.
  cbn [completed_count with_counts]. rewrite IH by lia. rewrite wrap64_id by (unfold is_u64; lia). lia.
Qed.

(** C9.  While [100 * completed] fits in 64 bits, that is for fewer than
    184467440737095517 files counted since the last reset,
    [get_progress_percent] returns [floor(100 * completed / total)]
    clamped to [0, 100] when [total > 0], [min(completed, 99)] when
    [total = 0] and [completed > 0], and 0 otherwise. *)
Theorem get_progress_percent_spec (s : YaraScanner) :
  0 <= total_count s -> 0 <= completed_count s ->
  completed_count s * 100 < UINT64_MOD ->
  get_progress_percent s
  = if 0 <? total_count s
    then Z.max 0 (Z.min 100 (100 * completed_count s / total_count s))
    else if 0 <? completed_count s then Z.min (completed_count s) 99
    else 0.
Proof.
  intros Ht Hc Hfit.
  destruct (Z.ltb_spec 0 (total_count s)) as [Hpos | Hzero].
  - rewrite get_progress_percent_no_wrap by assumption.
    assert (0 <= 100 * completed_count s / total_count s)
      by (apply Z.div_pos; lia).
    lia.
  - rewrite get_progress_percent_unknown_total by lia.
    destruct (Z.eqb_spec (completed_count s) 0) as [-> | Hne]; [reflexivity |].
    destruct (Z.ltb_spec 0 (completed_count s)); [reflexivity | lia].
Qed.

Lemma get_progress_percent_spec_witness :
  get_progress_percent (with_counts 3 2 engine0) = 66 /\
  get_progress_percent (with_counts 0 250 engine0) = 99 /\
  completed_count
    (Nat.iter 2 completed_fetch_add (with_counts 3 0 engine0)) * 100
    < UINT64_MOD.
Proof.
  split; [| split].
  - rewrite (get_progress_percent_spec (with_counts 3 2 engine0));
      [reflexivity | simpl; lia | simpl; lia | unfold UINT64_MOD; simpl; lia].
  - rewrite (get_progress_percent_spec (with_counts 0 250 engine0));
      [reflexivity | simpl; lia | simpl; lia | unfold UINT64_MOD; simpl; lia].
  - rewrite completed_count_after; unfold UINT64_MOD; simpl; lia.
Defined.

(** Beyond that range the product [c * 100] wraps: a counter of
    184467440737095517 against a total of 1 reads 84. *)
Example get_progress_percent_wraps :
  is_u64 184467440737095517 /\
  get_progress_percent (with_counts 1 184467440737095517 engine0) = 84 /\
  Z.min 100 (100 * 184467440737095517 / 1) = 100.
Proof. repeat split; try reflexivity; unfold is_u64, UINT64_MOD; lia. Qed.

(** ** Throttling *)

Lemma throttle_after_work_zero_duty (w M mw : Z) :
  throttle_after_work w 0 M mw = 0.
Proof. unfold throttle_after_work. destruct (w <? mw); reflexivity. Qed.

(** [set_throttle_duty d] with [d <= 0.0] or [d >= 1.0] stores the duty
    cycle 0.0, whatever was stored before, and [get_throttle_settings]
    reports it with the sleep cap untouched. *)
Lemma set_throttle_duty_stores_zero (d : float) (s : YaraScanner) :
  PrimFloat.leb d 0 = true \/ PrimFloat.leb 1 d = true ->
  get_throttle_settings (set_throttle_duty d s)
    = (0%float, throttle_max_sleep_ms s).
Proof.
  intros Hd.
  assert (E : PrimFloat.leb d 0 || PrimFloat.leb 1 d = true)
    by (destruct Hd as [-> | ->]; [reflexivity | apply orb_true_r]).
  unfold set_throttle_duty, get_throttle_settings. now rewrite E.
Qed.

(** C10 (the code departs from the claim).  [set_throttle_duty(1.5)] and
    [set_throttle_duty(-1.0)] store the duty cycle 0.0, which
    [get_throttle_settings] reports and for which [throttle_after_work]
    would not sleep; but the folder scan that follows is throttled as
    before: [scan_folder] passes the literal 0.5, not the stored duty, and
    sleeps 100 ms after a file that took 100 ms. *)
Theorem set_throttle_duty_does_not_disable_throttling :
  get_throttle_settings (set_throttle_duty 1.5 engine_clean) = (0%float, 500) /\
  get_throttle_settings (set_throttle_duty (-1) engine_clean) = (0%float, 500) /\
  throttle_after_work 100 0 500 2 = 0 /\
  sleeps (snd (scan_folder host0 (set_throttle_duty 1.5 engine_clean)
                 (UserCallback 1) true [slow_entry])) = [100] /\
  sleeps (snd (scan_folder host0 (set_throttle_duty (-1) engine_clean)
                 (UserCallback 1) true [slow_entry])) = [100].
Proof. repeat split; vm_compute; reflexivity. Qed.

(** A duty cycle inside (0, 1) is stored as given. *)
Lemma set_throttle_duty_in_range (d : float) (s : YaraScanner) :
  PrimFloat.leb d 0 = false -> PrimFloat.leb 1 d = false ->
  get_throttle_settings (set_throttle_duty d s) = (d, throttle_max_sleep_ms s).
Proof.
  intros H0 H1. unfold set_throttle_duty, get_throttle_settings.
  rewrite H0, H1. reflexivity.
Qed.

(** C8 (the code departs from the claim).  After [set_throttle_duty(0.25)]
    and [set_throttle_max_sleep_ms(1000)] the stored settings are
    (0.25, 1000), for which the formula gives a sleep of 300 ms after
    100 ms of work; [scan_folder] passes the literals 0.5 and 500 instead
    and sleeps 100 ms. *)
Theorem scan_folder_uses_fixed_throttle :
  get_throttle_settings engine_throttled = (0.25%float, 1000) /\
  throttle_after_work 100 0.25 1000 2 = 300 /\
  sleeps (snd (scan_folder host0 engine_throttled (UserCallback 1) true
                 [slow_entry])) = [100].
Proof. repeat split; vm_compute; reflexivity. Qed.

(** ** The monitor lifecycle *)

Lemma MonitorState_eqb_eq (a b : MonitorState) :
  MonitorState_eqb a b = true <-> a = b.
Proof. destruct a, b; simpl; split; congruence. Qed.

(** C4.  [start_realtime] on a monitor that is not [Stopped] answers
    [false] and leaves the whole engine as it was; [stop_realtime] on a
    [Running] monitor ends, whatever the two threads still did before they
    were joined, with [monitor_state = Stopped], an empty [path_queue], an
    empty last-seen map and [callbacks_enabled = false]. *)
Theorem realtime_lifecycle (spawn_worker spawn_watcher : bool)
    (callback : ResultCallback) (joined : list ThreadStep) (s : YaraScanner) :
  (monitor_state s <> Stopped ->
     start_realtime spawn_worker spawn_watcher callback s = (false, s)) /\
  (monitor_state s = Running ->
     let s' := stop_realtime joined s in
     monitor_state s' = Stopped /\ path_queue s' = [] /\
     last_event_time s' = ∅ /\ callbacks_enabled s' = false).
Proof.
  split.
  - intros Hne. unfold start_realtime.
    destruct (MonitorState_eqb (monitor_state s) Stopped) eqn:E; [| reflexivity].
    apply MonitorState_eqb_eq in E. contradiction.
  - intros Hrun. unfold stop_realtime. rewrite Hrun. simpl.
    repeat split; try reflexivity.
    set (stopping := with_monitor _ _ Stopping false false NullCallback s).
    assert (Hinv : forall steps t,
               callbacks_enabled t = false ->
               callbacks_enabled (run_threads steps t) = false).
    { clear. induction steps as [| st steps IH]; intros t Ht; [exact Ht |].
      simpl. apply IH. destruct st; simpl; try exact Ht.
      - unfold enqueue_path_for_scan.
        destruct (String.eqb path ""); [exact Ht |].
        destruct (last_event_time t !! path); exact Ht.
      - unfold pop_queued_path. destruct (path_queue t); exact Ht. }
    apply Hinv. reflexivity.
Qed.

Lemma realtime_lifecycle_witness :
  start_realtime true true (UserCallback 2) engine_running
    = (false, engine_running) /\
  (let s' := stop_realtime [WatcherEnqueue "C:\in\c.exe" 9; WorkerPop]
               engine_running in
   monitor_state s' = Stopped /\ path_queue s' = [] /\
   last_event_time s' = ∅ /\ callbacks_enabled s' = false).
Proof.
  destruct (realtime_lifecycle true true (UserCallback 2)
              [WatcherEnqueue "C:\in\c.exe" 9; WorkerPop] engine_running)
    as [Hstart Hstop].
  split.
  - apply Hstart. vm_compute. discriminate.
  - apply Hstop. vm_compute. reflexivity.
Defined.

(** ** The event queue *)

Lemma existsb_eqb_elem_of (path : string) (q : list string) :
  existsb (String.eqb path) q = true <-> path ∈ q.
Proof.
  rewrite existsb_exists, list_elem_of_In. split.
  - intros [x [Hin Heq]]. apply String.eqb_eq in Heq. now subst.
  - intros Hin. exists path. split; [exact Hin | apply String.eqb_refl].
Qed.

Lemma seen_after_insert (m : gmap string Z) (path : string) (now : Z)
    (q : list string) :
  Forall (fun p => is_Some (m !! p)) q ->
  Forall (fun p => is_Some (<[path := now]> m !! p)) q.
Proof.
  intros Hseen. eapply Forall_impl; [exact Hseen |]. intros p Hp.
  destruct (decide (path = p)) as [-> | Hne].
  - rewrite lookup_insert_eq. eauto.
  - now rewrite lookup_insert_ne.
Qed.

Lemma queue_ok_push (m : gmap string Z) (path : string) (now : Z)
    (q : list string) :
  NoDup q -> Forall (fun p => is_Some (m !! p)) q -> path ∉ q ->
  NoDup (q ++ [path]) /\
  Forall (fun p => is_Some (<[path := now]> m !! p)) (q ++ [path]).
Proof.
  intros Hnd Hseen Hfresh. split.
  - apply NoDup_app. split; [exact Hnd |]. split.
    + intros x Hx Hx'. apply list_elem_of_singleton in Hx'. now subst.
    + apply NoDup_singleton.
  - apply Forall_app. split.
    + now apply seen_after_insert.
    + constructor; [| constructor]. rewrite lookup_insert_eq. eauto.
Qed.

Lemma enqueue_path_for_scan_ok (path : string) (now : Z) (s : YaraScanner) :
  queue_ok s -> queue_ok (enqueue_path_for_scan path now s).
Proof.
  intros [Hnd Hseen]. unfold enqueue_path_for_scan.
  destruct (String.eqb path ""); [now split |].
  destruct (last_event_time s !! path) as [t |] eqn:Hlook.
  - destruct (existsb (String.eqb path) (path_queue s)) eqn:Hq.
    + split; simpl; [exact Hnd | now apply seen_after_insert].
    + apply queue_ok_push; try assumption.
      intros Hin. apply existsb_eqb_elem_of in Hin. congruence.
  - apply queue_ok_push; try assumption.
    intros Hin. rewrite Forall_forall in Hseen.
    destruct (Hseen path Hin) as [t Ht]. congruence.
Qed.

Lemma pop_queued_path_ok (s : YaraScanner) :
  queue_ok s -> queue_ok (snd (pop_queued_path s)).
Proof.
  intros [Hnd Hseen]. unfold pop_queued_path.
  destruct (path_queue s) as [| front rest] eqn:Hq; simpl.
  - unfold queue_ok. rewrite Hq. now split.
  - inversion Hnd; subst. inversion Hseen; subst. now split.
Qed.

(** Whatever the watcher and the worker do, the invariants hold. *)
Lemma run_threads_ok (steps : list ThreadStep) (s : YaraScanner) :
  queue_ok s -> queue_ok (run_threads steps s).
Proof.
  revert s. induction steps as [| st steps IH]; intros s Hs; [exact Hs |].
  simpl. apply IH. destruct st; simpl.
  - now apply enqueue_path_for_scan_ok.
  - now apply pop_queued_path_ok.
  - exact Hs.
Qed.

Lemma enqueue_all_ok (events : list (string * Z)) (s : YaraScanner) :
  queue_ok s -> queue_ok (enqueue_all events s).
Proof.
  revert s. induction events as [| ev events IH]; intros s Hs; [exact Hs |].
  simpl. apply IH. now apply enqueue_path_for_scan_ok.
Qed.

(** C5.  Start from an empty event queue, let the watcher and the worker
    do anything ([steps]: enqueues, pops, scans; none for a fresh queue),
    then perform any sequence of enqueues: no path occurs more than once in
    [path_queue], and every queued path has an entry in the last-seen
    map. *)
Theorem enqueue_keeps_queue_invariants (steps : list ThreadStep)
    (events : list (string * Z)) (s : YaraScanner) :
  queue_unique (enqueue_all events (run_threads steps (with_queue [] ∅ s))) /\
  queue_in_map (enqueue_all events (run_threads steps (with_queue [] ∅ s))).
Proof.
  destruct (enqueue_all_ok events (run_threads steps (with_queue [] ∅ s)))
    as [Hnd Hseen].
  - apply run_threads_ok. split; simpl; [apply NoDup_nil_2 | constructor].
  - split; [| exact Hseen].
    unfold queue_unique. intros p.
    apply NoDup_ListNoDup in Hnd.
    exact (proj1 (List.NoDup_count_occ string_dec _) Hnd p).
Qed.

(** ** Events of a scan *)

Lemma emitted_app (a b : list Event) : emitted (a ++ b) = emitted a ++ emitted b.
Proof. apply omap_app. Qed.

Lemma content_scans_app (a b : list Event) :
  content_scans (a ++ b) = content_scans a ++ content_scans b.
Proof. apply omap_app. Qed.

Lemma signature_queries_app (a b : list Event) :
  signature_queries (a ++ b) = signature_queries a ++ signature_queries b.
Proof. apply omap_app. Qed.

Lemma sleeps_app (a b : list Event) : sleeps (a ++ b) = sleeps a ++ sleeps b.
Proof. apply omap_app. Qed.

Lemma call_callback_ready (h : Host) (s : YaraScanner) (cb : ResultCallback)
    (r : Result) :
  sink_ready h s cb = true ->
  call_callback_if_python_ready h s cb r false = [EvEmit r].
Proof.
  unfold call_callback_if_python_ready, sink_ready, invoke_callback.
  destruct cb as [| id | id]; simpl; [discriminate | |].
  - now intros ->.
  - intros H. apply andb_true_iff in H as [-> ->]. reflexivity.
Qed.

Lemma invoke_callback_only_emits (h : Host) (s : YaraScanner)
    (cb : ResultCallback) (r : Result) (e : Event) :
  In e (invoke_callback h s cb r) -> e = EvEmit r.
Proof.
  unfold invoke_callback. destruct cb; [intros [] | |].
  - intros [<- | []]. reflexivity.
  - destruct (negb (callbacks_enabled s)); [intros [] |].
    destruct (negb (Py_IsInitialized h)); [intros [] |].
    intros [<- | []]. reflexivity.
Qed.

Lemma call_callback_only_emits (h : Host) (s : YaraScanner) (cb : ResultCallback)
    (r : Result) (owner : bool) (e : Event) :
  In e (call_callback_if_python_ready h s cb r owner) -> e = EvEmit r.
Proof.
  unfold call_callback_if_python_ready.
  destruct (negb (callback_is_set cb)); [intros [] |].
  destruct (owner && negb (callbacks_enabled s)); [intros [] |].
  destruct (negb (Py_IsInitialized h)); [intros [] |].
  apply invoke_callback_only_emits.
Qed.

(** What the stages after the gate can put on the trace, for any class [P]
    of events that contains emissions, content scans and signature
    lookups. *)
Section EventClasses.

Variable P : Event -> bool.
Hypothesis P_emit : forall r, P (EvEmit r) = true.
Hypothesis P_yara : forall m, P (EvYaraScan m) = true.
Hypothesis P_sig : forall type hex, P (EvSigQuery type hex) = true.
Hypothesis P_white : forall hex type, P (EvWhitelistQuery hex type) = true.

Lemma forallb_of_In (l : list Event) :
  (forall e, In e l -> P e = true) -> forallb P l = true.
Proof. intros H. apply forallb_forall. exact H. Qed.

Lemma call_callback_class h s cb r owner :
  forallb P (call_callback_if_python_ready h s cb r owner) = true.
Proof.
  apply forallb_of_In. intros e He.
  apply call_callback_only_emits in He. subst e. apply P_emit.
Qed.

Lemma invoke_callback_class h s cb r :
  forallb P (invoke_callback h s cb r) = true.
Proof.
  apply forallb_of_In. intros e He.
  apply invoke_callback_only_emits in He. subst e. apply P_emit.
Qed.

Lemma yr_rules_scan_class h s ctx messages :
  forallb P (snd (yr_rules_scan h s ctx messages)) = true.
Proof.
  revert ctx. induction messages as [| m rest IH]; intros ctx; [reflexivity |].
  simpl. destruct (rule_match_callback h s ctx m) as [ctx1 ev1] eqn:Hm.
  specialize (IH ctx1). destruct (yr_rules_scan h s ctx1 rest) as [ctx2 ev2].
  simpl in *. rewrite forallb_app, IH, andb_true_r.
  unfold rule_match_callback in Hm.
  destruct m; try (inversion Hm; reflexivity).
  destruct (ctx_matched_rules ctx); inversion Hm; [reflexivity |].
  apply call_callback_class.
Qed.

Lemma content_scan_class h s cb path ff yara :
  forallb P (snd (content_scan h s cb path ff yara)) = true.
Proof.
  unfold content_scan.
  destruct (negb (rules s)); [reflexivity |].
  destruct (fs_file_size ff <=? PARTIAL_FILE_MIN).
  - pose proof (yr_rules_scan_class h s (new_context cb ff path)
                  (yr_messages yara)) as Hy.
    destruct (yr_rules_scan _ _ _ _) as [c ev]. simpl in *.
    rewrite P_yara, forallb_app, Hy. simpl.
    destruct (negb (yr_rc yara =? 0)); [apply call_callback_class | reflexivity].
  - destruct (_ && _); [| reflexivity].
    destruct (negb (read_prefix_suffix ff)).
    { destruct (callback_is_set cb); [apply invoke_callback_class | reflexivity]. }
    pose proof (yr_rules_scan_class h s (new_context cb ff path)
                  (yr_messages yara)) as Hy.
    destruct (yr_rules_scan _ _ _ _) as [c ev]. simpl in *.
    rewrite P_yara, forallb_app, Hy. simpl.
    destruct (negb (yr_rc yara =? 0)); [apply call_callback_class | reflexivity].
Qed.

Lemma signature_check_class db probes :
  forallb P (snd (signature_check db probes)) = true.
Proof.
  induction probes as [| [[hex |] type] rest IH]; simpl;
    [reflexivity | | exact IH].
  destruct (check_hash_in_db db hex type).
  - simpl. now rewrite P_sig.
  - destruct (signature_check db rest) as [hit ev]. simpl in *.
    now rewrite P_sig.
Qed.

Lemma whitelist_check_class db probes :
  forallb P (snd (whitelist_check db probes)) = true.
Proof.
  induction probes as [| [[hex |] type] rest IH]; simpl;
    [reflexivity | | exact IH].
  destruct (check_hash_whitelist db hex type).
  - simpl. now rewrite P_white.
  - destruct (whitelist_check db rest) as [hit ev]. simpl in *.
    now rewrite P_white.
Qed.

End EventClasses.

Lemma whitelist_check_quiet (db : SigStore) (probes : list (option string * string)) :
  emitted (snd (whitelist_check db probes)) = [] /\
  content_scans (snd (whitelist_check db probes)) = [] /\
  signature_queries (snd (whitelist_check db probes)) = [].
Proof.
  induction probes as [| [[hex |] type] rest IH]; simpl;
    [now repeat split | | exact IH].
  destruct (check_hash_whitelist db hex type); [now repeat split |].
  destruct (whitelist_check db rest) as [hit ev]. exact IH.
Qed.

Ltac solve_sublist :=
  repeat first [apply sublist_skip | apply sublist_cons]; apply sublist_nil.

(** The three lookups of the code answer what the specification's
    precedence answers, and are issued in that order. *)
Lemma signature_check_three (db : SigStore) (ff : FileFacts) :
  let r := signature_check db
             [ (sha256_opt ff, "SHA256"); (sha1_opt ff, "SHA1"); (md5_opt ff, "MD5") ] in
  fst r = first_signature_hit db ff /\
  emitted (snd r) = [] /\ content_scans (snd r) = [] /\
  signature_queries (snd r) `sublist_of` ["SHA256"; "SHA1"; "MD5"] /\
  (forall type hex name, fst r = Some (type, hex, name) ->
     last (signature_queries (snd r)) = Some type).
Proof.
  unfold first_signature_hit. cbn [signature_check].
  destruct (sha256_opt ff) as [h256 |];
    [destruct (check_hash_in_db db h256 "SHA256") |];
    (destruct (sha1_opt ff) as [h1 |];
       [destruct (check_hash_in_db db h1 "SHA1") |]);
    (destruct (md5_opt ff) as [h5 |];
       [destruct (check_hash_in_db db h5 "MD5") |]);
    simpl;
    (repeat split; [solve_sublist | intros type hex name Hhit; now inversion Hhit]).
Qed.

(** ** Signature lookups *)

(** C1.  Take a scan that computes the digests and is not skipped by the
    whitelist, with a sink that is ready.  If the first hit in the order
    SHA-256, SHA-1, MD5 is [(type, hex, name)], the scan emits exactly one
    result,
    with [is_malware = true], severity [High], source [HASH],
    [hash_type = type], the matched hash, the store's malware name and the
    description [Matched <type> in DB]; it runs no content scan; its
    signature lookups are issued in the order SHA-256, SHA-1, MD5 and end
    with the matched type; and the type is [SHA256] whenever the file's
    SHA-256 is in the store. *)
Theorem signature_hit_precedence (h : Host) (s : YaraScanner)
    (cb : ResultCallback) (path : string) (ff : FileFacts) (yara : YaraRun)
    (type hex name : string) :
  let o := scan_file_internal h s cb path ff yara in
  In EvHashes (out_events o) ->
  out_exit o <> ExitWhitelisted ->
  sink_ready h s cb = true ->
  first_signature_hit (db s) ff = Some (type, hex, name) ->
  (exists r, emitted (out_events o) = [r] /\
     isMalware r = true /\ severity r = "High" /\
     detection_source r = "HASH" /\ hash_type r = type /\ hash r = hex /\
     malware_name r = name /\ desc r = "Matched " +:+ type +:+ " in DB") /\
  out_exit o = ExitHashMatch /\
  content_scans (out_events o) = [] /\
  signature_queries (out_events o) `sublist_of` ["SHA256"; "SHA1"; "MD5"] /\
  last (signature_queries (out_events o)) = Some type /\
  (forall hex256, sha256_opt ff = Some hex256 ->
     is_Some (sig_sha256 (db s) !! hex256) -> type = "SHA256").
Proof.
  intros o Hhashed Hnotwhite Hready Hhit. subst o.
  unfold scan_file_internal in *.
  destruct (negb (initialized s)); [destruct Hhashed |].
  destruct (existsb _ excluded_keywords); [destruct Hhashed |].
  destruct (negb (fs_exists ff) || negb (fs_is_regular_file ff));
    [destruct Hhashed |].
  destruct (_ && negb (full_scan_override s)).
  { simpl in Hhashed. destruct (callback_is_set cb); [| destruct Hhashed].
    apply call_callback_only_emits in Hhashed. discriminate. }
  destruct (negb (full_scan_override s) && trusted_publisher ff).
  { simpl in Hhashed. destruct Hhashed as [Hbad | Hhashed]; [discriminate |].
    destruct (callback_is_set cb); [| destruct Hhashed].
    apply call_callback_only_emits in Hhashed. discriminate. }
  clear Hhashed. simpl in *. unfold locked_scan in *.
  pose proof (signature_check_three (db s) ff) as (Hs0 & Hs1 & Hs2 & Hs3 & Hs4).
  cbv zeta in Hs0, Hs1, Hs2, Hs3, Hs4.
  destruct (signature_check (db s) _) as [hit ev_sig].
  simpl in Hs0, Hs1, Hs2, Hs3, Hs4. rewrite Hhit in Hs0. subst hit.
  specialize (Hs4 _ _ _ eq_refl).
  assert (Hquiet : exists white ev_white,
    (if negb (full_scan_override s)
     then whitelist_check (db s)
            [ (sha256_opt ff, "sha256"); (sha1_opt ff, "sha1"); (md5_opt ff, "md5") ]
     else (false, [])) = (white, ev_white) /\
    emitted ev_white = [] /\ content_scans ev_white = [] /\
    signature_queries ev_white = []).
  { destruct (negb (full_scan_override s)).
    - pose proof (whitelist_check_quiet (db s)
        [ (sha256_opt ff, "sha256"); (sha1_opt ff, "sha1"); (md5_opt ff, "md5") ])
        as Hw.
      destruct (whitelist_check (db s) _) as [w e]. now exists w, e.
    - now exists false, []. }
  destruct Hquiet as (white & ev_white & Heq & He1 & He2 & He3).
  rewrite Heq in *. destruct white; [now simpl in Hnotwhite |].
  simpl.
  rewrite (call_callback_ready _ _ _ _ Hready).
  set (pre := if negb (full_scan_override s) then [EvTrustCheck] else []).
  assert (Hp : emitted pre = [] /\ content_scans pre = [] /\
               signature_queries pre = [])
    by (subst pre; destruct (negb (full_scan_override s)); now repeat split).
  destruct Hp as (Hp1 & Hp2 & Hp3).
  change (EvHashes :: ev_white ++ ev_sig ++ [EvEmit (hash_result h ff path type hex name)])
    with ([EvHashes] ++ ev_white ++ ev_sig ++ [EvEmit (hash_result h ff path type hex name)]).
  rewrite !emitted_app, !content_scans_app, !signature_queries_app.
  rewrite Hp1, Hp2, Hp3, He1, He2, He3, Hs1, Hs2. simpl.
  rewrite app_nil_r.
  split; [eexists; split; [reflexivity | now repeat split] |].
  split; [reflexivity |].
  split; [reflexivity |]. split; [exact Hs3 |]. split; [exact Hs4 |].
  intros hex256 H256 [v Hv].
  unfold first_signature_hit in Hhit. rewrite H256 in Hhit.
  unfold check_hash_in_db in Hhit at 1. simpl in Hhit. rewrite Hv in Hhit.
  now inversion Hhit.
Qed.

Lemma signature_hit_precedence_witness :
  let o := scan_file_internal host0 engine0 (UserCallback 1)
             "C:\Users\u\eicar.com" empty_file no_match_run in
  emitted (out_events o)
    = [hash_result host0 empty_file "C:\Users\u\eicar.com" "SHA256"
         empty_sha256 "Test.EICAR"] /\
  content_scans (out_events o) = [] /\
  last (signature_queries (out_events o)) = Some "SHA256".
Proof.
  destruct (signature_hit_precedence host0 engine0 (UserCallback 1)
              "C:\Users\u\eicar.com" empty_file no_match_run
              "SHA256" empty_sha256 "Test.EICAR")
    as (_ & _ & Hscan & _ & Hlast & _).
  - vm_compute. right. left. reflexivity.
  - vm_compute. discriminate.
  - reflexivity.
  - vm_compute. reflexivity.
  - split; [vm_compute; reflexivity | split; [exact Hscan | exact Hlast]].
Defined.

(** ** Content scans *)

Lemma yr_rules_scan_app (h : Host) (s : YaraScanner) (ctx : ScanContext)
    (a b : list YrMessage) :
  yr_rules_scan h s ctx (a ++ b)
  = let '(ctx1, ev1) := yr_rules_scan h s ctx a in
    let '(ctx2, ev2) := yr_rules_scan h s ctx1 b in
    (ctx2, ev1 ++ ev2).
Proof.
  revert ctx. induction a as [| m a IH]; intros ctx; simpl.
  - now destruct (yr_rules_scan h s ctx b).
  - destruct (rule_match_callback h s ctx m) as [c1 e1]. rewrite IH.
    destruct (yr_rules_scan h s c1 a) as [c2 e2].
    destruct (yr_rules_scan h s c2 b) as [c3 e3].
    now rewrite app_assoc.
Qed.

(** Before [CALLBACK_MSG_SCAN_FINISHED] the callback only accumulates. *)
Lemma yr_rules_scan_body (h : Host) (s : YaraScanner) (ctx : ScanContext)
    (body : list YrMessage) :
  forallb (fun m => negb (is_scan_finished m)) body = true ->
  yr_rules_scan h s ctx body
  = (ctx_with_matches (ctx_matched_rules ctx ++ matched_identifiers body) ctx, []).
Proof.
  revert ctx. induction body as [| m body IH]; intros ctx Hbody; simpl.
  - destruct ctx. unfold ctx_with_matches. simpl. now rewrite app_nil_r.
  - simpl in Hbody. apply andb_true_iff in Hbody as [Hm Hbody].
    destruct m; simpl in *; try discriminate;
      rewrite (IH _ Hbody); simpl; try reflexivity.
    unfold ctx_with_matches. simpl. now rewrite <- app_assoc.
Qed.

(** A completed run over a fresh context emits nothing when no rule matched
    and one aggregated result otherwise. *)
Lemma yr_rules_scan_completed (h : Host) (s : YaraScanner) (cb : ResultCallback)
    (path : string) (ff : FileFacts) (body : list YrMessage) :
  forallb (fun m => negb (is_scan_finished m)) body = true ->
  snd (yr_rules_scan h s (new_context cb ff path)
         (body ++ [CALLBACK_MSG_SCAN_FINISHED]))
  = match matched_identifiers body with
    | [] => []
    | ids => call_callback_if_python_ready h s cb
               (yara_result h (new_context cb ff path) ids) false
    end.
Proof.
  intros Hbody. rewrite yr_rules_scan_app, (yr_rules_scan_body _ _ _ _ Hbody).
  simpl. destruct (matched_identifiers body) as [| id ids]; simpl;
    [reflexivity | rewrite app_nil_r; reflexivity].
Qed.

(** C3, as the code has it.  When a content scan runs to completion with
    the sink ready and N rules matched (N within [int]), it emits nothing
    for N = 0 and, for N >= 1, exactly one result with [is_malware = true],
    severity [Warning], source [YARA], [matched_rules_count = N], the N
    identifiers in match order, the digests computed before, and the
    description [Matched by N rule(s): r1, r2, ...] ([rule] for N = 1,
    [rules] otherwise). *)
Theorem content_scan_aggregates (h : Host) (s : YaraScanner)
    (cb : ResultCallback) (path : string) (ff : FileFacts) (yara : YaraRun)
    (body : list YrMessage) :
  rules s = true ->
  fs_file_size ff <= PARTIAL_FILE_MAX ->
  read_prefix_suffix ff = true ->
  completed_run yara body ->
  sink_ready h s cb = true ->
  Z.of_nat (length (matched_identifiers body)) <= INT_MAX ->
  let ids := matched_identifiers body in
  let N := Z.of_nat (length ids) in
  let results := emitted (snd (content_scan h s cb path ff yara)) in
  (N = 0 -> results = []) /\
  (1 <= N ->
   exists r, results = [r] /\
     isMalware r = true /\ severity r = "Warning" /\
     detection_source r = "YARA" /\
     matched_rules_count r = N /\ matched_rules r = ids /\
     md5 r = default "" (md5_opt ff) /\ sha1 r = default "" (sha1_opt ff) /\
     sha256 r = default "" (sha256_opt ff) /\
     desc r = "Matched by " +:+ to_string N +:+
              (if N =? 1 then " rule: " else " rules: ") +:+
              join_with ", " ids).
Proof.
  intros Hrules Hsize Hread (Hrc & Hmsgs & Hbody) Hready Hint ids N results.
  assert (Hres : results
                 = match ids with
                   | [] => []
                   | _ => [yara_result h (new_context cb ff path) ids]
                   end).
  { subst results. unfold content_scan. rewrite Hrules, Hread, Hrc, Hmsgs. simpl.
    pose proof (yr_rules_scan_completed h s cb path ff body Hbody) as Hscan.
    destruct (yr_rules_scan h s (new_context cb ff path)
                (body ++ [CALLBACK_MSG_SCAN_FINISHED])) as [c ev].
    simpl in Hscan. fold ids in Hscan.
    assert (Hev : emitted ev
                  = match ids with
                    | [] => []
                    | _ => [yara_result h (new_context cb ff path) ids]
                    end).
    { rewrite Hscan. destruct ids; [reflexivity |].
      now rewrite (call_callback_ready _ _ _ _ Hready). }
    destruct (fs_file_size ff <=? PARTIAL_FILE_MIN) eqn:Hsmall.
    - simpl. now rewrite app_nil_r.
    - apply Z.leb_gt in Hsmall.
      destruct (Z.ltb_spec PARTIAL_FILE_MIN (fs_file_size ff)); [| lia].
      destruct (Z.leb_spec (fs_file_size ff) PARTIAL_FILE_MAX); [| lia].
      simpl. now rewrite app_nil_r. }
  split.
  - intros HN. rewrite Hres. subst N. destruct ids; [reflexivity | discriminate].
  - intros HN. rewrite Hres. subst N.
    destruct ids as [| id rest] eqn:Hids; [simpl in HN; lia |].
    eexists. split; [reflexivity |]. rewrite <- Hids.
    unfold yara_result. simpl. repeat split.
    apply static_cast_int_id. subst ids. unfold INT_MIN. lia.
Qed.

Lemma content_scan_aggregates_witness :
  exists r,
    emitted (snd (content_scan host0 engine_clean (UserCallback 1)
                    "C:\data\big.bin" large_file two_rule_run)) = [r] /\
    matched_rules_count r = 2 /\ matched_rules r = ["R1"; "R2"] /\
    desc r = "Matched by 2 rules: R1, R2".
Proof.
  destruct (content_scan_aggregates host0 engine_clean (UserCallback 1)
              "C:\data\big.bin" large_file two_rule_run two_rule_body)
    as [_ Hsome].
  - reflexivity.
  - vm_compute. discriminate.
  - reflexivity.
  - repeat split.
  - reflexivity.
  - vm_compute. discriminate.
  - destruct Hsome as (r & Hr & _ & _ & _ & Hcount & Hrules & _ & _ & _ & Hdesc).
    + vm_compute. discriminate.
    + exists r. repeat split; assumption.
Defined.

(** C3 as worded fails on the description: for the two matches R1 and R2
    the emitted text is [Matched by 2 rules: R1, R2], not the
    [Matched 2 rules: R1, R2] of the specification. *)
Lemma yara_description_counterexample :
  map desc (emitted (out_events
      (scan_file_internal host0 engine_clean (UserCallback 1)
         "C:\data\big.bin" large_file two_rule_run)))
    = ["Matched by 2 rules: R1, R2"] /\
  spec_description ["R1"; "R2"] = "Matched 2 rules: R1, R2" /\
  map desc (emitted (out_events
      (scan_file_internal host0 engine_clean (UserCallback 1)
         "C:\data\big.bin" large_file two_rule_run)))
    <> [spec_description ["R1"; "R2"]].
Proof.
  split; [vm_compute; reflexivity |]. split; [vm_compute; reflexivity |].
  vm_compute. discriminate.
Qed.

(** ** The policy gate in full-scan mode *)

Lemma filter_none (f : Event -> bool) (l : list Event) :
  forallb (fun e => negb (f e)) l = true -> List.filter f l = [].
Proof.
  induction l as [| e l IH]; simpl; [reflexivity |].
  intros H. apply andb_true_iff in H as [He Hl].
  destruct (f e); [discriminate | now apply IH].
Qed.

Lemma content_scan_exit (h : Host) (s : YaraScanner) (cb : ResultCallback)
    (path : string) (ff : FileFacts) (yara : YaraRun) :
  In (fst (content_scan h s cb path ff yara))
     [ExitNoRules; ExitYaraFull; ExitReadFailed; ExitYaraPartial; ExitNoScan;
      ExitBadFunctionCall].
Proof.
  unfold content_scan.
  destruct (negb (rules s)); [simpl; tauto |].
  destruct (fs_file_size ff <=? PARTIAL_FILE_MIN).
  - destruct (yr_rules_scan _ _ _ _). simpl. tauto.
  - destruct (_ && _); [| simpl; tauto].
    destruct (negb (read_prefix_suffix ff));
      [destruct (callback_is_set cb); simpl; tauto |].
    destruct (yr_rules_scan _ _ _ _). simpl. tauto.
Qed.

(** With the override set, the locked phase is the signature lookups
    followed by the content scan; the whitelist is not consulted. *)
Lemma locked_scan_full_scan (h : Host) (s : YaraScanner) (cb : ResultCallback)
    (path : string) (ff : FileFacts) (yara : YaraRun) :
  full_scan_override s = true ->
  let o := locked_scan h s cb path ff yara in
  In (out_exit o)
     [ExitHashMatch; ExitNoRules; ExitYaraFull; ExitReadFailed;
      ExitYaraPartial; ExitNoScan; ExitBadFunctionCall] /\
  gate_checks (out_events o) = [].
Proof.
  intros Hfull. unfold locked_scan. rewrite Hfull.
  pose proof (signature_check_class (fun e => negb (gate_event e))
                (fun _ _ => eq_refl) (db s)
                [ (sha256_opt ff, "SHA256"); (sha1_opt ff, "SHA1");
                  (md5_opt ff, "MD5") ]) as Hsig.
  destruct (signature_check (db s) _) as [[[[type hex] name] |] ev_sig];
    simpl in *.
  - split; [now left |]. apply filter_none. simpl.
    rewrite forallb_app, Hsig. simpl.
    apply (call_callback_class (fun e => negb (gate_event e)) (fun _ => eq_refl)).
  - pose proof (content_scan_exit h s cb path ff yara) as Hexit.
    pose proof (content_scan_class (fun e => negb (gate_event e))
                  (fun _ => eq_refl) (fun _ => eq_refl) h s cb path ff yara)
      as Hcontent.
    destruct (content_scan h s cb path ff yara) as [exit ev_yara]. simpl in *.
    split; [tauto |]. apply filter_none. simpl.
    now rewrite forallb_app, Hsig, Hcontent.
Qed.

(** C6, as the code has it.  With [full_scan_override] set, the exclusion
    check and the nonexistent / non-regular-file check still decide the
    scan, while the oversized, trusted-publisher and whitelist checks are
    bypassed: the scan never leaves through them, never runs the publisher
    check and never queries the whitelist. *)
Theorem full_scan_gate (h : Host) (s : YaraScanner) (cb : ResultCallback)
    (path : string) (ff : FileFacts) (yara : YaraRun) :
  initialized s = true ->
  full_scan_override s = true ->
  let o := scan_file_internal h s cb path ff yara in
  (path_excluded path = true -> out_exit o = ExitExcluded) /\
  (path_excluded path = false ->
   fs_exists ff && fs_is_regular_file ff = false ->
   out_exit o = ExitNotRegularFile) /\
  out_exit o <> ExitOversized /\
  out_exit o <> ExitTrustedPublisher /\
  out_exit o <> ExitWhitelisted /\
  gate_checks (out_events o) = [].
Proof.
  intros Hinit Hfull o. subst o.
  pose proof (locked_scan_full_scan h s cb path ff yara Hfull) as [Hexit Hgate].
  cbv zeta in Hexit, Hgate.
  unfold scan_file_internal, path_excluded. rewrite Hinit, Hfull.
  set (excl := existsb _ excluded_keywords). clearbody excl.
  set (lo := locked_scan h s cb path ff yara) in *. clearbody lo.
  simpl. rewrite andb_false_r.
  destruct excl; simpl.
  { repeat split; intros; try discriminate; reflexivity. }
  destruct (fs_exists ff), (fs_is_regular_file ff); simpl;
    try (repeat split; intros; try discriminate; reflexivity).
  repeat split; intros; try discriminate; try exact Hgate;
    intros Heq; rewrite Heq in Hexit; simpl in Hexit;
    repeat (destruct Hexit as [Hexit | Hexit]; [discriminate |]);
    exact Hexit.
Qed.

Lemma full_scan_gate_witness :
  let o := scan_file_internal host0 (set_full_scan true engine0) (UserCallback 1)
             "C:\Users\u\eicar.com" missing_file no_match_run in
  out_exit o = ExitNotRegularFile /\ gate_checks (out_events o) = [].
Proof.
  destruct (full_scan_gate host0 (set_full_scan true engine0) (UserCallback 1)
              "C:\Users\u\eicar.com" missing_file no_match_run)
    as (_ & Hmissing & _ & _ & _ & Hgate).
  - reflexivity.
  - reflexivity.
  - split; [apply Hmissing; vm_compute; reflexivity | exact Hgate].
Defined.

(** C6 as worded fails on the nonexistent-file check: with the override
    set, a path that no longer exists is dropped by that check before any
    digest or lookup, although the same digests hit the signature store
    once the file exists. *)
Lemma full_scan_existence_counterexample :
  full_scan_override (set_full_scan true engine0) = true /\
  path_excluded "C:\Users\u\eicar.com" = false /\
  (let o := scan_file_internal host0 (set_full_scan true engine0)
              (UserCallback 1) "C:\Users\u\eicar.com" missing_file
              no_match_run in
   out_exit o = ExitNotRegularFile /\ out_events o = []) /\
  out_exit (scan_file_internal host0 (set_full_scan true engine0)
              (UserCallback 1) "C:\Users\u\eicar.com" empty_file no_match_run)
    = ExitHashMatch.
Proof.
  split; [reflexivity |]. split; [vm_compute; reflexivity |].
  split; [split; vm_compute; reflexivity | vm_compute; reflexivity].
Qed.

(** ** The throttle of a folder scan *)

Lemma sleeps_none (l : list Event) :
  forallb (fun e => negb (is_sleep e)) l = true -> sleeps l = [].
Proof.
  induction l as [| e l IH]; simpl; [reflexivity |].
  intros H. apply andb_true_iff in H as [He Hl].
  destruct e; simpl in *; try discriminate; now apply IH.
Qed.

Lemma locked_scan_no_sleep (h : Host) (s : YaraScanner) (cb : ResultCallback)
    (path : string) (ff : FileFacts) (yara : YaraRun) :
  forallb (fun e => negb (is_sleep e))
    (out_events (locked_scan h s cb path ff yara)) = true.
Proof.
  unfold locked_scan.
  set (P := fun e => negb (is_sleep e)).
  assert (Hwhite : forallb P
            (snd (if negb (full_scan_override s)
                  then whitelist_check (db s)
                         [ (sha256_opt ff, "sha256"); (sha1_opt ff, "sha1");
                           (md5_opt ff, "md5") ]
                  else (false, []))) = true).
  { destruct (negb (full_scan_override s)); [| reflexivity].
    apply (whitelist_check_class P). reflexivity. }
  destruct (if negb (full_scan_override s) then _ else _) as [white ev_white].
  simpl in Hwhite.
  destruct white; cbn [out_events].
  - simpl. rewrite forallb_app, Hwhite. simpl.
    apply (call_callback_class P). reflexivity.
  - pose proof (signature_check_class P (fun _ _ => eq_refl) (db s)
                  [ (sha256_opt ff, "SHA256"); (sha1_opt ff, "SHA1");
                    (md5_opt ff, "MD5") ]) as Hsig.
    destruct (signature_check (db s) _) as [[[[type hex] name] |] ev_sig];
      simpl in *.
    + rewrite !forallb_app, Hwhite, Hsig. simpl.
      apply (call_callback_class P). reflexivity.
    + pose proof (content_scan_class P (fun _ => eq_refl) (fun _ => eq_refl)
                    h s cb path ff yara) as Hcontent.
      destruct (content_scan h s cb path ff yara) as [exit ev_yara].
      simpl in *. now rewrite !forallb_app, Hwhite, Hsig, Hcontent.
Qed.

Lemma scan_file_internal_no_sleep (h : Host) (s : YaraScanner)
    (cb : ResultCallback) (path : string) (ff : FileFacts) (yara : YaraRun) :
  sleeps (out_events (scan_file_internal h s cb path ff yara)) = [].
Proof.
  apply sleeps_none. unfold scan_file_internal.
  pose proof (locked_scan_no_sleep h s cb path ff yara) as Hlocked.
  set (lo := locked_scan h s cb path ff yara) in *. clearbody lo.
  set (P := fun e => negb (is_sleep e)) in *.
  destruct (negb (initialized s)); [reflexivity |].
  destruct (existsb _ excluded_keywords); [reflexivity |].
  destruct (negb (fs_exists ff) || negb (fs_is_regular_file ff)); [reflexivity |].
  destruct (_ && negb (full_scan_override s)).
  { simpl. destruct (callback_is_set cb); [| reflexivity].
    apply (call_callback_class P). reflexivity. }
  destruct (negb (full_scan_override s) && trusted_publisher ff).
  { simpl. destruct (callback_is_set cb); [| reflexivity].
    apply (call_callback_class P). reflexivity. }
  simpl. rewrite forallb_app, Hlocked.
  destruct (negb (full_scan_override s)); reflexivity.
Qed.

(** With a callback that is set, no scan leaves by an exception. *)
Lemma content_scan_no_throw (h : Host) (s : YaraScanner) (cb : ResultCallback)
    (path : string) (ff : FileFacts) (yara : YaraRun) :
  callback_is_set cb = true ->
  exit_throws (fst (content_scan h s cb path ff yara)) = false.
Proof.
  intros Hcb. unfold content_scan. rewrite Hcb.
  destruct (negb (rules s)); [reflexivity |].
  destruct (fs_file_size ff <=? PARTIAL_FILE_MIN).
  - now destruct (yr_rules_scan _ _ _ _).
  - destruct (_ && _); [| reflexivity].
    destruct (negb (read_prefix_suffix ff)); [reflexivity |].
    now destruct (yr_rules_scan _ _ _ _).
Qed.

Lemma scan_file_internal_no_throw (h : Host) (s : YaraScanner)
    (cb : ResultCallback) (path : string) (ff : FileFacts) (yara : YaraRun) :
  callback_is_set cb = true ->
  exit_throws (out_exit (scan_file_internal h s cb path ff yara)) = false.
Proof.
  intros Hcb. unfold scan_file_internal, locked_scan.
  destruct (negb (initialized s)); [reflexivity |].
  destruct (existsb _ excluded_keywords); [reflexivity |].
  destruct (negb (fs_exists ff) || negb (fs_is_regular_file ff)); [reflexivity |].
  destruct (_ && negb (full_scan_override s)); [reflexivity |].
  destruct (negb (full_scan_override s) && trusted_publisher ff); [reflexivity |].
  destruct (if negb (full_scan_override s) then _ else _) as [[] ev_white];
    [reflexivity |].
  destruct (signature_check (db s) _) as [[[[type hex] name] |] ev_sig];
    [reflexivity |].
  pose proof (content_scan_no_throw h s cb path ff yara Hcb) as Hexit.
  now destruct (content_scan h s cb path ff yara).
Qed.

(** The sleeps of the scan loop are those of the literals 0.5 and 500,
    whatever the engine's throttle members hold. *)
Lemma scan_entries_sleeps (h : Host) (s : YaraScanner) (cb : ResultCallback)
    (entries : list FolderEntry) :
  callback_is_set cb = true ->
  sleeps (snd (scan_entries h s cb entries)) = omap entry_sleep entries.
Proof.
  intros Hcb. revert s.
  induction entries as [| e rest IH]; intros s; [reflexivity |].
  cbn [scan_entries].
  rewrite (scan_file_internal_no_throw h s cb _ _ _ Hcb).
  specialize (IH (completed_fetch_add
                    (out_scanner (scan_file_internal h s cb (entry_path e)
                                    (entry_facts e) (entry_yara e))))).
  destruct (scan_entries h _ cb rest) as [s2 ev]. cbn [snd] in *.
  rewrite !sleeps_app, scan_file_internal_no_sleep, IH.
  cbn [omap list_omap]. unfold entry_sleep.
  destruct (0 <? throttle_after_work (entry_work_ms e) 0.5 500 2); reflexivity.
Qed.

Lemma scan_folder_sleeps (h : Host) (s : YaraScanner) (cb : ResultCallback)
    (entries : list FolderEntry) :
  initialized s = true ->
  callback_is_set cb = true ->
  sleeps (snd (scan_folder h s cb true entries)) = omap entry_sleep entries.
Proof.
  intros Hinit Hcb. unfold scan_folder. rewrite Hinit. simpl.
  now apply scan_entries_sleeps.
Qed.

(** ** The quarantine manager *)

(** Known answers of FIPS 180-4 for the digest, and the obfuscation of one
    byte. *)
Example sha256_hex_abc :
  sha256_hex ["a"%byte; "b"%byte; "c"%byte]
  = "ba7816bf8f01cfea414140de5dae2223b00361a396177a9cb410ff61f20015ad".
Proof. vm_compute. reflexivity. Qed.

Example sha256_hex_empty : sha256_hex [] = empty_sha256.
Proof. vm_compute. reflexivity. Qed.

Example round_constants_ends :
  nth 0 SHA256.K 0 = 0x428a2f98 /\ nth 63 SHA256.K 0 = 0xc67178f2 /\
  nth 0 SHA256.H0 0 = 0x6a09e667 /\ nth 7 SHA256.H0 0 = 0x5be0cd19.
Proof. repeat split. Qed.

Lemma if_same_bool {A : Type} (b : bool) (x : A) : (if b then x else x) = x.
Proof. now destruct b. Qed.

Section QuarantineBranches.

Import QuarantineManager.

Lemma try_remove_frame (sys : Sys) (path : string) (st : State) :
  quarantine_folder_ (try_remove sys path st) = quarantine_folder_ st /\
  db_handle_ (try_remove sys path st) = db_handle_ st /\
  quarantine_files (try_remove sys path st) = quarantine_files st.
Proof. unfold try_remove. now destruct (remove_ok sys path). Qed.

Lemma try_remove_rows (sys : Sys) (path : string) (st : State) :
  quarantine_files (try_remove sys path st) = quarantine_files st.
Proof. apply try_remove_frame. Qed.

Lemma try_remove_folder (sys : Sys) (path : string) (st : State) :
  quarantine_folder_ (try_remove sys path st) = quarantine_folder_ st.
Proof. apply try_remove_frame. Qed.

Lemma remove_quarantine_record_by_id_frame (sys : Sys) (record_id : Z)
    (st : State) :
  let st' := snd (remove_quarantine_record_by_id sys record_id st) in
  quarantine_folder_ st' = quarantine_folder_ st /\
  db_handle_ st' = db_handle_ st /\
  incl (quarantine_files st') (quarantine_files st).
Proof.
  unfold remove_quarantine_record_by_id.
  destruct (negb (db_handle_ st)); [simpl; auto using incl_refl |].
  destruct (List.find _ (quarantine_files st)) as [r |];
    [| simpl; auto using incl_refl].
  destruct (try_remove_frame sys (path_join (stored_path r) (stored_filename r))
              st) as (Hf & Hd & Hr).
  destruct (delete_step_done sys); cbn [snd quarantine_folder_ db_handle_
                                          quarantine_files with_rows].
  - rewrite Hr. repeat split; try assumption.
    intros row Hrow. apply filter_In in Hrow. tauto.
  - rewrite Hr. repeat split; try assumption. apply incl_refl.
Qed.

(** Pruning only removes: the folder and the handle stay, no row is
    added. *)
Lemma prune_quarantine_if_needed_frame (sys : Sys) (needed_bytes : Z)
    (st : State) :
  let st' := snd (prune_quarantine_if_needed sys needed_bytes st) in
  quarantine_folder_ st' = quarantine_folder_ st /\
  db_handle_ st' = db_handle_ st /\
  incl (quarantine_files st') (quarantine_files st).
Proof.
  unfold prune_quarantine_if_needed.
  destruct (needed_bytes =? 0); [simpl; auto using incl_refl |].
  destruct (negb (db_handle_ st)); [simpl; auto using incl_refl |].
  destruct (collect_victims needed_bytes 0 _) as [victims freed].
  destruct (freed <? needed_bytes); [simpl; auto using incl_refl |].
  cbn [snd]. clear freed. revert st.
  induction victims as [| v victims IH]; intros st;
    [simpl; auto using incl_refl |].
  cbn [fold_left].
  destruct (IH (snd (remove_quarantine_record_by_id sys
                       (static_cast_int (id v)) st)))
    as (Hf & Hd & Hr).
  destruct (remove_quarantine_record_by_id_frame sys (static_cast_int (id v)) st)
    as (Hf' & Hd' & Hr').
  cbv zeta in *. repeat split; try congruence.
  eapply incl_tran; eassumption.
Qed.

(** The configuration [quarantine] works with once the database is open. *)
Lemma quarantine_setup (st : State) :
  let st0 := with_manager (quarantine_folder_ st) true st in
  let folder := get_db_info_value st0 "quarantine_folder_path"
                  (quarantine_folder_ st0) in
  let st1 := if String.eqb folder "" then st0 else with_manager folder true st0 in
  files st1 = files st /\ db_handle_ st1 = true /\
  quarantine_files st1 = quarantine_files st /\
  quarantine_folder_ st1 = configured_folder st.
Proof.
  cbv zeta. unfold configured_folder, get_db_info_value.
  cbn [db_handle_ with_manager negb db_info quarantine_folder_].
  now destruct (String.eqb _ "").
Qed.

(** What [quarantine] records on success without pruning: the hash of
    the obfuscated bytes. *)
Lemma quarantine_record_hash (sys : Sys) (path : string) (st : State)
    (content : list byte) :
  files st !! path = Some content ->
  path <> path_join (configured_folder st) (make_unique_stored_filename sys path) ->
  write_limit sys
    (path_join (configured_folder st) (make_unique_stored_filename sys path))
    = None ->
  String.prefix "QUARANTINED:" (fst (quarantine sys path st)) = true ->
  exists row,
    last (quarantine_files (snd (quarantine sys path st))) = Some row /\
    original_path row = path /\
    original_hash row = sha256_hex (xor_stream DEFAULT_XOR_KEY 0 content).
Proof.
  intros Hfile Hne Hfull. unfold quarantine.
  destruct (negb (db_handle_ st || sqlite3_open_ok sys)); [discriminate |].
  destruct (quarantine_setup st) as (Hfiles1 & Hdb1 & Hrows1 & Hfolder1).
  cbv zeta in Hfiles1, Hdb1, Hrows1, Hfolder1.
  set (st1 := if String.eqb _ "" then _ else _) in *. clearbody st1.
  destruct (negb (create_directories_ok sys)); [discriminate |].
  destruct (_ && negb _); [discriminate |].
  destruct (space_available sys <? _);
    [destruct (remove_ok sys path); discriminate |].
  destruct (_ <? wrap64 _).
  { destruct (prune_quarantine_if_needed sys _ st1) as [[pr_ok freed] st2].
    destruct (negb pr_ok); [discriminate |].
    destruct (xor_transform_file sys path _ st2) as [[xerr | written] st3];
      [discriminate |].
    destruct (insert_quarantine_record sys _ path written _ st3).
    discriminate. }
  rewrite Hfolder1. unfold xor_transform_file. rewrite Hfiles1, Hfile.
  destruct (has_parent_path _ && negb _); [discriminate |].
  destruct (negb (open_for_write_ok sys _)); [discriminate |].
  rewrite Hfull. apply String.eqb_neq in Hne. rewrite Hne.
  unfold insert_quarantine_record, compute_hash.
  cbn [db_handle_ with_files files].
  rewrite Hdb1, lookup_insert_eq.
  cbn [negb fmap option_fmap option_map default].
  destruct (insert_step_done sys); cbn [negb fst snd]; [| discriminate].
  intros _. eexists. split; [| split].
  - rewrite try_remove_rows.
    cbn [quarantine_files with_files with_rows]. apply last_snoc.
  - reflexivity.
  - reflexivity.
Qed.

(** Without pruning, a failed insert is reported and the stored copy is
    removed again (unless its removal throws, which the code passes
    over). *)
Lemma quarantine_insert_failure_reported (sys : Sys) (path : string)
    (st : State) :
  insert_step_done sys = false ->
  let r := quarantine sys path st in
  let dest := path_join (quarantine_folder_ (snd r))
                (make_unique_stored_filename sys path) in
  String.prefix "QUARANTINED:" (fst r) = false /\
  (String.prefix "ERROR: Failed to record quarantine in DB" (fst r) = true ->
   remove_ok sys dest = true ->
   files (snd r) !! dest = None /\
   quarantine_files (snd r) = quarantine_files st).
Proof.
  intros Hins. unfold quarantine.
  destruct (negb (db_handle_ st || sqlite3_open_ok sys));
    [split; [reflexivity | discriminate] |].
  destruct (quarantine_setup st) as (_ & _ & Hrows1 & _). cbv zeta in Hrows1.
  set (st1 := if String.eqb _ "" then _ else _) in *. clearbody st1.
  destruct (negb (create_directories_ok sys));
    [split; [reflexivity | discriminate] |].
  destruct (_ && negb _); [split; [reflexivity | discriminate] |].
  destruct (space_available sys <? _).
  { destruct (remove_ok sys path); split; (reflexivity || discriminate). }
  destruct (_ <? wrap64 _).
  { destruct (prune_quarantine_if_needed sys _ st1) as [[pr_ok freed] st2].
    destruct (negb pr_ok).
    - split; [reflexivity | discriminate].
    - destruct (xor_transform_file sys path _ st2) as [[xerr | written] st3];
        [split; [reflexivity | discriminate] |].
      destruct (insert_quarantine_record sys _ path written _ st3).
      split; [reflexivity | discriminate]. }
  unfold xor_transform_file.
  destruct (files st1 !! path) as [content |];
    [| split; [reflexivity | discriminate]].
  destruct (has_parent_path _ && negb _);
    [split; [reflexivity | discriminate] |].
  destruct (negb (open_for_write_ok sys _));
    [split; [reflexivity | discriminate] |].
  unfold insert_quarantine_record. rewrite Hins.
  cbn [negb]. rewrite (if_same_bool (negb _)).
  cbn [fst snd]. split; [reflexivity |]. intros _.
  rewrite !try_remove_folder. cbn [quarantine_folder_ with_files].
  intros Hrm. unfold try_remove at 1. rewrite Hrm.
  cbn [files quarantine_files with_files].
  split; [apply lookup_delete_eq |].
  rewrite !try_remove_rows. exact Hrows1.
Qed.

(** After pruning, a failed insert is not noticed: the answer is
    [PRUNED_AND_QUARANTINED], the stored copy stays and no row was
    added. *)
Lemma quarantine_pruned_insert_failure (sys : Sys) (path : string)
    (st : State) :
  insert_step_done sys = false ->
  let r := quarantine sys path st in
  let dest := path_join (quarantine_folder_ (snd r))
                (make_unique_stored_filename sys path) in
  String.prefix "PRUNED_AND_QUARANTINED:" (fst r) = true ->
  dest <> path ->
  is_Some (files (snd r) !! dest) /\
  incl (quarantine_files (snd r)) (quarantine_files st).
Proof.
  intros Hins. unfold quarantine.
  destruct (negb (db_handle_ st || sqlite3_open_ok sys)); [discriminate |].
  destruct (quarantine_setup st) as (_ & _ & Hrows1 & _). cbv zeta in Hrows1.
  set (st1 := if String.eqb _ "" then _ else _) in *. clearbody st1.
  destruct (negb (create_directories_ok sys)); [discriminate |].
  destruct (_ && negb _); [discriminate |].
  destruct (space_available sys <? _);
    [destruct (remove_ok sys path); discriminate |].
  destruct (_ <? wrap64 _).
  2:{ destruct (xor_transform_file sys path _ st1) as [[xerr | written] st3];
        [discriminate |].
      destruct (insert_quarantine_record sys _ path written _ st3) as [[] ?];
        discriminate. }
  match goal with
  | |- context [prune_quarantine_if_needed sys ?n st1] =>
      pose proof (prune_quarantine_if_needed_frame sys n st1) as (_ & _ & Hrows);
      destruct (prune_quarantine_if_needed sys n st1) as [[pr_ok freed] st2]
  end.
  cbn [snd] in Hrows. rewrite Hrows1 in Hrows.
  destruct (negb pr_ok); [discriminate |].
  unfold xor_transform_file.
  destruct (files st2 !! path) as [content |]; [| discriminate].
  destruct (has_parent_path _ && negb _); [discriminate |].
  destruct (negb (open_for_write_ok sys _)); [discriminate |].
  unfold insert_quarantine_record. rewrite Hins.
  cbn [negb]. rewrite (if_same_bool (negb _)).
  cbn [fst snd]. unfold try_remove.
  destruct (remove_ok sys path);
    cbn [quarantine_folder_ files quarantine_files with_files];
    intros _ Hne; (split; [| exact Hrows]).
  - rewrite lookup_delete_ne by congruence. rewrite lookup_insert_eq. eauto.
  - rewrite lookup_insert_eq. eauto.
Qed.

End QuarantineBranches.


(** C2 (the code departs from the claim).  The store is at its limit, so
    [quarantine] prunes the old entry first; the obfuscated copy is written
    and the insert into [quarantine_files] then fails.  The pruned branch
    ignores the failure: it answers [PRUNED_AND_QUARANTINED], the stored
    copy stays on disk and no row describes it.  With room in the store the
    same failure is handled: the copy is removed and the answer starts with
    [ERROR:]. *)
Theorem quarantine_pruned_branch_keeps_orphan :
  (let r := QuarantineManager.quarantine (sys0 false) "/home/u/evil.bin"
              store_full in
   fst r = "PRUNED_AND_QUARANTINED: freed=4 bytes; stored_as=" +:+ stored_as /\
   QuarantineManager.files (snd r) !! stored_as = Some [xcb] /\
   QuarantineManager.quarantine_files (snd r) = []) /\
  (let r := QuarantineManager.quarantine (sys0 false) "/home/u/evil.bin"
              store_with_room in
   fst r = "ERROR: Failed to record quarantine in DB: disk I/O error" /\
   QuarantineManager.files (snd r) !! stored_as = None /\
   QuarantineManager.quarantine_files (snd r) = []).
Proof. repeat split; vm_compute; reflexivity. Qed.

(** C7 (the code departs from the claim).  The file holds the single byte
    [a]; its stored copy holds [a xor 0xAA = 0xCB].  The row written by
    [quarantine] carries in [original_hash] the SHA-256 of the stored byte,
    not the SHA-256 of the original one. *)
Theorem quarantine_hashes_stored_copy :
  (let r := QuarantineManager.quarantine (sys0 true) "/home/u/evil.bin"
              store_with_room in
   fst r = "QUARANTINED: stored_as=" +:+ stored_as /\
   map QuarantineManager.original_hash (QuarantineManager.quarantine_files (snd r))
     = [sha256_hex [xcb]]) /\
  QuarantineManager.xor_stream QuarantineManager.DEFAULT_XOR_KEY 0 ["a"%byte]
    = [xcb] /\
  sha256_hex [xcb]
    = "383e5d7d58caa41ce723cf16af471b38f6ee9065c032d07fa6bef1678cb72f1d" /\
  sha256_hex ["a"%byte]
    = "ca978112ca1bbdcafac231b39a23dc4da786eff8147c4e72b9807785afee48bb".
Proof. repeat split; vm_compute; reflexivity. Qed.

(** * Further properties of the scanner *)

(** ** Progress *)

(** X1.  Whatever the two 64-bit counters hold, also when [c * 100] wraps,
    [get_progress_percent] answers a value between 0 and 100. *)
Theorem get_progress_percent_range (s : YaraScanner) :
  is_u64 (total_count s) -> is_u64 (completed_count s) ->
  0 <= get_progress_percent s <= 100.
Proof.
  unfold is_u64, get_progress_percent, wrap64. intros Ht Hc.
  destruct (Z.eqb_spec (total_count s) 0) as [E | Hne].
  - destruct (Z.eqb_spec (completed_count s) 0); [lia |].
    rewrite static_cast_int_id; unfold INT_MIN, INT_MAX; lia.
  - assert (0 <= (completed_count s * 100) mod UINT64_MOD / total_count s).
    { apply Z.div_pos; [| lia].
      apply Z.mod_pos_bound. unfold UINT64_MOD. lia. }
    destruct (Z.ltb_spec 100
                ((completed_count s * 100) mod UINT64_MOD / total_count s));
      rewrite static_cast_int_id; unfold INT_MIN, INT_MAX; lia.
Qed.

Lemma get_progress_percent_range_witness :
  0 <= get_progress_percent (with_counts 1 184467440737095517 engine0) <= 100.
Proof.
  apply get_progress_percent_range; unfold is_u64, UINT64_MOD; simpl; lia.
Defined.

Lemma call_callback_cases (h : Host) (s : YaraScanner) (cb : ResultCallback)
    (r : Result) (owner : bool) :
  call_callback_if_python_ready h s cb r owner = [] \/
  call_callback_if_python_ready h s cb r owner = [EvEmit r].
Proof.
  unfold call_callback_if_python_ready, invoke_callback.
  destruct (negb (callback_is_set cb)); [now left |].
  destruct (owner && negb (callbacks_enabled s)); [now left |].
  destruct (negb (Py_IsInitialized h)); [now left |].
  destruct cb; [now left | now right |].
  destruct (negb (callbacks_enabled s)); [now left |].
  simpl. now right.
Qed.

Lemma invoke_callback_cases (h : Host) (s : YaraScanner) (cb : ResultCallback)
    (r : Result) :
  invoke_callback h s cb r = [] \/ invoke_callback h s cb r = [EvEmit r].
Proof.
  unfold invoke_callback. destruct cb; [now left | now right |].
  destruct (negb (callbacks_enabled s)); [now left |].
  destruct (negb (Py_IsInitialized h)); [now left | now right].
Qed.

(** ** What a scan changes *)

Lemma locked_scan_counts (h : Host) (s : YaraScanner) (cb : ResultCallback)
    (path : string) (ff : FileFacts) (yara : YaraRun) :
  let o := locked_scan h s cb path ff yara in
  out_scanner o = if skip_exit (out_exit o) then completed_fetch_add s else s.
Proof.
  unfold locked_scan.
  destruct (if negb (full_scan_override s) then _ else _) as [[] ev_white];
    [reflexivity |].
  destruct (signature_check (db s) _) as [[[[type hex] name] |] ev_sig];
    [reflexivity |].
  pose proof (content_scan_exit h s cb path ff yara) as Hexit.
  destruct (content_scan h s cb path ff yara) as [exit ev]. simpl in *.
  repeat (destruct Hexit as [<- | Hexit]; [reflexivity |]). destruct Hexit.
Qed.

(** The engine after a scan, by exit. *)
Lemma scan_file_internal_skip_counts (h : Host) (s : YaraScanner)
    (cb : ResultCallback) (path : string) (ff : FileFacts) (yara : YaraRun) :
  let o := scan_file_internal h s cb path ff yara in
  out_scanner o = if skip_exit (out_exit o) then completed_fetch_add s else s.
Proof.
  pose proof (locked_scan_counts h s cb path ff yara) as Hlocked.
  unfold scan_file_internal.
  set (lo := locked_scan h s cb path ff yara) in *. clearbody lo.
  destruct (negb (initialized s)); [reflexivity |].
  destruct (existsb _ excluded_keywords); [reflexivity |].
  destruct (negb (fs_exists ff) || negb (fs_is_regular_file ff)); [reflexivity |].
  destruct (_ && negb (full_scan_override s)); [reflexivity |].
  destruct (negb (full_scan_override s) && trusted_publisher ff); [reflexivity |].
  exact Hlocked.
Qed.

(** X2.  A scan changes nothing in the engine but [completed_count], and
    counts the file exactly when it leaves through one of the four skips
    (excluded path, oversized, trusted publisher, whitelisted): a file that
    is looked up or content-scanned is not counted by [scan_file_internal]
    itself. *)
Theorem scan_file_internal_counts (h : Host) (s : YaraScanner)
    (cb : ResultCallback) (path : string) (ff : FileFacts) (yara : YaraRun) :
  let o := scan_file_internal h s cb path ff yara in
  out_scanner o = if skip_exit (out_exit o) then completed_fetch_add s else s.
Proof. apply scan_file_internal_skip_counts. Qed.

Lemma completed_fetch_add_fields (s : YaraScanner) :
  total_count (completed_fetch_add s) = total_count s /\
  completed_count (completed_fetch_add s) = wrap64 (completed_count s + 1) /\
  initialized (completed_fetch_add s) = initialized s.
Proof. now repeat split. Qed.






(** Without a callback the bound fails: the scan of a file whose segments
    cannot be read leaves by the exception, and the loop neither counts
    the file nor sleeps; with a callback the file is counted. *)
Example scan_folder_empty_callback :
  (let r := scan_folder host0 engine_clean NullCallback true [unreadable_entry] in
   completed_count (fst r) = 0 /\ get_progress_percent (fst r) = 0 /\
   sleeps (snd r) = []) /\
  (let r := scan_folder host0 engine_clean (UserCallback 1) true
              [unreadable_entry] in
   completed_count (fst r) = 1 /\ get_progress_percent (fst r) = 100 /\
   sleeps (snd r) = [100]).
Proof. repeat split; vm_compute; reflexivity. Qed.


(** ** What a scan emits *)

Lemma length_emitted_callback (h : Host) (s : YaraScanner) (cb : ResultCallback)
    (r : Result) (owner : bool) :
  (length (emitted (call_callback_if_python_ready h s cb r owner)) <= 1)%nat.
Proof.
  destruct (call_callback_cases h s cb r owner) as [-> | ->]; simpl; lia.
Qed.

Lemma length_emitted_invoke (h : Host) (s : YaraScanner) (cb : ResultCallback)
    (r : Result) :
  (length (emitted (invoke_callback h s cb r)) <= 1)%nat.
Proof.
  destruct (invoke_callback_cases h s cb r) as [-> | ->]; simpl; lia.
Qed.

Lemma content_scan_single (h : Host) (s : YaraScanner) (cb : ResultCallback)
    (path : string) (ff : FileFacts) (yara : YaraRun) (body : list YrMessage) :
  completed_run yara body ->
  (length (emitted (snd (content_scan h s cb path ff yara))) <= 1)%nat.
Proof.
  intros (Hrc & Hmsgs & Hbody). unfold content_scan. rewrite Hrc, Hmsgs.
  pose proof (yr_rules_scan_completed h s cb path ff body Hbody) as Hscan.
  destruct (yr_rules_scan h s (new_context cb ff path)
              (body ++ [CALLBACK_MSG_SCAN_FINISHED])) as [c ev].
  cbn [snd] in Hscan.
  assert (Hev : (length (emitted ev) <= 1)%nat).
  { rewrite Hscan. destruct (matched_identifiers body); [simpl; lia |].
    apply length_emitted_callback. }
  destruct (negb (rules s)); [simpl; lia |].
  destruct (fs_file_size ff <=? PARTIAL_FILE_MIN).
  - simpl. now rewrite app_nil_r.
  - destruct (_ && _); [| simpl; lia].
    destruct (negb (read_prefix_suffix ff)).
    { destruct (callback_is_set cb); [apply length_emitted_invoke | simpl; lia]. }
    simpl. now rewrite app_nil_r.
Qed.

(** X5.  A scan whose content scan, if any, runs to completion hands at
    most one result to the sink, whatever the file, the store and the
    engine state. *)
Theorem single_terminal_result (h : Host) (s : YaraScanner)
    (cb : ResultCallback) (path : string) (ff : FileFacts) (yara : YaraRun)
    (body : list YrMessage) :
  completed_run yara body ->
  (length (emitted (out_events (scan_file_internal h s cb path ff yara))) <= 1)%nat.
Proof.
  intros Hrun. unfold scan_file_internal.
  destruct (negb (initialized s)); [simpl; lia |].
  destruct (existsb _ excluded_keywords); [simpl; lia |].
  destruct (negb (fs_exists ff) || negb (fs_is_regular_file ff)); [simpl; lia |].
  destruct (_ && negb (full_scan_override s)).
  { cbn [out_events]. destruct (callback_is_set cb); [| simpl; lia].
    apply length_emitted_callback. }
  destruct (negb (full_scan_override s) && trusted_publisher ff).
  { cbn [out_events]. destruct (callback_is_set cb); [| simpl; lia].
    apply length_emitted_callback. }
  cbn [out_events]. rewrite emitted_app.
  replace (emitted (if negb (full_scan_override s) then [EvTrustCheck] else []))
    with (@nil Result) by (destruct (negb (full_scan_override s)); reflexivity).
  cbn [app]. unfold locked_scan.
  assert (Hwhite : emitted
            (snd (if negb (full_scan_override s)
                  then whitelist_check (db s)
                         [ (sha256_opt ff, "sha256"); (sha1_opt ff, "sha1");
                           (md5_opt ff, "md5") ]
                  else (false, []))) = []).
  { destruct (negb (full_scan_override s)); [| reflexivity].
    apply whitelist_check_quiet. }
  destruct (if negb (full_scan_override s) then _ else _) as [white ev_white].
  cbn [snd] in Hwhite.
  destruct white; cbn [out_events].
  { change (EvHashes :: ?l) with ([EvHashes] ++ l).
    rewrite !emitted_app, Hwhite. apply length_emitted_callback. }
  pose proof (signature_check_three (db s) ff) as (_ & Hsig & _).
  cbv zeta in Hsig.
  destruct (signature_check (db s) _) as [[[[type hex] name] |] ev_sig];
    cbn [snd] in Hsig; cbn [out_events].
  { change (EvHashes :: ?l) with ([EvHashes] ++ l).
    rewrite !emitted_app, Hwhite, Hsig. apply length_emitted_callback. }
  pose proof (content_scan_single h s cb path ff yara body Hrun) as Hcontent.
  destruct (content_scan h s cb path ff yara) as [exit ev_yara].
  cbn [snd out_events] in *.
  change (EvHashes :: ?l) with ([EvHashes] ++ l).
  rewrite !emitted_app, Hwhite, Hsig. exact Hcontent.
Qed.

Lemma single_terminal_result_witness :
  (length (emitted (out_events
     (scan_file_internal host0 engine_clean (UserCallback 1)
        "C:\data\big.bin" large_file two_rule_run))) <= 1)%nat.
Proof.
  apply (single_terminal_result host0 engine_clean (UserCallback 1)
           "C:\data\big.bin" large_file two_rule_run two_rule_body).
  repeat split.
Defined.

(** X6.  When YARA aborts (a non-zero return code and no
    [CALLBACK_MSG_SCAN_FINISHED]), the rules that matched before the abort
    are not reported: with a ready sink the content scan emits the one
    [ERROR] result and nothing else. *)
Theorem aborted_scan_drops_matches (h : Host) (s : YaraScanner)
    (cb : ResultCallback) (path : string) (ff : FileFacts) (yara : YaraRun) :
  rules s = true ->
  fs_file_size ff <= PARTIAL_FILE_MAX ->
  read_prefix_suffix ff = true ->
  sink_ready h s cb = true ->
  yr_rc yara <> 0 ->
  forallb (fun m => negb (is_scan_finished m)) (yr_messages yara) = true ->
  emitted (snd (content_scan h s cb path ff yara))
  = [error_result h ff path
       (if fs_file_size ff <=? PARTIAL_FILE_MIN
        then "YARA full-file scan failed" else "YARA partial scan failed")].
Proof.
  intros Hrules Hsize Hread Hready Hrc Hbody. unfold content_scan.
  rewrite Hrules, Hread, (yr_rules_scan_body _ _ _ _ Hbody).
  apply Z.eqb_neq in Hrc. rewrite Hrc. cbn [negb].
  rewrite !(call_callback_ready _ _ _ _ Hready).
  destruct (fs_file_size ff <=? PARTIAL_FILE_MIN) eqn:Hsmall; [reflexivity |].
  apply Z.leb_gt in Hsmall.
  destruct (Z.ltb_spec PARTIAL_FILE_MIN (fs_file_size ff)); [| lia].
  destruct (Z.leb_spec (fs_file_size ff) PARTIAL_FILE_MAX); [| lia].
  reflexivity.
Qed.

Lemma aborted_scan_drops_matches_witness :
  map desc (emitted (snd (content_scan host0 engine_clean (UserCallback 1)
      "C:\data\big.bin" large_file
      {| yr_messages := two_rule_body; yr_rc := 4 |})))
  = ["YARA partial scan failed"].
Proof.
  rewrite (aborted_scan_drops_matches host0 engine_clean (UserCallback 1)
             "C:\data\big.bin" large_file
             {| yr_messages := two_rule_body; yr_rc := 4 |}).
  - reflexivity.
  - reflexivity.
  - vm_compute. discriminate.
  - reflexivity.
  - reflexivity.
  - simpl. discriminate.
  - reflexivity.
Defined.

(** X7.  The notices of the policy gate and of the whitelist pass the
    owner to the callback helper: while [callbacks_enabled] is false (as it
    is until [start_realtime] succeeds and after [stop_realtime]) a scan
    that ends in one of these skips emits nothing; with it true and the
    sink ready, it emits exactly one [NOTICE] that is not a detection. *)
Theorem skip_notices_need_enabled_callbacks (h : Host) (s : YaraScanner)
    (cb : ResultCallback) (path : string) (ff : FileFacts) (yara : YaraRun) :
  let o := scan_file_internal h s cb path ff yara in
  In (out_exit o) [ExitOversized; ExitTrustedPublisher; ExitWhitelisted] ->
  (callbacks_enabled s = false -> emitted (out_events o) = []) /\
  (callbacks_enabled s = true -> sink_ready h s cb = true ->
   exists r, emitted (out_events o) = [r] /\ isMalware r = false /\
             severity r = "NOTICE" /\
             (detection_source r = "POLICY" \/ detection_source r = "WHITELIST")).
Proof.
  assert (Hcall : forall r,
    (callbacks_enabled s = false ->
     call_callback_if_python_ready h s cb r true = []) /\
    (callbacks_enabled s = true -> sink_ready h s cb = true ->
     call_callback_if_python_ready h s cb r true = [EvEmit r])).
  { intros r. unfold call_callback_if_python_ready, sink_ready, invoke_callback.
    split.
    - intros ->. destruct (negb (callback_is_set cb)); reflexivity.
    - intros ->. destruct cb; simpl; try discriminate.
      + now intros ->.
      + rewrite andb_true_r. now intros ->. }
  unfold scan_file_internal.
  destruct (negb (initialized s)); [simpl; intuition discriminate |].
  destruct (existsb _ excluded_keywords); [simpl; intuition discriminate |].
  destruct (negb (fs_exists ff) || negb (fs_is_regular_file ff));
    [simpl; intuition discriminate |].
  destruct (_ && negb (full_scan_override s)).
  { cbn [out_exit out_events]. intros _. split.
    - intros Hoff. destruct (callback_is_set cb); [| reflexivity].
      now rewrite (proj1 (Hcall _) Hoff).
    - intros Hon Hready.
      assert (Hset : callback_is_set cb = true)
        by (destruct cb; [discriminate | reflexivity | reflexivity]).
      rewrite Hset, (proj2 (Hcall _) Hon Hready).
      eexists. split; [reflexivity |]. simpl. auto. }
  destruct (negb (full_scan_override s) && trusted_publisher ff).
  { cbn [out_exit out_events]. intros _. split.
    - intros Hoff. destruct (callback_is_set cb); [| reflexivity].
      now rewrite (proj1 (Hcall _) Hoff).
    - intros Hon Hready.
      assert (Hset : callback_is_set cb = true)
        by (destruct cb; [discriminate | reflexivity | reflexivity]).
      rewrite Hset, (proj2 (Hcall _) Hon Hready).
      eexists. split; [reflexivity |]. simpl. auto. }
  cbn [out_exit out_events]. rewrite emitted_app.
  replace (emitted (if negb (full_scan_override s) then [EvTrustCheck] else []))
    with (@nil Result) by (destruct (negb (full_scan_override s)); reflexivity).
  cbn [app]. unfold locked_scan.
  assert (Hwhite : emitted
            (snd (if negb (full_scan_override s)
                  then whitelist_check (db s)
                         [ (sha256_opt ff, "sha256"); (sha1_opt ff, "sha1");
                           (md5_opt ff, "md5") ]
                  else (false, []))) = []).
  { destruct (negb (full_scan_override s)); [| reflexivity].
    apply whitelist_check_quiet. }
  destruct (if negb (full_scan_override s) then _ else _) as [white ev_white].
  cbn [snd] in Hwhite.
  destruct white; cbn [out_exit out_events].
  { intros _. change (EvHashes :: ?l) with ([EvHashes] ++ l).
    rewrite !emitted_app, Hwhite. cbn [emitted omap list_omap app]. split.
    - intros Hoff. now rewrite (proj1 (Hcall _) Hoff).
    - intros Hon Hready. rewrite (proj2 (Hcall _) Hon Hready).
      eexists. split; [reflexivity |]. simpl. auto. }
  destruct (signature_check (db s) _) as [[[[type hex] name] |] ev_sig];
    cbn [out_exit].
  { simpl. intuition discriminate. }
  pose proof (content_scan_exit h s cb path ff yara) as Hexit.
  destruct (content_scan h s cb path ff yara) as [exit ev_yara].
  cbn [fst out_exit] in *. intros Hin. exfalso.
  simpl in Hexit, Hin.
  repeat (destruct Hexit as [<- | Hexit]; [intuition discriminate |]).
  exact Hexit.
Qed.

Lemma skip_notices_need_enabled_callbacks_witness :
  emitted (out_events (scan_file_internal host0 engine0 (UserCallback 1)
                         "C:\data\image.iso" huge_file no_match_run)) = [] /\
  map desc (emitted (out_events
      (scan_file_internal host0 engine_running (UserCallback 1)
         "C:\data\image.iso" huge_file no_match_run)))
    = ["Skipped: file too large (>500MB)"].
Proof.
  split.
  - apply (skip_notices_need_enabled_callbacks host0 engine0 (UserCallback 1)
             "C:\data\image.iso" huge_file no_match_run).
    + vm_compute. left. reflexivity.
    + reflexivity.
  - destruct (skip_notices_need_enabled_callbacks host0 engine_running
                (UserCallback 1) "C:\data\image.iso" huge_file no_match_run)
      as [_ Hon].
    + vm_compute. left. reflexivity.
    + destruct Hon as (r & Hr & _); [reflexivity | reflexivity |].
      vm_compute. reflexivity.
Defined.

(** What a scan emits through a callback that delivers nothing. *)
Section SilentSink.

Variables (h : Host) (s : YaraScanner) (cb : ResultCallback).
Hypothesis silent_call :
  forall r owner, call_callback_if_python_ready h s cb r owner = [].
Hypothesis silent_invoke : forall r, invoke_callback h s cb r = [].

Lemma yr_rules_scan_silent (ctx : ScanContext) (messages : list YrMessage) :
  ctx_callback ctx = cb -> snd (yr_rules_scan h s ctx messages) = [].
Proof.
  revert ctx. induction messages as [| m rest IH]; intros ctx Hcb; [reflexivity |].
  cbn [yr_rules_scan].
  destruct (rule_match_callback h s ctx m) as [ctx1 ev1] eqn:Hm.
  assert (H1 : ev1 = [] /\ ctx_callback ctx1 = cb).
  { unfold rule_match_callback in Hm.
    destruct m; try (inversion Hm; subst ctx1 ev1; now auto).
    destruct (ctx_matched_rules ctx); inversion Hm; subst ctx1 ev1;
      [now auto |].
    rewrite Hcb. split; [apply silent_call | exact Hcb]. }
  destruct H1 as [-> Hcb1]. specialize (IH ctx1 Hcb1).
  destruct (yr_rules_scan h s ctx1 rest) as [ctx2 ev2]. exact IH.
Qed.

Lemma content_scan_silent (path : string) (ff : FileFacts) (yara : YaraRun) :
  emitted (snd (content_scan h s cb path ff yara)) = [].
Proof.
  unfold content_scan.
  pose proof (yr_rules_scan_silent (new_context cb ff path) (yr_messages yara)
                eq_refl) as Hy.
  destruct (yr_rules_scan h s (new_context cb ff path) (yr_messages yara))
    as [c ev]. cbn [snd] in Hy. subst ev.
  rewrite !silent_call, silent_invoke.
  destruct (negb (rules s)); [reflexivity |].
  destruct (fs_file_size ff <=? PARTIAL_FILE_MIN).
  - destruct (negb (yr_rc yara =? 0)); reflexivity.
  - destruct (_ && _); [| reflexivity].
    destruct (negb (read_prefix_suffix ff));
      [now destruct (callback_is_set cb) |].
    destruct (negb (yr_rc yara =? 0)); reflexivity.
Qed.

Lemma scan_file_internal_silent (path : string) (ff : FileFacts)
    (yara : YaraRun) :
  emitted (out_events (scan_file_internal h s cb path ff yara)) = [].
Proof.
  unfold scan_file_internal.
  destruct (negb (initialized s)); [reflexivity |].
  destruct (existsb _ excluded_keywords); [reflexivity |].
  destruct (negb (fs_exists ff) || negb (fs_is_regular_file ff)); [reflexivity |].
  destruct (_ && negb (full_scan_override s)).
  { cbn [out_events]. rewrite silent_call. now destruct (callback_is_set cb). }
  destruct (negb (full_scan_override s) && trusted_publisher ff).
  { cbn [out_events]. rewrite silent_call. now destruct (callback_is_set cb). }
  cbn [out_events]. rewrite emitted_app.
  replace (emitted (if negb (full_scan_override s) then [EvTrustCheck] else []))
    with (@nil Result) by (destruct (negb (full_scan_override s)); reflexivity).
  cbn [app]. unfold locked_scan.
  assert (Hwhite : emitted
            (snd (if negb (full_scan_override s)
                  then whitelist_check (db s)
                         [ (sha256_opt ff, "sha256"); (sha1_opt ff, "sha1");
                           (md5_opt ff, "md5") ]
                  else (false, []))) = []).
  { destruct (negb (full_scan_override s)); [| reflexivity].
    apply whitelist_check_quiet. }
  destruct (if negb (full_scan_override s) then _ else _) as [white ev_white].
  cbn [snd] in Hwhite.
  destruct white; cbn [out_events].
  { change (EvHashes :: ?l) with ([EvHashes] ++ l).
    now rewrite !emitted_app, Hwhite, silent_call. }
  pose proof (signature_check_three (db s) ff) as (_ & Hsig & _).
  cbv zeta in Hsig.
  destruct (signature_check (db s) _) as [[[[type hex] name] |] ev_sig];
    cbn [snd] in Hsig; cbn [out_events].
  { change (EvHashes :: ?l) with ([EvHashes] ++ l).
    now rewrite !emitted_app, Hwhite, Hsig, silent_call. }
  pose proof (content_scan_silent path ff yara) as Hcontent.
  destruct (content_scan h s cb path ff yara) as [exit ev_yara].
  cbn [snd out_events] in *.
  change (EvHashes :: ?l) with ([EvHashes] ++ l).
  now rewrite !emitted_app, Hwhite, Hsig, Hcontent.
Qed.

End SilentSink.

(** X8.  A realtime scan runs through the guarded callback: once
    [callbacks_enabled] is false (or the interpreter is gone) it emits
    nothing, whatever it finds: no notice, no detection, no error. *)
Theorem guarded_scan_is_silent_when_disabled (h : Host) (s : YaraScanner)
    (id : nat) (path : string) (ff : FileFacts) (yara : YaraRun) :
  callbacks_enabled s = false \/ Py_IsInitialized h = false ->
  emitted (out_events (scan_file_internal h s (GuardedCallback id) path ff yara))
  = [].
Proof.
  intros Hoff. apply scan_file_internal_silent.
  - intros r owner. unfold call_callback_if_python_ready, invoke_callback.
    cbn [callback_is_set negb].
    destruct Hoff as [-> | ->]; cbn [negb];
      repeat match goal with
             | |- context [if ?c then _ else _] => destruct c
             end; reflexivity.
  - intros r. unfold invoke_callback.
    destruct Hoff as [-> | ->]; cbn [negb];
      repeat match goal with
             | |- context [if ?c then _ else _] => destruct c
             end; reflexivity.
Qed.

Lemma guarded_scan_is_silent_when_disabled_witness :
  emitted (out_events (scan_file_internal host0 engine0 (GuardedCallback 1)
                         "C:\Users\u\eicar.com" empty_file no_match_run)) = [] /\
  length (emitted (out_events (scan_file_internal host0 engine0 (UserCallback 1)
                         "C:\Users\u\eicar.com" empty_file no_match_run)))
    = 1%nat.
Proof.
  split.
  - apply (guarded_scan_is_silent_when_disabled host0 engine0 1).
    left. reflexivity.
  - vm_compute. reflexivity.
Defined.

(** ** The stability check *)

Lemma stable_check_loop_spec (reads : nat -> option Z) (fuel i : nat)
    (last_size : Z) :
  let r := stable_check_loop fuel i last_size reads in
  (i <= stable_waits r <= i + fuel)%nat /\
  (forall sz w, r = FileStable sz w ->
     (0 < w)%nat /\ (w < i + fuel)%nat /\ reads w = Some sz /\
     sz <> UINT64_MAX /\
     (w = i -> last_size = sz) /\
     ((i < w)%nat -> reads (w - 1)%nat = Some sz)) /\
  (forall w, r = FileDisappeared w -> reads w = None) /\
  (forall w, r = FileUnstable w -> w = (i + fuel)%nat).
Proof.
  revert i last_size. induction fuel as [| fuel IH]; intros i last_size.
  - simpl. split; [lia |]. split; [discriminate |]. split; [discriminate |].
    intros w Hw. inversion Hw. lia.
  - cbn [stable_check_loop]. destruct (reads i) as [sz |] eqn:Hread.
    + destruct ((0 <? i)%nat && negb (sz =? UINT64_MAX) && (sz =? last_size))
        eqn:Hcond.
      * apply andb_true_iff in Hcond as [Hcond Heq].
        apply andb_true_iff in Hcond as [Hpos Hmax].
        apply Nat.ltb_lt in Hpos. apply Z.eqb_eq in Heq.
        apply negb_true_iff, Z.eqb_neq in Hmax. subst sz.
        cbv zeta. cbn [stable_waits].
        split; [lia |]. split; [| split; discriminate].
        intros sz w Hw. inversion Hw; subst sz w.
        split; [lia |]. split; [lia |]. split; [exact Hread |].
        split; [exact Hmax |]. split; [reflexivity | lia].
      * specialize (IH (S i) sz). cbv zeta in IH |- *.
        destruct IH as (Hw & Hst & Hdis & Hun).
        split; [lia |]. split; [| split].
        -- intros sz' w Hr.
           destruct (Hst sz' w Hr) as (H1 & H2 & H3 & H4 & Hlast & Hprev).
           split; [lia |]. split; [lia |]. split; [exact H3 |].
           split; [exact H4 |].
           assert (Hle : (S i <= w)%nat)
             by (pose proof (proj1 Hw) as Hle; rewrite Hr in Hle; exact Hle).
           split; [lia |]. intros _.
           destruct (Nat.eq_dec w (S i)) as [-> | Hne].
           ++ replace (S i - 1)%nat with i by lia.
              rewrite Hread. now rewrite (Hlast eq_refl).
           ++ apply Hprev. lia.
        -- exact Hdis.
        -- intros w Hr. rewrite (Hun w Hr). lia.
    + cbv zeta. cbn [stable_waits].
      split; [lia |]. split; [discriminate |]. split; [| discriminate].
      intros w Hw. inversion Hw. now subst.
Qed.

(** The three results of the stability loop. *)
Lemma stable_check_results (reads : nat -> option Z) :
  (stable_waits (stable_check reads) <= 5)%nat /\
  (forall sz w, stable_check reads = FileStable sz w ->
     (1 <= w <= 4)%nat /\ reads (w - 1)%nat = Some sz /\ reads w = Some sz /\
     sz <> UINT64_MAX) /\
  (forall w, stable_check reads = FileDisappeared w -> reads w = None) /\
  (forall w, stable_check reads = FileUnstable w -> w = 5%nat).
Proof.
  destruct (stable_check_loop_spec reads MAX_STABLE_RETRIES 0 0)
    as (Hw & Hst & Hdis & Hun).
  fold (stable_check reads) in *. unfold MAX_STABLE_RETRIES in *.
  split; [lia |]. split; [| split; [exact Hdis | exact Hun]].
  intros sz w Hr.
  destruct (Hst sz w Hr) as (H1 & H2 & H3 & H4 & _ & Hprev).
  split; [lia |]. split; [apply Hprev; lia |]. split; assumption.
Qed.

(** X9.  The stability loop waits at most five times (750 ms); it declares
    a file stable only on two consecutive looks that read the same size
    (read successfully), never on the first look; and it gives up the file
    only when a look finds it gone. *)
Theorem stable_check_sound (reads : nat -> option Z) :
  (stable_waits (stable_check reads) <= 5)%nat /\
  (forall sz w, stable_check reads = FileStable sz w ->
     (1 <= w <= 4)%nat /\ reads (w - 1)%nat = Some sz /\ reads w = Some sz /\
     sz <> UINT64_MAX) /\
  (forall w, stable_check reads = FileDisappeared w -> reads w = None) /\
  (forall w, stable_check reads = FileUnstable w -> w = 5%nat).
Proof. apply stable_check_results. Qed.

Lemma stable_check_sound_witness :
  stable_check steady_reads = FileStable 10 1 /\
  stable_check growing_reads = FileUnstable 5 /\
  steady_reads 0%nat = Some 10 /\ steady_reads 1%nat = Some 10.
Proof.
  destruct (stable_check_sound steady_reads) as (_ & Hst & _ & _).
  destruct (Hst 10 1%nat eq_refl) as (_ & H0 & H1 & _).
  repeat split; assumption.
Defined.

Lemma stable_check_two_equal_looks (reads : nat -> option Z) (sz : Z) :
  reads 0%nat = Some sz -> reads 1%nat = Some sz -> sz <> UINT64_MAX ->
  stable_check reads = FileStable sz 1.
Proof.
  intros H0 H1 Hmax. unfold stable_check, MAX_STABLE_RETRIES.
  cbn [stable_check_loop]. rewrite H0. cbn [Nat.ltb Nat.leb andb].
  rewrite H1. apply Z.eqb_neq in Hmax. rewrite Hmax, Z.eqb_refl. reflexivity.
Qed.

(** X10.  With a callback stored and the path a regular file at every
    look, [process_queued_path] always scans the file, through the guarded
    callback and after at most five waits, also when the size never
    settles; when the first two looks agree it scans after one wait. *)
Theorem process_queued_path_best_effort (h : Host) (s : YaraScanner)
    (path : string) (reads : nat -> option Z) (ff : FileFacts) (yara : YaraRun) :
  callback_is_set (realtime_callback s) = true ->
  (forall i, is_Some (reads i)) ->
  let q := process_queued_path h s path true reads ff yara in
  queued_scan q
    = Some (scan_file_internal h s (guarded (realtime_callback s)) path ff yara) /\
  (queued_waits q <= 5)%nat /\
  (forall sz, reads 0%nat = Some sz -> reads 1%nat = Some sz ->
     sz <> UINT64_MAX -> queued_waits q = 1%nat).
Proof.
  intros Hcb Hreads. unfold process_queued_path. rewrite Hcb. cbn [negb].
  destruct (stable_check_results reads) as (Hw & _ & Hdis & _).
  split; [| split].
  - destruct (stable_check reads) as [w | sz w | w] eqn:Hr; try reflexivity.
    specialize (Hdis w eq_refl). destruct (Hreads w) as [v Hv]. congruence.
  - destruct (stable_check reads) as [w | sz w | w]; exact Hw.
  - intros sz H0 H1 Hmax.
    now rewrite (stable_check_two_equal_looks reads sz H0 H1 Hmax).
Qed.

Lemma process_queued_path_best_effort_witness :
  let q := process_queued_path host0 engine_running "C:\in\a.exe" true
             growing_reads empty_file no_match_run in
  queued_waits q = 5%nat /\
  queued_scan q
    = Some (scan_file_internal host0 engine_running (GuardedCallback 1)
              "C:\in\a.exe" empty_file no_match_run).
Proof.
  destruct (process_queued_path_best_effort host0 engine_running "C:\in\a.exe"
              growing_reads empty_file no_match_run) as (Hscan & _ & _).
  - reflexivity.
  - intros i. unfold growing_reads. eauto.
  - split; [reflexivity | exact Hscan].
Defined.

(** ** Keywords and names *)

Lemma tolower_not_upper (c : ascii) : is_upper (tolower c) = false.
Proof. destruct c as [[] [] [] [] [] [] [] []]; reflexivity. Qed.

Lemma tolower_idempotent (c : ascii) : tolower (tolower c) = tolower c.
Proof. destruct c as [[] [] [] [] [] [] [] []]; reflexivity. Qed.

Lemma prefix_chars (kw s : string) (c : ascii) :
  String.prefix kw s = true ->
  In c (list_ascii_of_string kw) -> In c (list_ascii_of_string s).
Proof.
  revert s. induction kw as [| a kw IH]; intros s Hpre Hin; [destruct Hin |].
  destruct s as [| b s]; [discriminate |]. simpl in Hpre.
  destruct (ascii_dec a b) as [-> | Hne]; [| discriminate].
  destruct Hin as [<- | Hin]; [now left | right; now apply IH].
Qed.

Lemma string_contains_chars (kw s : string) (c : ascii) :
  string_contains kw s = true ->
  In c (list_ascii_of_string kw) -> In c (list_ascii_of_string s).
Proof.
  induction s as [| b s IH]; intros Hcont Hin.
  - simpl in Hcont. rewrite orb_false_r in Hcont.
    now apply (prefix_chars kw "").
  - cbn [string_contains] in Hcont. apply orb_true_iff in Hcont as [Hpre | Hrest].
    + now apply (prefix_chars kw (String b s)).
    + right. now apply IH.
Qed.

Lemma lowered_has_no_upper (s : string) (c : ascii) :
  In c (list_ascii_of_string (string_map tolower s)) -> is_upper c = false.
Proof.
  induction s as [| a s IH]; [intros [] |].
  intros [<- | Hin]; [apply tolower_not_upper | now apply IH].
Qed.

(** X11.  The exclusion test lowercases the path but not the keywords: a
    keyword that contains an upper-case letter can never match, so the
    last entry of the list, [PBL4_Client.exe], excludes nothing. *)
Theorem upper_case_keyword_never_matches (keyword path : string) :
  existsb is_upper (list_ascii_of_string keyword) = true ->
  string_contains keyword (string_map tolower path) = false.
Proof.
  intros Hupper. apply existsb_exists in Hupper as (c & Hin & Hc).
  destruct (string_contains keyword (string_map tolower path)) eqn:Hcont;
    [| reflexivity].
  pose proof (string_contains_chars _ _ c Hcont Hin) as Hin'.
  apply lowered_has_no_upper in Hin'. congruence.
Qed.

Lemma upper_case_keyword_never_matches_witness :
  In "PBL4_Client.exe" excluded_keywords /\
  string_contains "PBL4_Client.exe"
    (string_map tolower "C:\Program Files\PBL4\PBL4_Client.exe") = false /\
  path_excluded "C:\Program Files\PBL4\PBL4_Client.exe" = false.
Proof.
  split; [simpl; tauto |]. split.
  - apply upper_case_keyword_never_matches. reflexivity.
  - reflexivity.
Defined.

Lemma string_map_app (f : ascii -> ascii) (a b : string) :
  string_map f (a +:+ b) = string_map f a +:+ string_map f b.
Proof. induction a as [| c a IH]; simpl; [reflexivity | now rewrite IH]. Qed.

Lemma prefix_app (kw rest : string) : String.prefix kw (kw +:+ rest) = true.
Proof.
  induction kw as [| c kw IH]; simpl; [now destruct rest |].
  destruct (ascii_dec c c); [exact IH | contradiction].
Qed.

Lemma string_contains_app (kw pre post : string) :
  string_contains kw (pre +:+ kw +:+ post) = true.
Proof.
  induction pre as [| c pre IH].
  - change ("" +:+ kw +:+ post) with (kw +:+ post).
    pose proof (prefix_app kw post) as Hpre.
    destruct (kw +:+ post); cbn [string_contains]; now rewrite Hpre.
  - change (String c pre +:+ kw +:+ post) with (String c (pre +:+ kw +:+ post)).
    cbn [string_contains]. rewrite IH. apply orb_true_r.
Qed.

(** X12.  The publisher allow-list is a case-insensitive substring test:
    any signer name that contains one of the five vendor words, in any
    letter case and anywhere in the name, is trusted. *)
Theorem signer_trusted_by_substring (pre word post : string) :
  In (string_map tolower word) trusted_substrings ->
  signer_trusted (pre +:+ word +:+ post) = true.
Proof.
  intros Hin. unfold signer_trusted.
  apply existsb_exists. exists (string_map tolower word). split; [exact Hin |].
  rewrite !string_map_app, string_contains_app, andb_true_r.
  simpl in Hin.
  repeat (destruct Hin as [<- | Hin]; [reflexivity |]). destruct Hin.
Qed.

Lemma signer_trusted_by_substring_witness :
  signer_trusted "Pineapple Studio Ltd" = true /\
  signer_trusted "INTELligent Tools" = true /\
  signer_trusted "Contoso" = false.
Proof.
  split; [| split].
  - apply (signer_trusted_by_substring "Pine" "apple" " Studio Ltd").
    simpl. tauto.
  - apply (signer_trusted_by_substring "" "INTEL" "ligent Tools").
    simpl. tauto.
  - reflexivity.
Defined.

(** ** Sampling *)

(** X13.  The sample of [read_prefix_suffix] splits the file into its
    prefix, an unread middle and its suffix: the two segments never
    overlap, the prefix holds min(size, 4 MiB) bytes, the suffix
    min(size - prefix, 1 MiB), and the unread middle is empty exactly
    when the file has at most 5 MiB. *)
Theorem read_prefix_suffix_partition (content : list byte) :
  let size := Z.of_nat (length content) in
  let '(out_prefix, out_suffix) := read_prefix_suffix_segments content in
  exists middle,
    content = out_prefix ++ middle ++ out_suffix /\
    Z.of_nat (length out_prefix) = Z.min size PARTIAL_PREFIX_SIZE /\
    Z.of_nat (length out_suffix)
      = Z.min (size - Z.of_nat (length out_prefix)) PARTIAL_SUFFIX_SIZE /\
    Z.of_nat (length middle)
      = Z.max 0 (size - PARTIAL_PREFIX_SIZE - PARTIAL_SUFFIX_SIZE).
Proof.
  cbv zeta. unfold read_prefix_suffix_segments.
  set (size := Z.of_nat (length content)).
  assert (Hsize : 0 <= size) by (subst size; lia).
  assert (HP : PARTIAL_PREFIX_SIZE = 4194304) by reflexivity.
  assert (HS : PARTIAL_SUFFIX_SIZE = 1048576) by reflexivity.
  set (P := PARTIAL_PREFIX_SIZE) in *. set (S := PARTIAL_SUFFIX_SIZE) in *.
  clearbody P S.
  set (p := Z.min P size).
  set (sfx := if p <? size then Z.min S (size - p) else 0).
  assert (Hp : 0 <= p <= size) by (subst p; lia).
  assert (Hsfx : 0 <= sfx <= size - p /\
                 sfx = Z.min (size - p) S)
    by (subst sfx; destruct (Z.ltb_spec p size); lia).
  destruct Hsfx as [Hsfx Hsfx_eq].
  assert (Hpre : (if 0 <? p then take (Z.to_nat p) content else [])
                 = take (Z.to_nat p) content).
  { destruct (Z.ltb_spec 0 p); [reflexivity |].
    replace p with 0 by lia. reflexivity. }
  assert (Hsuf : (if 0 <? sfx
                  then take (Z.to_nat sfx)
                         (drop (Z.to_nat (size - sfx)) content)
                  else [])
                 = drop (Z.to_nat (size - sfx)) content).
  { destruct (Z.ltb_spec 0 sfx).
    - apply take_ge. rewrite length_drop. subst size. lia.
    - replace sfx with 0 by lia. rewrite Z.sub_0_r.
      symmetry. apply drop_ge. subst size. lia. }
  rewrite Hpre, Hsuf.
  exists (take (Z.to_nat (size - sfx - p)) (drop (Z.to_nat p) content)).
  split; [| split; [| split]].
  - rewrite <- (take_drop (Z.to_nat p) content) at 1. f_equal.
    rewrite <- (take_drop (Z.to_nat (size - sfx - p))
                  (drop (Z.to_nat p) content)) at 1.
    f_equal. rewrite drop_drop. f_equal. lia.
  - rewrite length_take. subst size p. lia.
  - rewrite length_drop, length_take. subst size p. lia.
  - rewrite length_take, length_drop. subst size p. lia.
Qed.

(** ** The event queue, exactly *)

Lemma first_occurrences_snoc (l : list string) (p : string) :
  first_occurrences (l ++ [p])
  = if bool_decide (p ∈ first_occurrences l) then first_occurrences l
    else first_occurrences l ++ [p].
Proof.
  unfold first_occurrences. rewrite reverse_app. cbn [reverse app].
  change (reverse [p]) with [p]. cbn [app remove_dups].
  assert (Hiff : p ∈ reverse (remove_dups (reverse l)) <-> p ∈ reverse l)
    by (rewrite elem_of_reverse; apply elem_of_remove_dups).
  destruct (decide_rel elem_of p (reverse l)) as [Hin | Hnin].
  - rewrite bool_decide_eq_true_2 by (now apply Hiff). reflexivity.
  - rewrite bool_decide_eq_false_2 by (now rewrite Hiff).
    now rewrite reverse_cons.
Qed.

Lemma enqueue_all_snoc (events : list (string * Z)) (ev : string * Z)
    (s : YaraScanner) :
  enqueue_all (events ++ [ev]) s
  = enqueue_path_for_scan (fst ev) (snd ev) (enqueue_all events s).
Proof. unfold enqueue_all. now rewrite fold_left_app. Qed.

Lemma nonempty_paths_snoc (events : list (string * Z)) (ev : string * Z) :
  nonempty_paths (events ++ [ev])
  = nonempty_paths events ++ (if String.eqb (fst ev) "" then [] else [fst ev]).
Proof.
  unfold nonempty_paths. rewrite map_app, List.filter_app. simpl.
  now destruct (String.eqb (fst ev) "").
Qed.

(** From an empty queue and with enqueues only, the queue and the map hold
    the same paths. *)
Lemma enqueue_all_exact (events : list (string * Z)) (s : YaraScanner) :
  let s' := enqueue_all events (with_queue [] ∅ s) in
  path_queue s' = first_occurrences (nonempty_paths events) /\
  (forall p, is_Some (last_event_time s' !! p) <-> p ∈ path_queue s') /\
  (forall p, p <> "" -> last_event_time s' !! p = last_time_of p events).
Proof.
  induction events as [| ev events IH] using rev_ind.
  - simpl. split; [reflexivity |]. split.
    + intros p. rewrite lookup_empty. split; [intros [? ?]; discriminate |].
      intros H. inversion H.
    + intros p _. apply lookup_empty.
  - cbv zeta in *. destruct IH as (Hq & Hdom & Htime).
    rewrite enqueue_all_snoc, nonempty_paths_snoc.
    set (s1 := enqueue_all events (with_queue [] ∅ s)) in *.
    destruct ev as [path now]. cbn [fst snd].
    assert (Hlast : forall p,
      last_time_of p (events ++ [(path, now)])
      = if String.eqb path p then Some now else last_time_of p events).
    { intros p. unfold last_time_of. rewrite omap_app. cbn [omap list_omap fst snd].
      destruct (String.eqb path p); [apply last_snoc | now rewrite app_nil_r]. }
    unfold enqueue_path_for_scan.
    destruct (String.eqb path "") eqn:Hempty.
    { rewrite app_nil_r. split; [exact Hq |]. split; [exact Hdom |].
      intros p Hp. rewrite Hlast.
      apply String.eqb_eq in Hempty. subst path.
      destruct (String.eqb_spec "" p); [congruence | now apply Htime]. }
    assert (Hmap : forall p,
      <[path := now]> (last_event_time s1) !! p
      = if String.eqb path p then Some now else last_event_time s1 !! p).
    { intros p. destruct (String.eqb_spec path p) as [-> | Hne].
      - apply lookup_insert_eq.
      - now apply lookup_insert_ne. }
    assert (Hin : existsb (String.eqb path) (path_queue s1) = true
                  <-> is_Some (last_event_time s1 !! path))
      by (rewrite existsb_eqb_elem_of; symmetry; apply Hdom).
    rewrite first_occurrences_snoc, <- Hq.
    destruct (last_event_time s1 !! path) as [t |] eqn:Hlook.
    + assert (Hq1 : existsb (String.eqb path) (path_queue s1) = true)
        by (apply Hin; eauto).
      rewrite Hq1. cbn [path_queue last_event_time with_queue].
      rewrite bool_decide_eq_true_2 by (now apply existsb_eqb_elem_of).
      split; [reflexivity |]. split.
      * intros p. rewrite Hmap. destruct (String.eqb_spec path p) as [<- | Hne].
        -- split; [intros _; now apply existsb_eqb_elem_of | eauto].
        -- apply Hdom.
      * intros p Hp. rewrite Hmap, Hlast.
        destruct (String.eqb path p); [reflexivity | now apply Htime].
    + assert (Hq0 : path ∉ path_queue s1).
      { intros Hc. apply Hdom in Hc. rewrite Hlook in Hc.
        destruct Hc; discriminate. }
      cbn [path_queue last_event_time with_queue].
      rewrite bool_decide_eq_false_2 by exact Hq0.
      split; [reflexivity |]. split.
      * intros p. rewrite Hmap, elem_of_app, list_elem_of_singleton.
        destruct (String.eqb_spec path p) as [<- | Hne].
        -- split; [intros _; now right | eauto].
        -- rewrite Hdom. split; [now left |].
           intros [H | H]; [exact H | congruence].
      * intros p Hp. rewrite Hmap, Hlast.
        destruct (String.eqb path p); [reflexivity | now apply Htime].
Qed.

(** X14.  After any enqueues on an empty queue, [path_queue] holds the
    non-empty paths of the events, each once, in the order of their first
    event: a burst of events for one path keeps the path at the position
    of its first event. *)
Theorem enqueue_order_is_first_event (events : list (string * Z))
    (s : YaraScanner) :
  path_queue (enqueue_all events (with_queue [] ∅ s))
  = first_occurrences (nonempty_paths events).
Proof. apply enqueue_all_exact. Qed.

Lemma last_time_of_snoc (p : string) (events : list (string * Z))
    (path : string) (now : Z) :
  last_time_of p (events ++ [(path, now)])
  = if String.eqb path p then Some now else last_time_of p events.
Proof.
  unfold last_time_of. rewrite omap_app. cbn [omap list_omap fst snd].
  destruct (String.eqb path p); [apply last_snoc | now rewrite app_nil_r].
Qed.

Lemma enqueue_path_for_scan_effect (path : string) (now : Z) (s : YaraScanner) :
  path <> "" ->
  let s' := enqueue_path_for_scan path now s in
  last_event_time s' = <[path := now]> (last_event_time s) /\
  path ∈ path_queue s' /\
  (forall q, q ∈ path_queue s -> q ∈ path_queue s').
Proof.
  intros Hne. cbv zeta. unfold enqueue_path_for_scan.
  apply String.eqb_neq in Hne. rewrite Hne.
  destruct (last_event_time s !! path);
    [destruct (existsb (String.eqb path) (path_queue s)) eqn:Hex |];
    cbn [last_event_time path_queue with_queue];
    (split; [reflexivity |]); split;
    try (apply elem_of_app; right; apply list_elem_of_singleton; reflexivity);
    try (intros q Hq; apply elem_of_app; now left).
  - now apply existsb_eqb_elem_of.
  - auto.
Qed.

(** X15.  After any enqueues, from whatever state the queue and the map
    are in (also the drained queue of a running monitor), the last-seen
    time of a non-empty path is the time of its latest event, or what it
    was when the path had no event; and every non-empty path that had an
    event is in the queue. *)
Theorem last_seen_is_latest_event (events : list (string * Z))
    (s : YaraScanner) (p : string) :
  p <> "" ->
  let s' := enqueue_all events s in
  last_event_time s' !! p
    = match last_time_of p events with
      | Some t => Some t
      | None => last_event_time s !! p
      end /\
  (In p (map fst events) -> p ∈ path_queue s') /\
  (p ∈ path_queue s -> p ∈ path_queue s').
Proof.
  intros Hp. cbv zeta.
  induction events as [| [path now] events IH] using rev_ind.
  - cbn. split; [reflexivity |]. split; [intros [] | auto].
  - destruct IH as (IHtime & IHin & IHkeep).
    rewrite enqueue_all_snoc, last_time_of_snoc, map_app. cbn [fst snd map].
    destruct (String.eqb_spec path p) as [-> | Hne].
    + destruct (enqueue_path_for_scan_effect p now (enqueue_all events s) Hp)
        as (Hmap & Hin & Hkeep).
      cbv zeta in Hmap, Hin, Hkeep. rewrite Hmap, lookup_insert_eq.
      split; [reflexivity |]. split; intros _; exact Hin.
    + destruct (String.eqb_spec path "") as [-> | Hnonempty].
      * unfold enqueue_path_for_scan. cbn [String.eqb].
        split; [exact IHtime |]. split; [| exact IHkeep].
        intros Hin. apply in_app_or in Hin.
        destruct Hin as [Hin | [Heq | []]]; [now apply IHin | congruence].
      * destruct (enqueue_path_for_scan_effect path now (enqueue_all events s)
                    Hnonempty) as (Hmap & _ & Hkeep).
        cbv zeta in Hmap, Hkeep. rewrite Hmap, lookup_insert_ne by exact Hne.
        split; [exact IHtime |]. split.
        -- intros Hin. apply in_app_or in Hin.
           destruct Hin as [Hin | [Heq | []]]; [| congruence].
           apply Hkeep. now apply IHin.
        -- intros Hin. apply Hkeep. now apply IHkeep.
Qed.

Lemma last_seen_is_latest_event_witness :
  let drained := with_queue [] {[ "a" := 1 ]} engine0 in
  let s' := enqueue_all [("b", 2); ("a", 3)] drained in
  last_event_time s' !! "a" = Some 3 /\ "a" ∈ path_queue s'.
Proof.
  destruct (last_seen_is_latest_event [("b", 2); ("a", 3)]
              (with_queue [] {[ "a" := 1 ]} engine0) "a")
    as (Htime & Hin & _); [discriminate |].
  split; [rewrite Htime; reflexivity |].
  apply Hin. cbn. tauto.
Defined.

(** X16.  While the monitor runs, no entry ever leaves the last-seen map:
    the worker's pops and scans do not touch it and an enqueue only adds or
    refreshes; only [stop_realtime] empties it. *)
Theorem last_seen_never_shrinks (steps : list ThreadStep) (s : YaraScanner)
    (p : string) :
  is_Some (last_event_time s !! p) ->
  is_Some (last_event_time (run_threads steps s) !! p).
Proof.
  revert s. induction steps as [| st steps IH]; intros s Hp; [exact Hp |].
  simpl. apply IH. destruct st; simpl.
  - unfold enqueue_path_for_scan.
    destruct (String.eqb path ""); [exact Hp |].
    assert (Hins : is_Some (<[path := now]> (last_event_time s) !! p)).
    { destruct (decide (path = p)) as [-> | Hne].
      - rewrite lookup_insert_eq. eauto.
      - now rewrite lookup_insert_ne. }
    destruct (last_event_time s !! path); exact Hins.
  - unfold pop_queued_path. destruct (path_queue s); exact Hp.
  - exact Hp.
Qed.

Lemma last_seen_never_shrinks_witness :
  is_Some (last_event_time
             (run_threads [WorkerPop; WorkerPop; WorkerScanCounted] engine_running)
           !! "C:\in\a.exe") /\
  path_queue (run_threads [WorkerPop; WorkerPop; WorkerScanCounted] engine_running)
    = [].
Proof.
  split.
  - apply last_seen_never_shrinks. vm_compute. eauto.
  - vm_compute. reflexivity.
Defined.

(** ** The monitor between calls *)

(** The threads change the queue, the map and the count, nothing else. *)
Lemma run_threads_monitor_fields (steps : list ThreadStep) (s : YaraScanner) :
  let s' := run_threads steps s in
  monitor_state s' = monitor_state s /\ monitoring s' = monitoring s /\
  monitor_thread s' = monitor_thread s /\
  monitor_worker_thread s' = monitor_worker_thread s /\
  callbacks_enabled s' = callbacks_enabled s.
Proof.
  revert s. induction steps as [| st steps IH]; intros s; [now repeat split |].
  cbv zeta in *. simpl.
  destruct (IH (thread_step s st)) as (H1 & H2 & H3 & H4 & H5).
  rewrite H1, H2, H3, H4, H5. clear.
  destruct st; simpl.
  - unfold enqueue_path_for_scan.
    destruct (String.eqb path ""); [now repeat split |].
    destruct (last_event_time s !! path); now repeat split.
  - unfold pop_queued_path. destruct (path_queue s); now repeat split.
  - now repeat split.
Qed.

Lemma lifecycle_call_ok (s : YaraScanner) (c : LifecycleCall) :
  lifecycle_ok s -> lifecycle_ok (lifecycle_call s c).
Proof.
  intros (Hst & Hmon & Hwat & Hwor & Hen & Hq).
  destruct c as [spawn_worker spawn_watcher callback | joined | steps];
    cbn [lifecycle_call].
  - unfold start_realtime.
    destruct (MonitorState_eqb (monitor_state s) Stopped) eqn:E; cbn [negb snd].
    2: { unfold lifecycle_ok; tauto. }
    apply MonitorState_eqb_eq in E.
    assert (Hthread : monitor_thread s = false).
    { destruct (monitor_thread s); [| reflexivity].
      assert (monitor_state s = Running) by now apply Hwat. congruence. }
    assert (Hworker : monitor_worker_thread s = false).
    { destruct (monitor_worker_thread s); [| reflexivity].
      assert (monitor_state s = Running) by now apply Hwor. congruence. }
    destruct (Hq E) as [Hqueue Hmap].
    destruct spawn_worker; cbn [negb snd];
      [destruct spawn_watcher; cbn [negb snd] |];
      unfold lifecycle_ok; simpl; rewrite ?Hthread, ?Hworker;
      (split; [auto |]); (split; [split; congruence |]);
      (split; [split; congruence |]); (split; [split; congruence |]);
      (split; [auto |]); intros; auto; congruence.
  - unfold stop_realtime.
    destruct (MonitorState_eqb (monitor_state s) Running) eqn:E; cbn [negb].
    + apply MonitorState_eqb_eq in E.
      set (stopping := with_monitor _ _ Stopping false false NullCallback s).
      destruct (run_threads_monitor_fields joined stopping)
        as (_ & Hm & _ & _ & He).
      cbv zeta in Hm, He. unfold lifecycle_ok. simpl. rewrite Hm, He.
      subst stopping. simpl.
      split; [auto |]. split; [split; congruence |].
      split; [split; congruence |]. split; [split; congruence |].
      split; [congruence | auto].
    + assert (Hs : monitor_state s = Stopped).
      { destruct Hst as [H | H]; [exact H |].
        rewrite H in E. discriminate. }
      assert (Hm : monitoring s = false).
      { destruct (monitoring s); [| reflexivity].
        assert (monitor_state s = Running) by now apply Hmon. congruence. }
      unfold lifecycle_ok. simpl. rewrite <- Hm at 1.
      tauto.
  - destruct (MonitorState_eqb (monitor_state s) Running) eqn:E.
    2: { unfold lifecycle_ok; tauto. }
    apply MonitorState_eqb_eq in E.
    destruct (run_threads_monitor_fields steps s) as (H1 & H2 & H3 & H4 & H5).
    cbv zeta in *. unfold lifecycle_ok. rewrite H1, H2, H3, H4, H5.
    split; [exact Hst |]. split; [exact Hmon |]. split; [exact Hwat |].
    split; [exact Hwor |]. split; [exact Hen |].
    intros Hc. congruence.
Qed.

(** X17.  Whatever calls of [start_realtime] and [stop_realtime] a fresh
    engine sees, successful or failed, with its threads active in between,
    each call leaves the monitor either stopped or running, never stopping;
    the [monitoring] flag and both threads are set exactly while it runs;
    callbacks are enabled while it runs; and while it is stopped the queue
    and the last-seen map are empty. *)
Theorem lifecycle_invariant (calls : list LifecycleCall) :
  lifecycle_ok (fold_left lifecycle_call calls new_scanner).
Proof.
  assert (Hgen : forall s, lifecycle_ok s ->
                   lifecycle_ok (fold_left lifecycle_call calls s)).
  { induction calls as [| c calls IH]; intros s Hs; [exact Hs |].
    simpl. apply IH. now apply lifecycle_call_ok. }
  apply Hgen. unfold lifecycle_ok. simpl.
  split; [auto |]. repeat (split; [split; congruence |]).
  split; [congruence | auto].
Qed.

(** ** The polling loop *)

Lemma poll_entry_snapshot (cb : ResultCallback) (seen : gmap string Z)
    (scans : list (string * ResultCallback)) (p : string) (mtime : Z) :
  let seen' := fst (poll_entry cb (seen, scans) (p, mtime)) in
  seen' !! p = Some mtime /\ (forall q, q <> p -> seen' !! q = seen !! q).
Proof.
  cbv zeta. unfold poll_entry.
  destruct (seen !! p) as [old |] eqn:Hlook.
  - destruct (Z.eqb_spec mtime old) as [-> | Hne]; cbn [fst].
    + split; [exact Hlook | reflexivity].
    + split; [apply lookup_insert_eq |].
      intros q Hq. apply lookup_insert_ne. congruence.
  - cbn [fst]. split; [apply lookup_insert_eq |].
    intros q Hq. apply lookup_insert_ne. congruence.
Qed.

Lemma poll_walk_snapshot (cb : ResultCallback) (listing : list (string * Z)) :
  NoDup (map fst listing) ->
  forall (seen : gmap string Z) (scans : list (string * ResultCallback)),
  let seen' := fst (fold_left (poll_entry cb) listing (seen, scans)) in
  (forall p mtime, (p, mtime) ∈ listing -> seen' !! p = Some mtime) /\
  (forall q, q ∉ map fst listing -> seen' !! q = seen !! q).
Proof.
  induction listing as [| [p0 m0] rest IH]; intros Hnd seen scans.
  - simpl. split; [| reflexivity]. intros p mtime Hin. inversion Hin.
  - simpl in Hnd. apply NoDup_cons in Hnd. destruct Hnd as [Hfresh Hnd].
    cbv zeta. cbn [fold_left].
    destruct (poll_entry_snapshot cb seen scans p0 m0) as [Hp0 Hother].
    cbv zeta in Hp0, Hother.
    destruct (poll_entry cb (seen, scans) (p0, m0)) as [seen0 scans0].
    cbn [fst] in Hp0, Hother.
    destruct (IH Hnd seen0 scans0) as [Hin Hout]. cbv zeta in Hin, Hout.
    split.
    + intros p mtime Hel. apply elem_of_cons in Hel.
      destruct Hel as [Heq | Hel]; [| now apply Hin].
      inversion Heq; subst. now rewrite Hout.
    + intros q Hq. cbn [map fst] in Hq. apply not_elem_of_cons in Hq.
      destruct Hq as [Hne Hq]. rewrite (Hout q Hq). now apply Hother.
Qed.

Lemma poll_walk_quiet (cb : ResultCallback) (listing : list (string * Z))
    (seen : gmap string Z) (scans : list (string * ResultCallback)) :
  (forall p mtime, (p, mtime) ∈ listing -> seen !! p = Some mtime) ->
  fold_left (poll_entry cb) listing (seen, scans) = (seen, scans).
Proof.
  induction listing as [| [p0 m0] rest IH]; intros Hall; [reflexivity |].
  cbn [fold_left]. unfold poll_entry at 2.
  rewrite (Hall p0 m0) by (apply elem_of_cons; now left).
  rewrite Z.eqb_refl. apply IH.
  intros p mtime Hin. apply Hall. apply elem_of_cons. now right.
Qed.

(** X18.  The poller settles: when the walk lists each path once and every
    listed file still exists, one period brings the snapshot up to date, so
    that a second period over the same listing requests no scan and leaves
    the snapshot as it is.  A file is scanned once per change, not once per
    period. *)
Theorem poll_iteration_settles (cb : ResultCallback)
    (listing : list (string * Z)) (still_exists : string -> bool)
    (seen : gmap string Z) :
  NoDup (map fst listing) ->
  (forall p mtime, (p, mtime) ∈ listing -> still_exists p = true) ->
  let seen' := fst (poll_iteration cb listing still_exists seen) in
  poll_iteration cb listing still_exists seen' = (seen', []).
Proof.
  intros Hnd Hex. cbv zeta.
  assert (Hfst : fst (poll_iteration cb listing still_exists seen)
                 = filter (fun kv => still_exists (fst kv) = true)
                     (fst (fold_left (poll_entry cb) listing (seen, [])))).
  { unfold poll_iteration.
    now destruct (fold_left (poll_entry cb) listing (seen, [])). }
  rewrite Hfst. clear Hfst.
  destruct (poll_walk_snapshot cb listing Hnd seen []) as [Hin _].
  cbv zeta in Hin.
  destruct (fold_left (poll_entry cb) listing (seen, [])) as [seen1 scans1].
  cbn [fst] in *.
  set (kept := filter (fun kv => still_exists (fst kv) = true) seen1).
  assert (Hkept : forall p mtime, (p, mtime) ∈ listing -> kept !! p = Some mtime).
  { intros p mtime Hel. subst kept. apply map_lookup_filter_Some.
    split; [now apply Hin |]. cbn [fst]. now apply (Hex p mtime). }
  unfold poll_iteration. rewrite (poll_walk_quiet cb listing kept [] Hkept).
  f_equal. apply map_filter_id. intros p mtime Hlook.
  subst kept. apply map_lookup_filter_Some in Hlook. now destruct Hlook.
Qed.

Lemma poll_iteration_settles_witness :
  snd (poll_iteration (UserCallback 1) [("a", 5); ("b", 7)] (fun _ => true) ∅)
    = [("a", UserCallback 1); ("b", UserCallback 1)] /\
  snd (poll_iteration (UserCallback 1) [("a", 5); ("b", 7)] (fun _ => true)
         (fst (poll_iteration (UserCallback 1) [("a", 5); ("b", 7)]
                 (fun _ => true) ∅)))
    = [].
Proof.
  split; [vm_compute; reflexivity |].
  rewrite (poll_iteration_settles (UserCallback 1) [("a", 5); ("b", 7)]
             (fun _ => true) ∅).
  - reflexivity.
  - cbn [map fst]. apply NoDup_cons. split.
    + intros Hin. apply list_elem_of_singleton in Hin. discriminate.
    + apply NoDup_singleton.
  - reflexivity.
Defined.

(** ** Digests in hexadecimal *)

Lemma hex_digit_cases (d : Z) :
  0 <= d < 16 ->
  d = 0 \/ d = 1 \/ d = 2 \/ d = 3 \/ d = 4 \/ d = 5 \/ d = 6 \/ d = 7 \/
  d = 8 \/ d = 9 \/ d = 10 \/ d = 11 \/ d = 12 \/ d = 13 \/ d = 14 \/ d = 15.
Proof. lia. Qed.

Lemma hex_digit_lower (d : Z) :
  0 <= d < 16 -> is_lower_hex (hex_digit d) = true.
Proof.
  intros Hd. apply hex_digit_cases in Hd.
  repeat (destruct Hd as [-> | Hd]; [reflexivity |]). now subst.
Qed.

Lemma hex_digit_value (d : Z) :
  0 <= d < 16 ->
  Z.of_nat (nat_of_ascii (hex_digit d)) = if d <? 10 then 48 + d else 87 + d.
Proof.
  intros Hd. apply hex_digit_cases in Hd.
  repeat (destruct Hd as [-> | Hd]; [reflexivity |]). now subst.
Qed.

Lemma hex_digit_inj (d e : Z) :
  0 <= d < 16 -> 0 <= e < 16 -> hex_digit d = hex_digit e -> d = e.
Proof.
  intros Hd He Heq.
  pose proof (hex_digit_value d Hd) as Vd.
  pose proof (hex_digit_value e He) as Ve.
  rewrite Heq in Vd. rewrite Vd in Ve.
  destruct (Z.ltb_spec d 10), (Z.ltb_spec e 10); lia.
Qed.

Lemma bytes_to_hex_chars (bytes : list Z) :
  Forall (fun b => 0 <= b < 256) bytes ->
  String.length (bytes_to_hex bytes) = (2 * length bytes)%nat /\
  forallb is_lower_hex (list_ascii_of_string (bytes_to_hex bytes)) = true.
Proof.
  induction 1 as [| b rest Hb _ [IHlen IHchars]]; [now split |].
  cbn [bytes_to_hex String.length list_ascii_of_string forallb length].
  rewrite IHlen, IHchars.
  rewrite !hex_digit_lower
    by (try apply Z.mod_pos_bound; try split;
        try apply Z.div_pos; try apply Z.div_lt_upper_bound; lia).
  split; [lia | reflexivity].
Qed.

(** X19.  [bytes_to_hex] prints every byte as exactly two characters out
    of [0-9a-f], never upper case, and different byte sequences give
    different strings: comparing hex digests is comparing digests. *)
Theorem bytes_to_hex_format (bytes : list Z) :
  Forall (fun b => 0 <= b < 256) bytes ->
  String.length (bytes_to_hex bytes) = (2 * length bytes)%nat /\
  forallb is_lower_hex (list_ascii_of_string (bytes_to_hex bytes)) = true /\
  (forall other, Forall (fun b => 0 <= b < 256) other ->
     bytes_to_hex bytes = bytes_to_hex other -> bytes = other).
Proof.
  intros Hb. destruct (bytes_to_hex_chars bytes Hb) as [Hlen Hchars].
  split; [exact Hlen |]. split; [exact Hchars |]. clear Hlen Hchars.
  induction Hb as [| b rest Hb _ IH]; intros other Ho Heq.
  - destruct other; [reflexivity | discriminate].
  - destruct Ho as [| c other Hc Ho]; [discriminate |].
    cbn [bytes_to_hex] in Heq. injection Heq as Hhi Hlo Hrest.
    apply hex_digit_inj in Hhi;
      [| split; [apply Z.div_pos | apply Z.div_lt_upper_bound]; lia
       | split; [apply Z.div_pos | apply Z.div_lt_upper_bound]; lia].
    apply hex_digit_inj in Hlo;
      [| apply Z.mod_pos_bound; lia | apply Z.mod_pos_bound; lia].
    f_equal; [| now apply IH].
    rewrite (Z.div_mod b 16), (Z.div_mod c 16) by lia. congruence.
Qed.

Lemma bytes_to_hex_format_witness :
  String.length (bytes_to_hex [0; 10; 255]) = 6%nat /\
  bytes_to_hex [0; 10; 255] = "000aff".
Proof.
  destruct (bytes_to_hex_format [0; 10; 255]) as (Hlen & _ & _).
  - repeat constructor; lia.
  - split; [exact Hlen | reflexivity].
Defined.

Lemma round_length (st : list Z) (kw : Z * Z) :
  length (SHA256.round st kw) = length st.
Proof.
  unfold SHA256.round.
  do 9 (destruct st as [| ? st]; [reflexivity |]). reflexivity.
Qed.

Lemma compress_length (Hs block : list Z) :
  length (SHA256.compress Hs block) = length Hs.
Proof.
  unfold SHA256.compress. rewrite length_zip_with.
  assert (Hfold : forall l st, length (fold_left SHA256.round l st) = length st).
  { induction l as [| kw l IH]; intros st; [reflexivity |].
    simpl. now rewrite IH, round_length. }
  rewrite Hfold. lia.
Qed.

Lemma be_bytes_range (n : nat) (v : Z) :
  length (SHA256.be_bytes n v) = n /\
  Forall (fun b => 0 <= b < 256) (SHA256.be_bytes n v).
Proof.
  induction n as [| n [IHlen IHall]]; [split; [reflexivity | constructor] |].
  cbn [SHA256.be_bytes length]. split; [now rewrite IHlen |].
  constructor; [| exact IHall].
  change 255 with (Z.ones 8). rewrite Z.land_ones by lia.
  apply Z.mod_pos_bound. lia.
Qed.

Lemma digest_bytes (msg : list Z) :
  length (SHA256.digest msg) = 32%nat /\
  Forall (fun b => 0 <= b < 256) (SHA256.digest msg).
Proof.
  unfold SHA256.digest.
  set (bs := SHA256.blocks _ _). clearbody bs.
  assert (Hlen : length (fold_left SHA256.compress bs SHA256.H0) = 8%nat).
  { assert (Hfold : forall l st,
              length (fold_left SHA256.compress l st) = length st).
    { induction l as [| b l IH]; intros st; [reflexivity |].
      simpl. now rewrite IH, compress_length. }
    now rewrite Hfold. }
  set (Hs := fold_left SHA256.compress bs SHA256.H0) in *. clearbody Hs.
  do 9 (destruct Hs as [| ? Hs]; try discriminate Hlen).
  split; [reflexivity |].
  cbn [map concat]. rewrite !Forall_app.
  repeat split; try apply be_bytes_range. constructor.
Qed.

(** X20.  Whatever the content, its SHA-256 in hexadecimal has 64
    characters out of [0-9a-f]: the hash stored with a quarantined file
    and the whitelist key always have this form. *)
Theorem sha256_hex_format (content : list byte) :
  String.length (sha256_hex content) = 64%nat /\
  forallb is_lower_hex (list_ascii_of_string (sha256_hex content)) = true.
Proof.
  unfold sha256_hex.
  destruct (digest_bytes (map byte_to_Z content)) as [Hlen Hall].
  destruct (bytes_to_hex_chars _ Hall) as [Hl Hc].
  rewrite Hl, Hlen. split; [reflexivity | exact Hc].
Qed.

(** ** Progress as counts *)

(** X21.  [get_progress_counts] saturates where [get_progress_percent]
    wraps: for counters in the 64-bit range both numbers lie in
    [0, INT_MAX], a counter up to [INT_MAX] is returned as it is and a
    larger one as [INT_MAX]. *)
Theorem get_progress_counts_saturates (s : YaraScanner) :
  is_u64 (completed_count s) -> is_u64 (total_count s) ->
  let '(ci, ti) := get_progress_counts s in
  ci = Z.min (completed_count s) INT_MAX /\
  ti = Z.min (total_count s) INT_MAX.
Proof.
  unfold is_u64, get_progress_counts, INT_MAX. intros Hc Ht.
  assert (Hclamp : forall v, 0 <= v ->
    (if 2 ^ 31 - 1 <? v then 2 ^ 31 - 1 else static_cast_int v)
    = Z.min v (2 ^ 31 - 1)).
  { intros v Hv. destruct (Z.ltb_spec (2 ^ 31 - 1) v); [lia |].
    unfold static_cast_int. rewrite Z.mod_small by lia. lia. }
  now rewrite !Hclamp by lia.
Qed.

Lemma get_progress_counts_saturates_witness :
  get_progress_counts (with_counts (2 ^ 40) 7 engine0) = (7, 2 ^ 31 - 1).
Proof.
  pose proof (get_progress_counts_saturates (with_counts (2 ^ 40) 7 engine0))
    as H.
  destruct (get_progress_counts (with_counts (2 ^ 40) 7 engine0)) as [ci ti].
  destruct H as [-> ->]; [unfold is_u64, UINT64_MOD; simpl; lia .. |].
  reflexivity.
Defined.

(** ** The quarantine store *)

Lemma byte_to_Z_range (b : byte) : 0 <= byte_to_Z b < 256.
Proof.
  unfold byte_to_Z. pose proof (Byte.to_N_bounded b). lia.
Qed.

Lemma byte_of_to_Z (b : byte) : byte_of_Z (byte_to_Z b) = b.
Proof.
  unfold byte_of_Z. rewrite Z.mod_small by apply byte_to_Z_range.
  unfold byte_to_Z. rewrite N2Z.id, Byte.of_to_N. reflexivity.
Qed.

Lemma byte_to_of_Z (z : Z) : byte_to_Z (byte_of_Z z) = z mod 256.
Proof.
  unfold byte_of_Z, byte_to_Z.
  pose proof (Z.mod_pos_bound z 256 ltac:(lia)) as Hz.
  destruct (Byte.of_N (Z.to_N (z mod 256))) as [y |] eqn:Hy.
  - apply Byte.to_of_N in Hy. simpl. rewrite Hy. lia.
  - apply Byte.of_N_None_iff in Hy. lia.
Qed.

Lemma lxor_byte_range (a c : Z) :
  0 <= a < 256 -> 0 <= c < 256 -> 0 <= Z.lxor a c < 256.
Proof.
  intros Ha Hc.
  assert (Hnn : 0 <= Z.lxor a c) by (apply Z.lxor_nonneg; lia).
  split; [exact Hnn |].
  destruct (Z.eq_dec (Z.lxor a c) 0) as [-> | Hne]; [lia |].
  apply (Z.log2_lt_pow2 _ 8); [lia |].
  eapply Z.le_lt_trans; [apply Z.log2_lxor; lia |].
  apply Z.max_lub_lt.
  - destruct (Z.eq_dec a 0) as [-> | Hane]; [reflexivity |].
    apply Z.log2_lt_pow2; lia.
  - destruct (Z.eq_dec c 0) as [-> | Hcne]; [reflexivity |].
    apply Z.log2_lt_pow2; lia.
Qed.

Lemma xor_byte_value (b k : byte) :
  byte_to_Z (QuarantineManager.xor_byte b k)
  = Z.lxor (byte_to_Z b) (byte_to_Z k).
Proof.
  unfold QuarantineManager.xor_byte. rewrite byte_to_of_Z.
  apply Z.mod_small, lxor_byte_range; apply byte_to_Z_range.
Qed.

Lemma byte_to_Z_inj (b c : byte) : byte_to_Z b = byte_to_Z c -> b = c.
Proof.
  intros H. rewrite <- (byte_of_to_Z b), <- (byte_of_to_Z c). now rewrite H.
Qed.

Lemma xor_byte_involutive (b k : byte) :
  QuarantineManager.xor_byte (QuarantineManager.xor_byte b k) k = b.
Proof.
  apply byte_to_Z_inj. rewrite !xor_byte_value.
  now rewrite Z.lxor_assoc, Z.lxor_nilpotent, Z.lxor_0_r.
Qed.

Lemma xor_byte_changes (b k : byte) :
  k <> x00 -> QuarantineManager.xor_byte b k <> b.
Proof.
  intros Hk Heq. apply Hk. apply byte_to_Z_inj.
  apply (f_equal byte_to_Z) in Heq. rewrite xor_byte_value in Heq.
  apply (f_equal (Z.lxor (byte_to_Z b))) in Heq.
  rewrite <- Z.lxor_assoc, Z.lxor_nilpotent, Z.lxor_0_l in Heq.
  exact Heq.
Qed.

Lemma xor_stream_involutive (key : list byte) (content : list byte) (kpos : nat) :
  QuarantineManager.xor_stream key kpos
    (QuarantineManager.xor_stream key kpos content) = content.
Proof.
  revert kpos. induction content as [| b rest IH]; intros kpos; [reflexivity |].
  cbn [QuarantineManager.xor_stream]. now rewrite xor_byte_involutive, IH.
Qed.

Lemma xor_stream_length (key : list byte) (content : list byte) (kpos : nat) :
  length (QuarantineManager.xor_stream key kpos content) = length content.
Proof.
  revert kpos. induction content as [| b rest IH]; intros kpos; [reflexivity |].
  cbn [QuarantineManager.xor_stream length]. now rewrite IH.
Qed.

Lemma xor_stream_changes (content : list byte) (kpos : nat) :
  (kpos < 8)%nat ->
  Forall2 (fun stored original => stored <> original)
    (QuarantineManager.xor_stream QuarantineManager.DEFAULT_XOR_KEY kpos content)
    content.
Proof.
  revert kpos. induction content as [| b rest IH]; intros kpos Hk;
    [constructor |].
  cbn [QuarantineManager.xor_stream]. constructor.
  - apply xor_byte_changes.
    do 8 (destruct kpos as [| kpos]; [discriminate |]). lia.
  - apply IH. apply Nat.mod_upper_bound. discriminate.
Qed.

Lemma xor_transform_file_stores (sys : QuarantineManager.Sys)
    (src dst : string) (content : list byte) (st : QuarantineManager.State) :
  QuarantineManager.files st !! src = Some content ->
  src <> dst ->
  QuarantineManager.stores_fully sys dst = true ->
  QuarantineManager.xor_transform_file sys src dst st
  = (inr (wrap64 (Z.of_nat (length content))),
     QuarantineManager.with_files
       (<[dst := QuarantineManager.xor_stream
                   QuarantineManager.DEFAULT_XOR_KEY 0 content]>
          (QuarantineManager.files st)) st).
Proof.
  intros Hsrc Hne Hfull. unfold QuarantineManager.stores_fully in Hfull.
  apply andb_true_iff in Hfull as [Hfull Hlimit].
  apply andb_true_iff in Hfull as [Hdirs Hopen].
  unfold QuarantineManager.xor_transform_file. rewrite Hsrc, Hopen.
  apply String.eqb_neq in Hne. rewrite Hne.
  destruct (QuarantineManager.write_limit sys dst); [discriminate |].
  destruct (QuarantineManager.has_parent_path dst),
    (QuarantineManager.create_directories_ok sys); try discriminate;
    reflexivity.
Qed.

(** X22.  Encoding is its own inverse: when the three paths are distinct
    files in turn ([src] is not [mid], [mid] is not [dst]) and the file
    system takes both copies whole, [xor_transform_file] applied to its own
    output writes the original bytes back, both runs report the original
    length, and the copy in between differs from the original in every
    byte (no byte of the key is zero). *)
Theorem xor_transform_file_round_trip (sys : QuarantineManager.Sys)
    (src mid dst : string) (content : list byte)
    (st : QuarantineManager.State) :
  QuarantineManager.files st !! src = Some content ->
  src <> mid -> mid <> dst ->
  QuarantineManager.stores_fully sys mid = true ->
  QuarantineManager.stores_fully sys dst = true ->
  Z.of_nat (length content) < UINT64_MOD ->
  let '(written1, st1) := QuarantineManager.xor_transform_file sys src mid st in
  let '(written2, st2) := QuarantineManager.xor_transform_file sys mid dst st1 in
  written1 = inr (Z.of_nat (length content)) /\
  written2 = inr (Z.of_nat (length content)) /\
  QuarantineManager.files st2 !! dst = Some content /\
  exists stored,
    QuarantineManager.files st1 !! mid = Some stored /\
    Forall2 (fun s o => s <> o) stored content.
Proof.
  intros Hsrc Hne1 Hne2 Hmid Hdst Hlen.
  rewrite (xor_transform_file_stores sys src mid content st Hsrc Hne1 Hmid).
  rewrite (xor_transform_file_stores sys mid dst
             (QuarantineManager.xor_stream QuarantineManager.DEFAULT_XOR_KEY 0
                content));
    [| cbn [QuarantineManager.files QuarantineManager.with_files];
       apply lookup_insert_eq
     | exact Hne2 | exact Hdst].
  cbn [QuarantineManager.files QuarantineManager.with_files].
  rewrite xor_stream_length, xor_stream_involutive, !lookup_insert_eq.
  unfold wrap64. rewrite Z.mod_small by lia.
  split; [reflexivity |]. split; [reflexivity |]. split; [reflexivity |].
  eexists. split; [reflexivity |]. apply xor_stream_changes. lia.
Qed.

Lemma xor_transform_file_round_trip_witness :
  QuarantineManager.files
    (snd (QuarantineManager.xor_transform_file (sys0 true) "/q/x"
            "/home/u/back.bin"
            (snd (QuarantineManager.xor_transform_file (sys0 true)
                    "/home/u/evil.bin" "/q/x" store_with_room))))
  !! "/home/u/back.bin" = Some ["a"%byte].
Proof.
  pose proof (xor_transform_file_round_trip (sys0 true) "/home/u/evil.bin"
                "/q/x" "/home/u/back.bin" ["a"%byte] store_with_room) as H.
  destruct (QuarantineManager.xor_transform_file (sys0 true) "/home/u/evil.bin"
              "/q/x" store_with_room) as [written1 st1].
  cbn [snd] in *.
  destruct (QuarantineManager.xor_transform_file (sys0 true) "/q/x"
              "/home/u/back.bin" st1) as [written2 st2].
  destruct H as (_ & _ & Hback & _);
    [reflexivity | discriminate | discriminate | reflexivity | reflexivity
    | vm_compute; reflexivity |].
  exact Hback.
Defined.

Section QuarantineOutcomes.

Import QuarantineManager.

(** X23.  For a regular file, unless [quarantine] answers with an error:
    when removing the original does not throw, the original is gone
    afterwards (quarantined, quarantined after pruning, or deleted
    outright in the low-disk emergency); when it throws, the failure is
    passed over, and the answer can still be QUARANTINED with the original
    left in place. *)
Theorem quarantine_removes_original (sys : Sys) (path : string) (st : State)
    (content : list byte) :
  files st !! path = Some content ->
  String.prefix "ERROR" (fst (quarantine sys path st)) = false ->
  (remove_ok sys path = true ->
   files (snd (quarantine sys path st)) !! path = None) /\
  (remove_ok sys path = false ->
   String.prefix "QUARANTINED:" (fst (quarantine sys path st)) = true ->
   path <> path_join (configured_folder st)
             (make_unique_stored_filename sys path) ->
   files (snd (quarantine sys path st)) !! path = Some content).
Proof.
  intros Hfile. unfold quarantine.
  destruct (negb (db_handle_ st || sqlite3_open_ok sys)); [discriminate |].
  destruct (quarantine_setup st) as (Hfiles1 & _ & _ & Hfolder1).
  cbv zeta in Hfiles1, Hfolder1.
  set (st1 := if String.eqb _ "" then _ else _) in *. clearbody st1.
  destruct (negb (create_directories_ok sys)); [discriminate |].
  destruct (_ && negb _); [discriminate |].
  destruct (space_available sys <? _).
  { destruct (remove_ok sys path); [| discriminate].
    intros _. split; [| discriminate].
    intros _. cbn [snd files with_files]. apply lookup_delete_eq. }
  destruct (_ <? wrap64 _).
  { destruct (prune_quarantine_if_needed sys _ st1) as [[pr_ok freed] st2].
    destruct (negb pr_ok); [discriminate |].
    destruct (xor_transform_file sys path _ st2) as [[xerr | written] st3];
      [discriminate |].
    destruct (insert_quarantine_record sys _ path written _ st3) as [ok st4].
    intros _. cbn [fst snd]. unfold try_remove. split; [| discriminate].
    intros ->. cbn [files with_files]. apply lookup_delete_eq. }
  rewrite Hfolder1. unfold xor_transform_file. rewrite Hfiles1, Hfile.
  destruct (has_parent_path _ && negb _); [discriminate |].
  destruct (negb (open_for_write_ok sys _)); [discriminate |].
  unfold insert_quarantine_record.
  destruct (negb (db_handle_ _)); [discriminate |].
  destruct (negb (insert_step_done sys)); [discriminate |].
  cbn [fst snd]. intros _. unfold try_remove. split.
  - intros ->. cbn [files with_files with_rows]. apply lookup_delete_eq.
  - intros -> _ Hne. cbn [files with_files with_rows].
    rewrite lookup_insert_ne by congruence. exact Hfile.
Qed.

Lemma quarantine_removes_original_witness :
  files (snd (quarantine (sys0 true) "/home/u/evil.bin" store_with_room))
    !! "/home/u/evil.bin" = None /\
  fst (quarantine sys_locked "/home/u/evil.bin" store_with_room)
    = "QUARANTINED: stored_as=" +:+ stored_as /\
  files (snd (quarantine sys_locked "/home/u/evil.bin" store_with_room))
    !! "/home/u/evil.bin" = Some ["a"%byte].
Proof.
  split; [| split; [vm_compute; reflexivity |]].
  - destruct (quarantine_removes_original (sys0 true) "/home/u/evil.bin"
                store_with_room ["a"%byte]) as [Hgone _].
    + reflexivity.
    + vm_compute. reflexivity.
    + apply Hgone. reflexivity.
  - destruct (quarantine_removes_original sys_locked "/home/u/evil.bin"
                store_with_room ["a"%byte]) as [_ Hstays].
    + reflexivity.
    + vm_compute. reflexivity.
    + apply Hstays; [reflexivity | vm_compute; reflexivity
                    | vm_compute; discriminate].
Defined.

End QuarantineOutcomes.

Section QuarantinePruning.

Import QuarantineManager.

Lemma insert_by_age_elements (r : Row) (sorted : list Row) (x : Row) :
  x ∈ insert_by_age r sorted <-> x = r \/ x ∈ sorted.
Proof.
  induction sorted as [| y rest IH]; cbn [insert_by_age].
  - rewrite list_elem_of_singleton, elem_of_nil. tauto.
  - destruct (quarantined_at r <=? quarantined_at y).
    + apply elem_of_cons.
    + rewrite !elem_of_cons, IH. tauto.
Qed.

Lemma insert_by_age_sorted (r : Row) (sorted : list Row) :
  StronglySorted older sorted -> StronglySorted older (insert_by_age r sorted).
Proof.
  induction 1 as [| y rest Hsorted IH Hall]; cbn [insert_by_age].
  - repeat constructor.
  - destruct (Z.leb_spec (quarantined_at r) (quarantined_at y)).
    + constructor; [now constructor |].
      constructor; [unfold older; lia |].
      eapply Forall_impl; [exact Hall |].
      intros z Hz. unfold older in *. lia.
    + constructor; [exact IH |].
      apply Forall_forall. intros z Hz. apply insert_by_age_elements in Hz.
      destruct Hz as [-> | Hz]; [unfold older; lia |].
      rewrite Forall_forall in Hall. now apply Hall.
Qed.

Lemma oldest_first_sorted (rows : list Row) :
  StronglySorted older (oldest_first rows).
Proof.
  induction rows as [| r rows IH]; [constructor |].
  cbn [oldest_first fold_right]. now apply insert_by_age_sorted.
Qed.

Lemma oldest_first_elements (rows : list Row) (x : Row) :
  x ∈ oldest_first rows <-> x ∈ rows.
Proof.
  induction rows as [| r rows IH]; [reflexivity |].
  cbn [oldest_first fold_right]. fold (oldest_first rows).
  rewrite insert_by_age_elements, elem_of_cons, IH. reflexivity.
Qed.

Lemma collect_victims_prefix (needed_bytes : Z) (rows : list Row) (freed : Z) :
  exists kept,
    rows = fst (collect_victims needed_bytes freed rows) ++ kept.
Proof.
  revert freed. induction rows as [| r rows IH]; intros freed.
  - now exists [].
  - cbn [collect_victims].
    destruct (needed_bytes <=? _); [now exists rows |].
    destruct (IH (wrap64 (freed + wrap64 (stored_size r)))) as [kept Hkept].
    destruct (collect_victims needed_bytes _ rows) as [more total].
    exists kept. cbn [fst] in *. now rewrite Hkept at 1.
Qed.

Lemma remove_quarantine_record_by_id_rows (sys : Sys) (record_id : Z)
    (st : State) :
  db_handle_ st = true -> delete_step_done sys = true ->
  quarantine_files (snd (remove_quarantine_record_by_id sys record_id st))
  = List.filter (fun r => negb (id r =? record_id)) (quarantine_files st).
Proof.
  intros Hdb Hdel. unfold remove_quarantine_record_by_id.
  rewrite Hdb, Hdel. cbn [negb].
  destruct (List.find _ (quarantine_files st)) eqn:Hfind.
  - cbn [snd quarantine_files with_rows]. now rewrite try_remove_rows.
  - cbn [snd]. symmetry. apply forallb_filter_id, forallb_forall.
    intros r Hr. now rewrite (find_none _ _ Hfind r Hr).
Qed.

Lemma remove_victims_rows (sys : Sys) (victims : list Row) (st : State) :
  db_handle_ st = true -> delete_step_done sys = true ->
  Forall (fun v => INT_MIN <= id v <= INT_MAX) victims ->
  quarantine_files
    (fold_left
       (fun acc r =>
          snd (remove_quarantine_record_by_id sys (static_cast_int (id r)) acc))
       victims st)
  = List.filter (fun r => negb (existsb (fun v => id r =? id v) victims))
      (quarantine_files st).
Proof.
  intros Hdb Hdel Hrange. revert st Hdb.
  induction Hrange as [| v victims Hv _ IH]; intros st Hdb.
  - cbn [fold_left existsb negb]. now rewrite filter_true.
  - cbn [fold_left]. rewrite static_cast_int_id by exact Hv.
    rewrite IH
      by (destruct (remove_quarantine_record_by_id_frame sys (id v) st)
            as (_ & -> & _); exact Hdb).
    rewrite remove_quarantine_record_by_id_rows by assumption.
    induction (quarantine_files st) as [| r rows IHrows]; [reflexivity |].
    cbn [List.filter existsb].
    destruct (id r =? id v); cbn [negb orb]; [exact IHrows |].
    cbn [List.filter]. destruct (negb _); [now rewrite IHrows | exact IHrows].
Qed.

(** X24.  When every DELETE steps and the row ids fit in an [int], a
    pruning that succeeds evicts from the old end: the evicted rows are a
    prefix of the not-deleted rows ordered by [quarantined_at], so no row
    that stays was quarantined before a row that goes (whatever the order
    among rows of equal time); exactly the rows with an evicted id leave
    the table; and the sizes of the evicted rows add up to at least the
    request. *)
Theorem prune_evicts_oldest (sys : Sys) (needed_bytes : Z) (st : State) :
  needed_bytes <> 0 ->
  delete_step_done sys = true ->
  Forall (fun r => INT_MIN <= id r <= INT_MAX) (quarantine_files st) ->
  fst (fst (prune_quarantine_if_needed sys needed_bytes st)) = true ->
  exists victims kept,
    oldest_first (List.filter (fun r => negb (deleted r)) (quarantine_files st))
      = victims ++ kept /\
    (forall v k, v ∈ victims -> k ∈ kept ->
       quarantined_at v <= quarantined_at k) /\
    quarantine_files (snd (prune_quarantine_if_needed sys needed_bytes st))
      = List.filter (fun r => negb (existsb (fun v => id r =? id v) victims))
          (quarantine_files st) /\
    needed_bytes <= snd (fst (prune_quarantine_if_needed sys needed_bytes st)).
Proof.
  intros Hneeded Hdel Hrange. unfold prune_quarantine_if_needed.
  apply Z.eqb_neq in Hneeded. rewrite Hneeded.
  destruct (db_handle_ st) eqn:Hdb; cbn [negb]; [| discriminate].
  set (candidates := oldest_first _).
  pose proof (oldest_first_sorted
                (List.filter (fun r => negb (deleted r)) (quarantine_files st)))
    as Hsorted.
  assert (Hcand : forall x, x ∈ candidates -> x ∈ quarantine_files st).
  { intros x Hx. subst candidates. rewrite oldest_first_elements in Hx.
    rewrite list_elem_of_In in Hx. apply filter_In in Hx.
    apply list_elem_of_In. tauto. }
  fold candidates in Hsorted.
  destruct (collect_victims_prefix needed_bytes candidates 0) as [kept Hkept].
  clearbody candidates.
  destruct (collect_victims needed_bytes 0 candidates) as [victims freed].
  cbn [fst] in Hkept.
  destruct (Z.ltb_spec freed needed_bytes); [discriminate |].
  intros _. exists victims, kept. cbn [fst snd].
  split; [exact Hkept |]. split; [| split; [| lia]].
  - intros v k Hv Hk. rewrite Hkept in Hsorted.
    exact (StronglySorted_app_1_elem_of _ _ _ _ _ Hsorted Hv Hk).
  - apply remove_victims_rows; [exact Hdb | exact Hdel |].
    apply Forall_forall. intros v Hv.
    rewrite Forall_forall in Hrange. apply Hrange, Hcand.
    rewrite Hkept. apply elem_of_app. now left.
Qed.

Lemma prune_evicts_oldest_witness :
  quarantine_files (snd (prune_quarantine_if_needed (sys0 true) 3
                           (with_manager "/q" true store_full))) = [].
Proof.
  destruct (prune_evicts_oldest (sys0 true) 3
              (with_manager "/q" true store_full))
    as (victims & kept & Hsplit & _ & Hrows & _).
  - discriminate.
  - reflexivity.
  - repeat constructor; vm_compute; discriminate.
  - reflexivity.
  - rewrite Hrows.
    destruct victims as [| v victims]; [| destruct victims; [| discriminate]].
    + vm_compute in Hsplit. subst kept. exfalso.
      vm_compute in Hrows. discriminate.
    + vm_compute in Hsplit. injection Hsplit as <- _. reflexivity.
Defined.

End QuarantinePruning.

(** ** Stored names *)

Lemma list_ascii_of_string_map (f : ascii -> ascii) (s : string) :
  list_ascii_of_string (string_map f s) = map f (list_ascii_of_string s).
Proof.
  induction s as [| c s IH]; [reflexivity |].
  cbn [string_map list_ascii_of_string map]. now rewrite IH.
Qed.

Lemma existsb_map_never {A B : Type} (p : B -> bool) (f : A -> B) (l : list A) :
  (forall a, p (f a) = false) -> existsb p (map f l) = false.
Proof.
  intros Hp. induction l as [| a l IH]; [reflexivity |].
  cbn [map existsb]. now rewrite Hp, IH.
Qed.

(** The three [std::replace] passes leave no separator and no colon. *)
Lemma replaced_char_plain (c : ascii) :
  let pass (from : ascii) (x : ascii) :=
    if Ascii.eqb x from then "_"%char else x in
  let c' := pass "/"%char (pass "\"%char (pass ":"%char c)) in
  QuarantineManager.is_separator c' || Ascii.eqb c' ":"%char = false.
Proof.
  cbv zeta. unfold QuarantineManager.is_separator.
  destruct (Ascii.eqb_spec c ":"%char) as [-> | Hcolon]; [reflexivity |].
  destruct (Ascii.eqb_spec c "\"%char) as [-> | Hback]; [reflexivity |].
  destruct (Ascii.eqb_spec c "/"%char) as [-> | Hslash]; [reflexivity |].
  apply Ascii.eqb_neq in Hcolon, Hback, Hslash.
  now rewrite Hcolon, Hback, Hslash.
Qed.

Lemma make_unique_stored_filename_plain (sys : QuarantineManager.Sys)
    (original_path : string) :
  QuarantineManager.has_separator
    (QuarantineManager.make_unique_stored_filename sys original_path) = false.
Proof.
  unfold QuarantineManager.has_separator,
    QuarantineManager.make_unique_stored_filename, string_replace.
  rewrite !list_ascii_of_string_map, !map_map.
  apply existsb_map_never. intros c. apply replaced_char_plain.
Qed.

Lemma split_path_plain (s : string) :
  QuarantineManager.has_separator s = false ->
  QuarantineManager.split_path s = (None, s).
Proof.
  unfold QuarantineManager.has_separator.
  induction s as [| c s IH]; [reflexivity |].
  cbn [list_ascii_of_string existsb QuarantineManager.split_path].
  intros H. apply orb_false_elim in H. destruct H as [Hc Hs].
  apply orb_false_elim in Hc. destruct Hc as [Hsep _].
  now rewrite (IH Hs), Hsep.
Qed.

Lemma split_path_app_plain (folder name : string) :
  QuarantineManager.has_separator name = false ->
  QuarantineManager.split_path (folder +:+ name)
  = (fst (QuarantineManager.split_path folder),
     snd (QuarantineManager.split_path folder) +:+ name).
Proof.
  intros Hname. induction folder as [| c folder IH].
  - change ("" +:+ name) with name.
    now rewrite (split_path_plain name Hname).
  - change (String c folder +:+ name) with (String c (folder +:+ name)).
    cbn [QuarantineManager.split_path]. rewrite IH.
    destruct (QuarantineManager.split_path folder) as [[parent |] last_part];
      cbn [fst snd]; [reflexivity |].
    now destruct (QuarantineManager.is_separator c).
Qed.

Lemma split_path_trailing_slash (folder : string) :
  exists parent,
    QuarantineManager.split_path (folder +:+ "/") = (Some parent, "").
Proof.
  induction folder as [| c folder [parent IH]].
  - now exists "".
  - exists (String c parent).
    change (String c folder +:+ "/") with (String c (folder +:+ "/")).
    cbn [QuarantineManager.split_path]. now rewrite IH.
Qed.

Lemma string_app_assoc (a b c : string) : (a +:+ b) +:+ c = a +:+ (b +:+ c).
Proof.
  induction a as [| x a IH]; [reflexivity |].
  change (String x a +:+ b) with (String x (a +:+ b)).
  change (String x (a +:+ b) +:+ c) with (String x ((a +:+ b) +:+ c)).
  change (String x a +:+ (b +:+ c)) with (String x (a +:+ (b +:+ c))).
  now rewrite IH.
Qed.

Lemma path_filename_join_plain (folder name : string) :
  QuarantineManager.has_separator name = false ->
  QuarantineManager.path_filename (QuarantineManager.path_join folder name)
  = name.
Proof.
  intros Hname.
  unfold QuarantineManager.path_filename, QuarantineManager.path_join.
  destruct (String.eqb folder ""); [now rewrite (split_path_plain name Hname) |].
  unfold QuarantineManager.ends_with_separator.
  destruct (QuarantineManager.split_path folder)
    as [[parent |] [| c last_part]] eqn:Hsplit.
  - rewrite (split_path_app_plain folder name Hname), Hsplit. reflexivity.
  - destruct (split_path_trailing_slash folder) as [p Hp].
    rewrite <- string_app_assoc.
    now rewrite (split_path_app_plain (folder +:+ "/") name Hname), Hp.
  - destruct (split_path_trailing_slash folder) as [p Hp].
    rewrite <- string_app_assoc.
    now rewrite (split_path_app_plain (folder +:+ "/") name Hname), Hp.
  - destruct (split_path_trailing_slash folder) as [p Hp].
    rewrite <- string_app_assoc.
    now rewrite (split_path_app_plain (folder +:+ "/") name Hname), Hp.
Qed.

(** X25.  A stored name never contains a slash, a backslash or a colon,
    whatever the original path, the clock and the random number: it is one
    path component, and the stored copy lies directly in the quarantine
    folder, under a path whose last component is the stored name. *)
Theorem stored_name_is_one_component (sys : QuarantineManager.Sys)
    (original_path folder : string) :
  let name := QuarantineManager.make_unique_stored_filename sys original_path in
  QuarantineManager.has_separator name = false /\
  QuarantineManager.path_filename name = name /\
  QuarantineManager.path_filename (QuarantineManager.path_join folder name)
    = name.
Proof.
  cbv zeta.
  pose proof (make_unique_stored_filename_plain sys original_path) as Hplain.
  split; [exact Hplain |]. split.
  - unfold QuarantineManager.path_filename.
    now rewrite (split_path_plain _ Hplain).
  - now apply path_filename_join_plain.
Qed.

Section QuarantineRestore.

Import QuarantineManager.

Lemma find_app_none {A : Type} (f : A -> bool) (l l' : list A) :
  List.find f l = None -> List.find f (l ++ l') = List.find f l'.
Proof.
  induction l as [| x l IH]; [reflexivity |].
  cbn [List.find app]. destruct (f x); [discriminate | exact IH].
Qed.

Lemma sha256_hex_nonempty (content : list byte) :
  String.eqb (sha256_hex content) "" = false.
Proof.
  unfold sha256_hex.
  destruct (digest_bytes (map byte_to_Z content)) as [Hlen Hall].
  destruct (bytes_to_hex_chars _ Hall) as [Hl _]. rewrite Hlen in Hl.
  now destruct (bytes_to_hex _).
Qed.

(** [xor_transform_file] touches files only. *)
Lemma xor_transform_file_frame (sys : Sys) (src dst : string) (st : State) :
  let st' := snd (xor_transform_file sys src dst st) in
  quarantine_folder_ st' = quarantine_folder_ st /\
  db_handle_ st' = db_handle_ st /\
  quarantine_files st' = quarantine_files st.
Proof.
  unfold xor_transform_file.
  destruct (files st !! src); [| now repeat split].
  destruct (has_parent_path dst && negb _); [now repeat split |].
  destruct (negb (open_for_write_ok sys dst)); now repeat split.
Qed.

(** The store after [quarantine] answered QUARANTINED for a file that was
    not itself at the stored path and whose copy reached the disk whole. *)
Lemma quarantine_success_state (sys : Sys) (path : string) (st : State)
    (content : list byte) :
  files st !! path = Some content ->
  let name := make_unique_stored_filename sys path in
  let dest := path_join (configured_folder st) name in
  path <> dest ->
  write_limit sys dest = None ->
  String.prefix "QUARANTINED:" (fst (quarantine sys path st)) = true ->
  let st' := snd (quarantine sys path st) in
  db_handle_ st' = true /\
  files st' !! dest = Some (xor_stream DEFAULT_XOR_KEY 0 content) /\
  exists row,
    quarantine_files st' = quarantine_files st ++ [row] /\
    original_path row = path /\ stored_filename row = name /\
    stored_path row = configured_folder st.
Proof.
  intros Hfile name dest Hne Hfull. subst name dest. unfold quarantine.
  destruct (negb (db_handle_ st || sqlite3_open_ok sys)); [discriminate |].
  destruct (quarantine_setup st) as (Hfiles1 & Hdb1 & Hrows1 & Hfolder1).
  cbv zeta in Hfiles1, Hdb1, Hrows1, Hfolder1.
  set (st1 := if String.eqb _ "" then _ else _) in *. clearbody st1.
  destruct (negb (create_directories_ok sys)); [discriminate |].
  destruct (_ && negb _); [discriminate |].
  destruct (space_available sys <? _);
    [destruct (remove_ok sys path); discriminate |].
  destruct (_ <? wrap64 _).
  { destruct (prune_quarantine_if_needed sys _ st1) as [[pr_ok freed] st2].
    destruct (negb pr_ok); [discriminate |].
    destruct (xor_transform_file sys path _ st2) as [[xerr | written] st3];
      [discriminate |].
    destruct (insert_quarantine_record sys _ path written _ st3).
    discriminate. }
  rewrite Hfolder1. unfold xor_transform_file. rewrite Hfiles1, Hfile.
  destruct (has_parent_path _ && negb _); [discriminate |].
  destruct (negb (open_for_write_ok sys _)); [discriminate |].
  rewrite Hfull. pose proof Hne as Hneb. apply String.eqb_neq in Hneb.
  rewrite Hneb.
  unfold insert_quarantine_record.
  cbn [db_handle_ with_files files].
  rewrite Hdb1. cbn [negb].
  destruct (insert_step_done sys); cbn [negb fst snd]; [| discriminate].
  intros _. unfold try_remove.
  destruct (remove_ok sys path);
    cbn [db_handle_ files quarantine_files quarantine_folder_ with_files
         with_rows];
    rewrite Hfolder1, Hrows1.
  - split; [exact Hdb1 |]. split.
    + rewrite lookup_delete_ne by exact Hne. apply lookup_insert_eq.
    + eexists. split; [reflexivity |]. now repeat split.
  - split; [exact Hdb1 |]. split.
    + apply lookup_insert_eq.
    + eexists. split; [reflexivity |]. now repeat split.
Qed.

(** X26.  Quarantine, then restore, gives the file back.  After
    [quarantine] answered QUARANTINED for a regular file that was not
    itself at the stored path and whose copy reached the disk whole,
    [restore] called with the stored name or the stored path (an argument
    whose last component is the stored name and to which no earlier row
    answers), on a file system that takes the restored file whole, writes
    the original bytes back to the original path, answers with the SHA-256
    of the original bytes (also when the whitelist insert fails), and when
    the insert succeeds whitelists that hash.  When removing the stored
    copy does not throw the copy is gone; when it throws, the answer ends
    in a WARNING and the copy stays. *)
Theorem quarantine_then_restore (sys sys2 : Sys) (path arg : string)
    (st : State) (lg : Ledger) (content : list byte) :
  files st !! path = Some content ->
  String.prefix "QUARANTINED:" (fst (quarantine sys path st)) = true ->
  let name := make_unique_stored_filename sys path in
  let dest := path_join (configured_folder st) name in
  path <> dest ->
  write_limit sys dest = None ->
  path_filename arg = name ->
  find_stored name arg (quarantine_files st) = None ->
  stores_fully sys2 path = true ->
  let '(msg, st2, lg2) := restore sys2 arg (snd (quarantine sys path st)) lg in
  let restored := "RESTORED: " +:+ path +:+ " sha256=" +:+ sha256_hex content in
  files st2 !! path = Some content /\
  (insert_step_done sys2 = true ->
   whitelist_table lg2 !! (sha256_hex content, "sha256") = Some path) /\
  (remove_ok sys2 dest = true ->
   msg = restored /\ files st2 !! dest = None) /\
  (remove_ok sys2 dest = false ->
   msg = restored +:+ " WARNING: Failed to remove quarantined file: "
           +:+ exception_what sys2 /\
   files st2 !! dest = Some (xor_stream DEFAULT_XOR_KEY 0 content)).
Proof.
  intros Hfile Hq name dest Hne Hfull Harg Hfresh Hstore.
  destruct (quarantine_success_state sys path st content Hfile Hne Hfull Hq)
    as (Hdb & Hstored & row & Hrows & Horig & Hname & Hpath).
  fold name in Hname. fold name dest in Hstored.
  set (st1 := snd (quarantine sys path st)) in *. clearbody st1.
  unfold restore. rewrite Hdb. cbn [orb negb].
  cbn [quarantine_files with_manager]. rewrite Harg, Hrows.
  unfold find_stored in *. rewrite (find_app_none _ _ _ Hfresh).
  cbn [List.find]. rewrite Hname, String.eqb_refl. cbn [orb].
  rewrite Hpath, Hname, Horig. fold dest.
  cbn [files with_manager].
  rewrite Hstored, bool_decide_eq_true_2 by eauto. cbn [negb].
  assert (Hdirs : has_parent_path path && negb (create_directories_ok sys2)
                  = false).
  { unfold stores_fully in Hstore.
    destruct (has_parent_path path), (create_directories_ok sys2);
      try reflexivity; discriminate. }
  rewrite Hdirs.
  rewrite (xor_transform_file_stores sys2 dest path
             (xor_stream DEFAULT_XOR_KEY 0 content));
    [| exact Hstored | congruence | exact Hstore].
  rewrite xor_stream_involutive.
  unfold compute_hash. cbn [files with_files with_manager].
  rewrite lookup_insert_eq.
  cbn [fmap option_fmap option_map default]. unfold Datatypes.id.
  rewrite sha256_hex_nonempty.
  set (updated := update_step_done sys2 && _).
  assert (Hwhite : insert_step_done sys2 = true ->
            whitelist_table
              (snd (insert_whitelist_db sys2 (sha256_hex content) "sha256" path
                      (with_files (<[path := content]> (files st1))
                         (with_manager (quarantine_folder_ st1) true st1)) lg))
            !! (sha256_hex content, "sha256") = Some path).
  { intros Hins. unfold insert_whitelist_db.
    cbn [db_handle_ with_files with_manager negb]. rewrite Hins.
    cbn [negb snd whitelist_table]. apply lookup_insert_eq. }
  destruct updated, (remove_ok sys2 dest);
    cbv zeta; cbn [files with_files with_rows whitelist_table];
    (split; [try (rewrite lookup_delete_ne by congruence);
             apply lookup_insert_eq |]);
    (split; [exact Hwhite |]);
    (split; [try discriminate | try discriminate]); intros _;
    (split; [reflexivity |]).
  - apply lookup_delete_eq.
  - rewrite lookup_insert_ne by congruence. exact Hstored.
  - apply lookup_delete_eq.
  - rewrite lookup_insert_ne by congruence. exact Hstored.
Qed.

Lemma quarantine_then_restore_witness :
  let '(msg, st2, lg2) :=
    restore (sys0 true) "1700000000000_beef_evil.bin"
      (snd (quarantine (sys0 true) "/home/u/evil.bin" store_with_room))
      empty_ledger in
  files st2 !! "/home/u/evil.bin" = Some ["a"%byte] /\
  files st2 !! stored_as = None.
Proof.
  pose proof (quarantine_then_restore (sys0 true) (sys0 true)
                "/home/u/evil.bin" "1700000000000_beef_evil.bin"
                store_with_room empty_ledger ["a"%byte]) as H.
  cbv zeta in H.
  destruct (restore (sys0 true) "1700000000000_beef_evil.bin"
              (snd (quarantine (sys0 true) "/home/u/evil.bin" store_with_room))
              empty_ledger) as [[msg st2] lg2].
  destruct H as (Hback & _ & Hgone & _);
    [reflexivity | vm_compute; reflexivity | vm_compute; discriminate
    | reflexivity | vm_compute; reflexivity | reflexivity | reflexivity |].
  split; [exact Hback |]. now apply Hgone.
Defined.

(** The same with a stored copy that cannot be removed: the answer ends
    in the warning and the copy stays, so the file can be restored
    again. *)
Example restore_keeps_copy_on_failed_removal :
  let st1 := snd (quarantine (sys0 true) "/home/u/evil.bin" store_with_room) in
  let '(msg, st2, lg2) := restore sys_locked stored_as st1 empty_ledger in
  msg = "RESTORED: /home/u/evil.bin sha256="
          +:+ sha256_hex ["a"%byte]
          +:+ " WARNING: Failed to remove quarantined file: Permission denied" /\
  files st2 !! stored_as = Some [xcb] /\
  String.prefix "RESTORED:" (fst (fst (restore sys_locked stored_as st2 lg2)))
    = true.
Proof. vm_compute. repeat split. Qed.

Lemma mark_restored_names (record_id : Z) (r : Row) :
  stored_filename (mark_restored record_id r) = stored_filename r /\
  stored_path (mark_restored record_id r) = stored_path r.
Proof. unfold mark_restored. now destruct (id r =? record_id). Qed.

Lemma find_stored_marked (search_name arg : string) (record_id : Z)
    (rows : list Row) :
  find_stored search_name arg (map (mark_restored record_id) rows)
  = mark_restored record_id <$> find_stored search_name arg rows.
Proof.
  unfold find_stored. induction rows as [| r rows IH]; [reflexivity |].
  cbn [map List.find].
  destruct (mark_restored_names record_id r) as [-> ->].
  destruct (_ || _); [reflexivity | exact IH].
Qed.

(** X27.  A quarantined file is restored once: after [restore] answered
    RESTORED and the removal of the stored copy did not throw, the same
    call again still finds the row (rows are marked, not removed) but no
    stored copy, and answers that the quarantined file is missing on
    disk, changing nothing. *)
Theorem restore_twice_reports_missing (sys sys2 : Sys) (arg : string)
    (st : State) (lg : Ledger) (row : Row) :
  find_stored (path_filename arg) arg (quarantine_files st) = Some row ->
  remove_ok sys (path_join (stored_path row) (stored_filename row)) = true ->
  String.prefix "RESTORED:" (fst (fst (restore sys arg st lg))) = true ->
  let '(msg, st1, lg1) := restore sys arg st lg in
  let '(msg2, st2, lg2) := restore sys2 arg st1 lg1 in
  msg2 = "ERROR: Quarantined file missing on disk: "
           +:+ path_join (stored_path row) (stored_filename row) /\
  files st2 = files st1 /\ quarantine_files st2 = quarantine_files st1 /\
  lg2 = lg1.
Proof.
  intros Hfind Hrm. unfold restore at 1 2.
  destruct (negb (db_handle_ st || sqlite3_open_ok sys)); [discriminate |].
  cbn [quarantine_files with_manager]. rewrite Hfind.
  set (st0 := with_manager (quarantine_folder_ st) true st).
  set (src := path_join (stored_path row) (stored_filename row)) in *.
  destruct (negb (bool_decide (is_Some (files st0 !! src)))); [discriminate |].
  destruct (has_parent_path _ && negb _); [discriminate |].
  destruct (xor_transform_file_frame sys src (original_path row) st0)
    as (_ & Hdb3 & Hrows3). cbv zeta in Hdb3, Hrows3.
  destruct (xor_transform_file sys src (original_path row) st0)
    as [[xerr | written] st3]; [discriminate |].
  cbn [snd] in Hdb3, Hrows3. subst st0.
  cbn [db_handle_ quarantine_files with_manager] in Hdb3, Hrows3.
  rewrite Hrm. intros _.
  set (updated := update_step_done sys && _).
  unfold restore.
  destruct updated;
    cbn [db_handle_ with_files with_rows with_manager quarantine_files];
    rewrite Hdb3, Hrows3; cbn [orb negb].
  - rewrite find_stored_marked, Hfind. cbn [fmap option_fmap option_map].
    destruct (mark_restored_names (static_cast_int (id row)) row) as [-> ->].
    fold src. cbn [files with_files with_rows with_manager].
    rewrite lookup_delete_eq.
    rewrite bool_decide_eq_false_2 by (intros [? ?]; discriminate).
    cbn [negb]. now repeat split.
  - rewrite Hfind. fold src. cbn [files with_files with_rows with_manager].
    rewrite lookup_delete_eq.
    rewrite bool_decide_eq_false_2 by (intros [? ?]; discriminate).
    cbn [negb]. now repeat split.
Qed.

Lemma restore_twice_reports_missing_witness :
  let st1 := snd (quarantine (sys0 true) "/home/u/evil.bin" store_with_room) in
  let '(msg, st2, lg2) :=
    restore (sys0 true) stored_as st1 empty_ledger in
  let '(msg2, st3, lg3) := restore (sys0 true) stored_as st2 lg2 in
  msg2 = "ERROR: Quarantined file missing on disk: " +:+ stored_as.
Proof.
  cbv zeta.
  assert (Hrow : exists row,
            find_stored (path_filename stored_as) stored_as
              (quarantine_files
                 (snd (quarantine (sys0 true) "/home/u/evil.bin"
                         store_with_room))) = Some row /\
            path_join (stored_path row) (stored_filename row) = stored_as)
    by (eexists; split; vm_compute; reflexivity).
  destruct Hrow as (row & Hrow & Hsrc).
  pose proof (restore_twice_reports_missing (sys0 true) (sys0 true) stored_as
                (snd (quarantine (sys0 true) "/home/u/evil.bin" store_with_room))
                empty_ledger row Hrow eq_refl) as H.
  rewrite Hsrc in H.
  destruct (restore (sys0 true) stored_as
              (snd (quarantine (sys0 true) "/home/u/evil.bin" store_with_room))
              empty_ledger) as [[msg st2] lg2] eqn:Hfirst.
  assert (Hmsg : String.prefix "RESTORED:" msg = true).
  { apply (f_equal (fun r => String.prefix "RESTORED:" (fst (fst r)))) in Hfirst.
    cbn [fst] in Hfirst. rewrite <- Hfirst. vm_compute. reflexivity. }
  specialize (H Hmsg).
  destruct (restore (sys0 true) stored_as st2 lg2) as [[msg2 st3] lg3].
  now destruct H.
Defined.

End QuarantineRestore.

(** ** The whitelist *)

Lemma whitelist_check_hit (db : SigStore)
    (probes : list (option string * string)) (hex type : string) :
  In (Some hex, type) probes ->
  check_hash_whitelist db hex type = true ->
  fst (whitelist_check db probes) = true.
Proof.
  intros Hin Hwhite. induction probes as [| [[hex' |] type'] rest IH];
    [destruct Hin | |].
  - cbn [whitelist_check].
    destruct (check_hash_whitelist db hex' type') eqn:Hhere; [reflexivity |].
    destruct Hin as [Heq | Hin]; [congruence |].
    specialize (IH Hin). now destruct (whitelist_check db rest).
  - cbn [whitelist_check]. destruct Hin as [Heq | Hin]; [discriminate |].
    now apply IH.
Qed.

Lemma notice_only (h : Host) (s : YaraScanner) (cb : ResultCallback)
    (ff : FileFacts) (path text source : string) (owner : bool) :
  let ev := call_callback_if_python_ready h s cb
              (notice_result h ff path text source) owner in
  signature_queries ev = [] /\ content_scans ev = [] /\
  Forall (fun r => isMalware r = false) (emitted ev).
Proof.
  cbv zeta.
  destruct (call_callback_cases h s cb (notice_result h ff path text source)
              owner) as [-> | ->]; cbn.
  - now repeat split.
  - repeat split. now constructor.
Qed.

(** X28.  The whitelist comes before everything that could call a file
    malware: without full scan, a file with one digest on the whitelist
    under that digest's type is never looked up in the signature tables,
    never scanned by YARA, and whatever is reported for it is no
    detection, also when the signature tables hold the same digest. *)
Theorem whitelisted_file_is_never_detected (h : Host) (s : YaraScanner)
    (cb : ResultCallback) (path : string) (ff : FileFacts) (yara : YaraRun)
    (hex type : string) :
  full_scan_override s = false ->
  In (Some hex, type)
     [ (sha256_opt ff, "sha256"); (sha1_opt ff, "sha1"); (md5_opt ff, "md5") ] ->
  check_hash_whitelist (db s) hex type = true ->
  let o := scan_file_internal h s cb path ff yara in
  signature_queries (out_events o) = [] /\
  content_scans (out_events o) = [] /\
  Forall (fun r => isMalware r = false) (emitted (out_events o)).
Proof.
  intros Hfull Hin Hwhite. cbv zeta. unfold scan_file_internal.
  destruct (negb (initialized s)); [now repeat split |].
  destruct (existsb _ excluded_keywords); [now repeat split |].
  destruct (negb (fs_exists ff) || negb (fs_is_regular_file ff));
    [now repeat split |].
  destruct (_ && negb (full_scan_override s)).
  { cbn [out_events]. destruct (callback_is_set cb); [| now repeat split].
    apply notice_only. }
  destruct (negb (full_scan_override s) && trusted_publisher ff).
  { cbn [out_events]. destruct (callback_is_set cb); [| now repeat split].
    destruct (notice_only h s cb ff path
                "Skipped: trusted publisher signature" "POLICY" true)
      as (Hs & Hc & Hm).
    cbv zeta in Hs, Hc, Hm. now repeat split. }
  unfold locked_scan. rewrite Hfull. cbn [negb].
  pose proof (whitelist_check_hit (db s) _ hex type Hin Hwhite) as Hhit.
  pose proof (whitelist_check_quiet (db s)
                [ (sha256_opt ff, "sha256"); (sha1_opt ff, "sha1");
                  (md5_opt ff, "md5") ]) as (Hwe & Hwc & Hws).
  destruct (whitelist_check (db s) _) as [white ev_white].
  cbn [fst snd] in *. subst white. cbn [out_events].
  destruct (notice_only h s cb ff path "Skipped: hash whitelisted" "WHITELIST"
              true) as (Hs & Hc & Hm).
  cbv zeta in Hs, Hc, Hm.
  change ([EvTrustCheck] ++ EvHashes :: ev_white ++ ?x)
    with ([EvTrustCheck; EvHashes] ++ ev_white ++ x).
  rewrite !signature_queries_app, !content_scans_app, !emitted_app.
  rewrite Hwe, Hwc, Hws, Hs, Hc.
  split; [reflexivity |]. split; [reflexivity |]. exact Hm.
Qed.

Lemma whitelisted_file_is_never_detected_witness :
  let o := scan_file_internal host0 engine_whitelisting (UserCallback 1)
             "C:\Users\u\eicar.com" empty_file no_match_run in
  check_hash_in_db (db engine_whitelisting) empty_sha256 "SHA256"
    = Some "Test.EICAR" /\
  signature_queries (out_events o) = [] /\
  content_scans (out_events o) = [].
Proof.
  destruct (whitelisted_file_is_never_detected host0 engine_whitelisting
              (UserCallback 1) "C:\Users\u\eicar.com" empty_file no_match_run
              empty_sha1 "sha1") as (Hs & Hc & _).
  - reflexivity.
  - right. left. reflexivity.
  - vm_compute. reflexivity.
  - split; [vm_compute; reflexivity |]. split; [exact Hs | exact Hc].
Defined.
